(** * Buyer-lead intake: row-level policies, schema constraints, CSV import/export

    A shallow embedding of
    - [supabase/migrations/20250915111553_...sql]: the enumerations, the
      [profiles], [buyer_leads] and [lead_activities] tables, the role lookup
      [get_user_role], the triggers [update_updated_at_column] and
      [handle_new_user], and the row-level-security policies;
    - [src/pages/ImportExport.tsx]: [parseCsvLine], [handleFileImport],
      [handleExport] and the sample of [downloadSampleCsv];
    - [src/lib/validations.ts]: [csvImportSchema] and [leadSchema];
    - the lead form: [onSubmit], [addArea] and [removeArea];
    - the list of leads: [fetchLeads] and the page controls;
    - [src/pages/Analytics.tsx]: [fetchAnalytics];
    - [src/pages/Dashboard.tsx]: [fetchDashboardStats].

    Conventions.
    - SQL expressions are three-valued: a truth value is an [option bool]
      with [None] for NULL; a policy lets a row through only when its
      expression is TRUE.
    - Text is a [string] of 8-bit characters; the characters above 127 are
      kept as they are (they are neither white space nor letters), so
      what is said of white space and of letter case is said of ASCII.
    - The store takes every text it is sent; PostgreSQL refuses a text
      with the character of code 0, and [storable_text] says that a text
      has none.
    - A statement names the columns the application sends: [lead_row_in]
      has no field for [id], [created_at] and [updated_at].
    - A JavaScript number is kept as the exact decimal it was read from,
      where the engine rounds to the nearest double; the two agree on the
      numerals of up to 15 digits, hence on every value that fits the
      INTEGER, DECIMAL(12,2) and DECIMAL(3,1) columns.
    - Time stamps are kept as the text the store prints for them (one
      format, one zone), so that their order is the order of the text.
    - The identities a row refers to exist (the foreign keys to
      [auth.users] hold), and no element of [preferred_areas] is NULL.
    - The handlers are run by a signed-in user (they return at once
      otherwise). The queries of the analytics page and of the dashboard
      do not fail; the export is followed from the answer of its query
      on, an answer with an error included ([handleExport_from]).
    - [z.string().email()] belongs to the validation library: the import
      and the form take it as the parameter [is_email].
    - The pages take from their surroundings what the store and the
      engine decide: the WHERE clause of the list as the parameter
      [selected], the reading of a time stamp as [getTime], the clock of
      the analytics page as [sevenDaysAgo]. A rate or a percentage is
      kept as the exact quotient. *)

From Stdlib Require Import ZArith QArith List String Ascii Bool Lia Sorted.
From stdpp Require Import base option list gmap strings.
Import ListNotations.
Local Open Scope string_scope.
Local Open Scope Z_scope.

(** ** SQL three-valued logic *)

Module Sql.

Definition tv := option bool.

(** A comparison [x op y]: NULL as soon as one side is NULL. *)
Definition cmp {A B} (op : A -> B -> bool) (x : option A) (y : option B) : tv :=
  match x, y with
  | Some a, Some b => Some (op a b)
  | _, _ => None
  end.

Definition or (a b : tv) : tv :=
  match a, b with
  | Some true, _ | _, Some true => Some true
  | Some false, Some false => Some false
  | _, _ => None
  end.

Definition and (a b : tv) : tv :=
  match a, b with
  | Some false, _ | _, Some false => Some false
  | Some true, Some true => Some true
  | _, _ => None
  end.

(** [x IN (v1, ..., vn)] is [x = v1 OR ... OR x = vn]. *)
Definition isin {A} (eqb : A -> A -> bool) (x : option A) (vs : list A) : tv :=
  fold_right (fun v acc => or (cmp eqb x (Some v)) acc) (Some false) vs.

(** A WHERE clause, a USING or a WITH CHECK expression keeps a row only
    when it evaluates to TRUE. *)
Definition holds (t : tv) : bool :=
  match t with Some true => true | _ => false end.

(** A CHECK constraint rejects a row only when it evaluates to FALSE. *)
Definition check_passes (t : tv) : bool :=
  match t with Some false => false | _ => true end.

End Sql.

(** ** Schema (migration lines 1-64) *)

Inductive lead_status := new | contacted | qualified | not_qualified | closed.
Inductive lead_source :=
  website | referral | social_media | cold_call | email_campaign | other.
Inductive app_role := admin | agent | viewer.

Definition lead_status_label (s : lead_status) : string :=
  match s with
  | new => "new" | contacted => "contacted" | qualified => "qualified"
  | not_qualified => "not_qualified" | closed => "closed"
  end.

Definition lead_source_label (s : lead_source) : string :=
  match s with
  | website => "website" | referral => "referral"
  | social_media => "social_media" | cold_call => "cold_call"
  | email_campaign => "email_campaign" | other => "other"
  end.

Definition all_lead_status := [new; contacted; qualified; not_qualified; closed].
Definition all_lead_source :=
  [website; referral; social_media; cold_call; email_campaign; other].

(** Input of an enum literal: the text must be one of the labels, exactly. *)
Definition lead_status_in (s : string) : option lead_status :=
  List.find (fun v => String.eqb (lead_status_label v) s) all_lead_status.

Definition lead_source_in (s : string) : option lead_source :=
  List.find (fun v => String.eqb (lead_source_label v) s) all_lead_source.

Definition app_role_eqb (a b : app_role) : bool :=
  match a, b with
  | admin, admin | agent, agent | viewer, viewer => true
  | _, _ => false
  end.

Definition uuid := N.
Definition timestamptz := string.

Record profile := {
  pr_user_id : uuid;
  pr_full_name : option string;
  pr_role : option app_role
}.

(** [budget_min], [budget_max] are DECIMAL(12,2), kept in hundredths;
    [bathrooms] is DECIMAL(3,1), kept in tenths. *)
Record buyer_lead := {
  bl_id : uuid;
  bl_created_by : option uuid;
  bl_assigned_to : option uuid;
  bl_first_name : string;
  bl_last_name : string;
  bl_email : string;
  bl_phone : option string;
  bl_budget_min : option Z;
  bl_budget_max : option Z;
  bl_preferred_areas : option (list string);
  bl_property_type : option string;
  bl_bedrooms : option Z;
  bl_bathrooms : option Z;
  bl_status : option lead_status;
  bl_source : option lead_source;
  bl_priority : option Z;
  bl_notes : option string;
  bl_last_contacted : option timestamptz;
  bl_next_follow_up : option timestamptz;
  bl_created_at : option timestamptz;
  bl_updated_at : option timestamptz
}.

Record lead_activity := {
  la_id : uuid;
  la_lead_id : uuid;
  la_user_id : option uuid;
  la_activity_type : string;
  la_description : string;
  la_created_at : option timestamptz
}.

(** The store: the three tables, the clock reading [now()] and the next
    value of [gen_random_uuid()]. *)
Record database := {
  profiles : list profile;
  buyer_leads : list buyer_lead;
  lead_activities : list lead_activity;
  db_now : timestamptz;
  db_next_id : uuid
}.

(** ** Role lookup (migration lines 72-80)

    [SELECT role FROM profiles WHERE user_id = $1]: NULL when the caller is
    anonymous or has no profile ([user_id] is UNIQUE). *)
Definition get_user_role (db : database) (uid : option uuid) : option app_role :=
  match uid with
  | None => None
  | Some u =>
      match List.find (fun p => N.eqb (pr_user_id p) u) (profiles db) with
      | Some p => pr_role p
      | None => None
      end
  end.

(** ** Row-level policies (migration lines 125-186) *)

Inductive command := SELECT | INSERT | UPDATE | DELETE.
Inductive policy_for := FOR_ALL | FOR (c : command).

Definition command_eqb (a b : command) : bool :=
  match a, b with
  | SELECT, SELECT | INSERT, INSERT | UPDATE, UPDATE | DELETE, DELETE => true
  | _, _ => false
  end.

(** A permissive policy on rows of type [R]: the command it is for, its
    USING expression and its WITH CHECK expression, each evaluated for a
    store, a caller ([auth.uid()]) and a row. *)
Record policy (R : Type) := {
  pol_name : string;
  pol_for : policy_for;
  pol_using : option (database -> option uuid -> R -> Sql.tv);
  pol_with_check : option (database -> option uuid -> R -> Sql.tv)
}.
Arguments pol_name {R}. Arguments pol_for {R}.
Arguments pol_using {R}. Arguments pol_with_check {R}.

Definition applies {R} (c : command) (p : policy R) : bool :=
  match pol_for p with
  | FOR_ALL => true
  | FOR c' => command_eqb c c'
  end.

(** Rows that exist are filtered by USING; the permissive policies of a
    command are combined with OR, and with no policy nothing passes. *)
Definition using_allows {R} (ps : list (policy R)) (c : command)
    (db : database) (uid : option uuid) (r : R) : bool :=
  existsb (fun p =>
      applies c p &&
      match pol_using p with
      | Some e => Sql.holds (e db uid r)
      | None => false
      end) ps.

(** New rows are tested by WITH CHECK, which defaults to USING. *)
Definition check_allows {R} (ps : list (policy R)) (c : command)
    (db : database) (uid : option uuid) (r : R) : bool :=
  existsb (fun p =>
      applies c p &&
      match pol_with_check p, pol_using p with
      | Some e, _ => Sql.holds (e db uid r)
      | None, Some e => Sql.holds (e db uid r)
      | None, None => false
      end) ps.

Definition role_is (db : database) (uid : option uuid) (r : app_role) : Sql.tv :=
  Sql.cmp app_role_eqb (get_user_role db uid) (Some r).

Definition role_in (db : database) (uid : option uuid) (rs : list app_role) : Sql.tv :=
  Sql.isin app_role_eqb (get_user_role db uid) rs.

(** [role = 'admin' OR created_by = auth.uid() OR assigned_to = auth.uid()] *)
Definition admin_or_owner (db : database) (uid : option uuid) (bl : buyer_lead) : Sql.tv :=
  Sql.or (Sql.or (role_is db uid admin)
                 (Sql.cmp N.eqb (bl_created_by bl) uid))
         (Sql.cmp N.eqb (bl_assigned_to bl) uid).

Definition buyer_leads_policies : list (policy buyer_lead) := [
  {| pol_name := "Admins can do everything with leads";
     pol_for := FOR_ALL;
     pol_using := Some (fun db uid _ => role_is db uid admin);
     pol_with_check := None |};
  {| pol_name := "Agents can view all leads";
     pol_for := FOR SELECT;
     pol_using := Some (fun db uid _ => role_in db uid [admin; agent; viewer]);
     pol_with_check := None |};
  {| pol_name := "Agents can create leads";
     pol_for := FOR INSERT;
     pol_using := None;
     pol_with_check := Some (fun db uid _ => role_in db uid [admin; agent]) |};
  {| pol_name := "Agents can update leads they created or are assigned to";
     pol_for := FOR UPDATE;
     pol_using := Some admin_or_owner;
     pol_with_check := None |};
  {| pol_name := "Only admins can delete leads";
     pol_for := FOR DELETE;
     pol_using := Some (fun db uid _ => role_is db uid admin);
     pol_with_check := None |}
].

(** The leads a caller's queries see: row security is on for
    [buyer_leads], also for the sub-select of another table's policy. *)
Definition visible_leads (db : database) (uid : option uuid) : list buyer_lead :=
  List.filter (using_allows buyer_leads_policies SELECT db uid) (buyer_leads db).

(** [EXISTS (SELECT 1 FROM buyer_leads bl WHERE bl.id = lead_activities.lead_id
     AND (role = 'admin' OR bl.created_by = auth.uid() OR bl.assigned_to = auth.uid()))] *)
Definition exists_accessible_lead (db : database) (uid : option uuid)
    (la : lead_activity) : Sql.tv :=
  Some (existsb (fun bl =>
      Sql.holds (Sql.and (Sql.cmp N.eqb (Some (bl_id bl)) (Some (la_lead_id la)))
                         (admin_or_owner db uid bl)))
    (visible_leads db uid)).

Definition lead_activities_policies : list (policy lead_activity) := [
  {| pol_name := "Users can view activities for leads they have access to";
     pol_for := FOR SELECT;
     pol_using := Some exists_accessible_lead;
     pol_with_check := None |};
  {| pol_name := "Users can create activities for accessible leads";
     pol_for := FOR INSERT;
     pol_using := None;
     pol_with_check := Some exists_accessible_lead |}
].

(** The decisions of the policy engine, per table and command. *)
Definition lead_read_allowed db uid bl :=
  using_allows buyer_leads_policies SELECT db uid bl.
Definition lead_insert_allowed db uid bl :=
  check_allows buyer_leads_policies INSERT db uid bl.
Definition lead_update_allowed db uid bl :=
  using_allows buyer_leads_policies UPDATE db uid bl.
Definition lead_delete_allowed db uid bl :=
  using_allows buyer_leads_policies DELETE db uid bl.
Definition activity_read_allowed db uid la :=
  using_allows lead_activities_policies SELECT db uid la.
Definition activity_insert_allowed db uid la :=
  check_allows lead_activities_policies INSERT db uid la.

(** ** Values sent to the store *)

(** A decimal numeral [dec_m * 10 ^ dec_e], the form in which a number
    travels in a JSON body. *)
Record decimal := { dec_m : Z; dec_e : Z }.

(** What a statement says about a column: nothing (INSERT takes the column
    default, UPDATE keeps the stored value), NULL, or a value. *)
Inductive col (A : Type) := Default | Null | Val (a : A).
Arguments Default {A}. Arguments Null {A}. Arguments Val {A}.

Record lead_row_in := {
  in_created_by : col uuid;
  in_assigned_to : col uuid;
  in_first_name : col string;
  in_last_name : col string;
  in_email : col string;
  in_phone : col string;
  in_budget_min : col decimal;
  in_budget_max : col decimal;
  in_preferred_areas : col (list string);
  in_property_type : col string;
  in_bedrooms : col decimal;
  in_bathrooms : col decimal;
  in_status : col string;
  in_source : col string;
  in_priority : col decimal;
  in_notes : col string;
  in_last_contacted : col timestamptz;
  in_next_follow_up : col timestamptz
}.

Inductive db_error :=
| invalid_text_representation (what : string)
| numeric_value_out_of_range (what : string)
| row_security_violation (table : string)
| not_null_violation (column : string)
| check_violation (constraint : string).

Inductive result (E A : Type) := Ok (a : A) | Err (e : E).
Arguments Ok {E A}. Arguments Err {E A}.

Definition bind {E A B} (m : result E A) (k : A -> result E B) : result E B :=
  match m with
  | Ok a => k a
  | Err e => Err e
  end.

Notation "'try' x := m 'in' k" := (bind m (fun x => k))
  (at level 10, x name, m at level 100, k at level 200).

Definition guard {E} (b : bool) (e : E) : result E unit :=
  if b then Ok tt else Err e.

(** Rounding of [m * 10 ^ e] to [s] decimal places, half away from zero,
    in units of [10 ^ -s]. *)
Definition round_scaled (s : Z) (d : decimal) : Z :=
  let k := dec_e d + s in
  if 0 <=? k then dec_m d * 10 ^ k
  else
    let p := 10 ^ (- k) in
    Z.sgn (dec_m d) * ((Z.abs (dec_m d) + p / 2) / p).

(** Input of DECIMAL(p,s): [p] digits in all, [s] of them after the point. *)
Definition to_numeric (p s : Z) (what : string) (d : decimal) : result db_error Z :=
  let v := round_scaled s d in
  if Z.abs v <? 10 ^ p then Ok v
  else Err (numeric_value_out_of_range what).

(** Input of INTEGER: a whole number of 32 bits. *)
Definition to_integer (d : decimal) : result db_error Z :=
  let v := round_scaled 0 d in
  if negb (0 <=? dec_e d) && negb (dec_m d mod 10 ^ (- dec_e d) =? 0)
  then Err (invalid_text_representation "type integer")
  else if (- 2 ^ 31 <=? v) && (v <? 2 ^ 31) then Ok v
  else Err (numeric_value_out_of_range "integer").

Definition to_lead_status (s : string) : result db_error lead_status :=
  match lead_status_in s with
  | Some v => Ok v
  | None => Err (invalid_text_representation "enum lead_status")
  end.

Definition to_lead_source (s : string) : result db_error lead_source :=
  match lead_source_in s with
  | Some v => Ok v
  | None => Err (invalid_text_representation "enum lead_source")
  end.

(** The stored value of a column after a statement: [dflt] when the
    statement does not name it, NULL, or the value given, converted. *)
Definition column {A B} (c : col A) (dflt : option B)
    (conv : A -> result db_error B) : result db_error (option B) :=
  match c with
  | Default => Ok dflt
  | Null => Ok None
  | Val a => try v := conv a in Ok (Some v)
  end.

(** The row a statement asks for. For INSERT [old] is the row of column
    defaults and [text] is NULL everywhere (the NOT NULL columns have no
    default), for UPDATE [old] is the stored row and [text] keeps it. *)
Definition requested_row (old : buyer_lead) (text : string -> option string)
    (r : lead_row_in)
    : result db_error (option string * option string * option string * buyer_lead) :=
  try created_by := column (in_created_by r) (bl_created_by old) Ok in
  try assigned_to := column (in_assigned_to r) (bl_assigned_to old) Ok in
  try first_name := column (in_first_name r) (text (bl_first_name old)) Ok in
  try last_name := column (in_last_name r) (text (bl_last_name old)) Ok in
  try email := column (in_email r) (text (bl_email old)) Ok in
  try phone := column (in_phone r) (bl_phone old) Ok in
  try budget_min := column (in_budget_min r) (bl_budget_min old) (to_numeric 12 2 "numeric") in
  try budget_max := column (in_budget_max r) (bl_budget_max old) (to_numeric 12 2 "numeric") in
  try preferred_areas := column (in_preferred_areas r) (bl_preferred_areas old) Ok in
  try property_type := column (in_property_type r) (bl_property_type old) Ok in
  try bedrooms := column (in_bedrooms r) (bl_bedrooms old) to_integer in
  try bathrooms := column (in_bathrooms r) (bl_bathrooms old) (to_numeric 3 1 "numeric") in
  try status := column (in_status r) (bl_status old) to_lead_status in
  try source := column (in_source r) (bl_source old) to_lead_source in
  try priority := column (in_priority r) (bl_priority old) to_integer in
  try notes := column (in_notes r) (bl_notes old) Ok in
  try last_contacted := column (in_last_contacted r) (bl_last_contacted old) Ok in
  try next_follow_up := column (in_next_follow_up r) (bl_next_follow_up old) Ok in
  Ok (first_name, last_name, email,
      {| bl_id := bl_id old;
         bl_created_by := created_by;
         bl_assigned_to := assigned_to;
         bl_first_name := default "" first_name;
         bl_last_name := default "" last_name;
         bl_email := default "" email;
         bl_phone := phone;
         bl_budget_min := budget_min;
         bl_budget_max := budget_max;
         bl_preferred_areas := preferred_areas;
         bl_property_type := property_type;
         bl_bedrooms := bedrooms;
         bl_bathrooms := bathrooms;
         bl_status := status;
         bl_source := source;
         bl_priority := priority;
         bl_notes := notes;
         bl_last_contacted := last_contacted;
         bl_next_follow_up := next_follow_up;
         bl_created_at := bl_created_at old;
         bl_updated_at := bl_updated_at old |}).

(** NOT NULL on [first_name], [last_name], [email] and
    [CHECK (priority >= 1 AND priority <= 5)]. *)
Definition priority_check (bl : buyer_lead) : Sql.tv :=
  Sql.and (Sql.cmp Z.geb (bl_priority bl) (Some 1))
          (Sql.cmp Z.leb (bl_priority bl) (Some 5)).

Definition check_constraints
    (names : option string * option string * option string) (bl : buyer_lead)
    : result db_error unit :=
  let '(first_name, last_name, email) := names in
  try _ := guard (bool_decide (is_Some first_name)) (not_null_violation "first_name") in
  try _ := guard (bool_decide (is_Some last_name)) (not_null_violation "last_name") in
  try _ := guard (bool_decide (is_Some email)) (not_null_violation "email") in
  guard (Sql.check_passes (priority_check bl))
        (check_violation "buyer_leads_priority_check").

(** The column defaults of [buyer_leads]. *)
Definition default_lead (db : database) : buyer_lead :=
  {| bl_id := db_next_id db;
     bl_created_by := None;
     bl_assigned_to := None;
     bl_first_name := "";
     bl_last_name := "";
     bl_email := "";
     bl_phone := None;
     bl_budget_min := None;
     bl_budget_max := None;
     bl_preferred_areas := None;
     bl_property_type := None;
     bl_bedrooms := None;
     bl_bathrooms := None;
     bl_status := Some new;
     bl_source := Some website;
     bl_priority := Some 3;
     bl_notes := None;
     bl_last_contacted := None;
     bl_next_follow_up := None;
     bl_created_at := Some (db_now db);
     bl_updated_at := Some (db_now db) |}.

Definition with_leads (db : database) (ls : list buyer_lead) : database :=
  {| profiles := profiles db;
     buyer_leads := ls;
     lead_activities := lead_activities db;
     db_now := db_now db;
     db_next_id := db_next_id db |}.

(** The store with one more lead, and the next identifier drawn. *)
Definition with_new_lead (db : database) (row : buyer_lead) : database :=
  {| profiles := profiles db;
     buyer_leads := buyer_leads db ++ [row];
     lead_activities := lead_activities db;
     db_now := db_now db;
     db_next_id := N.succ (db_next_id db) |}.

(** [INSERT INTO buyer_leads], without RETURNING (the client asks for no
    representation back, so no SELECT policy is involved). *)
Definition db_insert_lead (db : database) (uid : option uuid) (r : lead_row_in)
    : result db_error database :=
  try req := requested_row (default_lead db) (fun _ => None) r in
  let '(names, row) := req in
  try _ := guard (lead_insert_allowed db uid row)
                 (row_security_violation "buyer_leads") in
  try _ := check_constraints names row in
  Ok (with_new_lead db row).

(** The BEFORE UPDATE trigger [update_updated_at_column]. *)
Definition update_updated_at_column (db : database) (bl : buyer_lead) : buyer_lead :=
  {| bl_id := bl_id bl;
     bl_created_by := bl_created_by bl;
     bl_assigned_to := bl_assigned_to bl;
     bl_first_name := bl_first_name bl;
     bl_last_name := bl_last_name bl;
     bl_email := bl_email bl;
     bl_phone := bl_phone bl;
     bl_budget_min := bl_budget_min bl;
     bl_budget_max := bl_budget_max bl;
     bl_preferred_areas := bl_preferred_areas bl;
     bl_property_type := bl_property_type bl;
     bl_bedrooms := bl_bedrooms bl;
     bl_bathrooms := bl_bathrooms bl;
     bl_status := bl_status bl;
     bl_source := bl_source bl;
     bl_priority := bl_priority bl;
     bl_notes := bl_notes bl;
     bl_last_contacted := bl_last_contacted bl;
     bl_next_follow_up := bl_next_follow_up bl;
     bl_created_at := bl_created_at bl;
     bl_updated_at := Some (db_now db) |}.

(** One row of [UPDATE buyer_leads SET ... WHERE id = $id]: the rows the
    statement reaches are those with that id which the SELECT policies
    (for the WHERE clause) and the UPDATE policies let through; the others
    stay as they are. *)
Definition reaches (db : database) (uid : option uuid) (id : uuid)
    (bl : buyer_lead) : bool :=
  N.eqb (bl_id bl) id && lead_read_allowed db uid bl
  && lead_update_allowed db uid bl.

Definition update_row (db : database) (uid : option uuid) (id : uuid)
    (r : lead_row_in) (bl : buyer_lead) : result db_error buyer_lead :=
  if reaches db uid id bl
  then
    try req := requested_row bl Some r in
    let '(names, row) := req in
    let row := update_updated_at_column db row in
    try _ := guard (check_allows buyer_leads_policies UPDATE db uid row)
                   (row_security_violation "buyer_leads") in
    try _ := check_constraints names row in
    Ok row
  else Ok bl.

Fixpoint map_result {E A B} (f : A -> result E B) (l : list A) : result E (list B) :=
  match l with
  | [] => Ok []
  | a :: l' =>
      try b := f a in
      try bs := map_result f l' in
      Ok (b :: bs)
  end.

Definition db_update_lead (db : database) (uid : option uuid) (id : uuid)
    (r : lead_row_in) : result db_error database :=
  try rows := map_result (update_row db uid id r) (buyer_leads db) in
  Ok (with_leads db rows).

(** [DELETE FROM buyer_leads WHERE id = $id]; the activities of a deleted
    lead go with it (ON DELETE CASCADE). *)
Definition db_delete_lead (db : database) (uid : option uuid) (id : uuid) : database :=
  let gone bl :=
    N.eqb (bl_id bl) id && lead_read_allowed db uid bl
    && lead_delete_allowed db uid bl in
  {| profiles := profiles db;
     buyer_leads := List.filter (fun bl => negb (gone bl)) (buyer_leads db);
     lead_activities :=
       List.filter (fun la =>
           negb (existsb (fun bl => gone bl && N.eqb (bl_id bl) (la_lead_id la))
                         (buyer_leads db)))
         (lead_activities db);
     db_now := db_now db;
     db_next_id := db_next_id db |}.

(** The histories of the store: it starts with no lead, and every step is
    an insert, an update or a delete of leads that the store accepted, or
    anything that leaves [buyer_leads] alone (the clock, the other tables). *)
Inductive step : database -> database -> Prop :=
| step_insert db uid r db' :
    db_insert_lead db uid r = Ok db' -> step db db'
| step_update db uid id r db' :
    db_update_lead db uid id r = Ok db' -> step db db'
| step_delete db uid id :
    step db (db_delete_lead db uid id)
| step_elsewhere db db' :
    buyer_leads db' = buyer_leads db -> step db db'.

Inductive reachable : database -> Prop :=
| reachable_init db : buyer_leads db = [] -> reachable db
| reachable_step db db' : reachable db -> step db db' -> reachable db'.

(** ** JavaScript text *)

Definition LF : ascii := "010"%char.
Definition DQUOTE : ascii := "034"%char.
Definition COMMA : ascii := ","%char.
Definition SEMICOLON : ascii := ";"%char.

(** White space and line terminators: what [trim] strips and [\s] matches. *)
Definition is_white_space (c : ascii) : bool :=
  let n := nat_of_ascii c in
  ((9 <=? n) && (n <=? 13) || (n =? 32))%nat.

Fixpoint trimStart (s : string) : string :=
  match s with
  | EmptyString => EmptyString
  | String c s' => if is_white_space c then trimStart s' else s
  end.

Fixpoint trimEnd (s : string) : string :=
  match s with
  | EmptyString => EmptyString
  | String c s' =>
      match trimEnd s' with
      | EmptyString => if is_white_space c then EmptyString else String c EmptyString
      | t => String c t
      end
  end.

Definition trim (s : string) : string := trimEnd (trimStart s).

(** Truthiness of a string: every string but the empty one. *)
Definition truthy (s : string) : bool :=
  match s with EmptyString => false | _ => true end.

(** [s.split(sep)] for a one-character separator. *)
Fixpoint split (sep : ascii) (s : string) : list string :=
  match s with
  | EmptyString => [EmptyString]
  | String c s' =>
      if Ascii.eqb c sep then EmptyString :: split sep s'
      else
        match split sep s' with
        | x :: xs => String c x :: xs
        | [] => [String c EmptyString]
        end
  end.

(** [l.join(sep)] *)
Fixpoint join (sep : string) (l : list string) : string :=
  match l with
  | [] => EmptyString
  | [x] => x
  | x :: xs => x +:+ sep +:+ join sep xs
  end.

(** [s.includes(c)] for a one-character [c]. *)
Fixpoint includes_char (c : ascii) (s : string) : bool :=
  match s with
  | EmptyString => false
  | String c' s' => Ascii.eqb c' c || includes_char c s'
  end.

(** [l.includes(x)] on an array of strings. *)
Definition includes (l : list string) (x : string) : bool :=
  existsb (String.eqb x) l.

Definition lower (c : ascii) : ascii :=
  let n := nat_of_ascii c in
  if ((65 <=? n) && (n <=? 90))%nat then ascii_of_nat (n + 32) else c.

Fixpoint toLowerCase (s : string) : string :=
  match s with
  | EmptyString => EmptyString
  | String c s' => String (lower c) (toLowerCase s')
  end.

(** [s.replace(/\s+/g, '_')]: [in_run] says that the character before was
    white space, whose run has got its underscore already. *)
Fixpoint replace_spaces (in_run : bool) (s : string) : string :=
  match s with
  | EmptyString => EmptyString
  | String c s' =>
      if is_white_space c then
        if in_run then replace_spaces true s'
        else String "_"%char (replace_spaces true s')
      else String c (replace_spaces false s')
  end.

(** ** JavaScript numbers *)

Inductive number := NaN | Infinity (negative : bool) | Finite (d : decimal).

Definition decimal_value_at_least (d : decimal) (bound : Z) : bool :=
  if 0 <=? dec_e d then bound <=? Z.abs (dec_m d) * 10 ^ dec_e d
  else bound * 10 ^ (- dec_e d) <=? Z.abs (dec_m d).

(** From this magnitude on, a numeral rounds to Infinity. *)
Definition double_overflow : Z := 2 ^ 1024 - 2 ^ 970.

Definition to_number (negative : bool) (m e : Z) : number :=
  let d := {| dec_m := if negative then - m else m; dec_e := e |} in
  if decimal_value_at_least d double_overflow then Infinity negative
  else Finite d.

Definition digit (radix : Z) (c : ascii) : option Z :=
  let n := Z.of_nat (nat_of_ascii c) in
  let v := if (48 <=? n) && (n <=? 57) then Some (n - 48)
           else if (97 <=? n) && (n <=? 122) then Some (n - 87)
           else if (65 <=? n) && (n <=? 90) then Some (n - 55)
           else None in
  match v with
  | Some k => if k <? radix then Some k else None
  | None => None
  end.

(** The longest run of digits at the start of [s]: its value on top of
    [acc], the number of digits read on top of [count], and what is left. *)
Fixpoint digits (radix : Z) (s : string) (acc count : Z) : Z * Z * string :=
  match s with
  | EmptyString => (acc, count, s)
  | String c s' =>
      match digit radix c with
      | Some k => digits radix s' (acc * radix + k) (count + 1)
      | None => (acc, count, s)
      end
  end.

Definition sign (s : string) : bool * string :=
  match s with
  | String c s' =>
      if Ascii.eqb c "-" then (true, s')
      else if Ascii.eqb c "+" then (false, s')
      else (false, s)
  | EmptyString => (false, s)
  end.

(** The exponent part [e], [e+] or [e-] and digits, when there is one. *)
Definition exponent (s : string) : Z :=
  match s with
  | String c s' =>
      if Ascii.eqb c "e" || Ascii.eqb c "E" then
        let '(negative, s'') := sign s' in
        let '(x, count, _) := digits 10 s'' 0 0 in
        if count =? 0 then 0 else if negative then - x else x
      else 0
  | EmptyString => 0
  end.

(** The decimal literal at the start of [s1], the sign being read: digits,
    a point and digits, an exponent; NaN when there is no digit. *)
Definition decimal_literal (negative : bool) (s1 : string) : number :=
  let '(int, int_count, s2) := digits 10 s1 0 0 in
  let '(m, frac_count, s3) :=
    match s2 with
    | String "." s2' =>
        let '(m, count, s3) := digits 10 s2' int 0 in (m, count, s3)
    | _ => (int, 0, s2)
    end in
  if int_count + frac_count =? 0 then NaN
  else to_number negative m (exponent s3 - frac_count).

(** [parseFloat(s)]: the longest prefix of the trimmed text that is a
    decimal literal, NaN when there is none. *)
Definition parseFloat (s : string) : number :=
  let '(negative, s1) := sign (trimStart s) in
  if String.prefix "Infinity" s1 then Infinity negative
  else decimal_literal negative s1.

(** The radix of [parseInt(s)] with no radix given: 16 after [0x] or
    [0X], which is dropped, 10 otherwise. *)
Definition radix_prefix (s1 : string) : Z * string :=
  match s1 with
  | String c0 (String c1 s') =>
      if Ascii.eqb c0 "0" && (Ascii.eqb c1 "x" || Ascii.eqb c1 "X")
      then (16, s')
      else (10, s1)
  | _ => (10, s1)
  end.

(** The digits at the start of [s2], NaN when there is none. *)
Definition integer_literal (negative : bool) (radix : Z) (s2 : string) : number :=
  let '(m, count, _) := digits radix s2 0 0 in
  if count =? 0 then NaN else to_number negative m 0.

Definition parseInt (s : string) : number :=
  let '(negative, s1) := sign (trimStart s) in
  let '(radix, s2) := radix_prefix s1 in
  integer_literal negative radix s2.

(** [JSON.stringify] writes NaN and the infinities as [null]. *)
Definition json_number (n : number) : col decimal :=
  match n with
  | Finite d => Val d
  | _ => Null
  end.

(** ** CSV import ([src/pages/ImportExport.tsx], [src/lib/validations.ts]) *)

Fixpoint parseCsvLine_from (line : string) (result : list string)
    (current : string) (inQuotes : bool) : list string :=
  match line with
  | EmptyString => result ++ [trim current]
  | String char rest =>
      if Ascii.eqb char DQUOTE then
        parseCsvLine_from rest result current (negb inQuotes)
      else if Ascii.eqb char COMMA && negb inQuotes then
        parseCsvLine_from rest (result ++ [trim current]) EmptyString inQuotes
      else
        parseCsvLine_from rest result (current +:+ String char EmptyString) inQuotes
  end.

Definition parseCsvLine (line : string) : list string :=
  parseCsvLine_from line [] EmptyString false.

(** [rowData[header] = value] on the object [rowData], made by [{}] and
    kept as the map of its own properties: the assignment makes or
    replaces the property, but for the name [__proto__], which goes to
    the setter of [Object.prototype] and, the value being a string,
    leaves the object as it is. *)
Definition assign (header value : string) (rowData : gmap string string)
    : gmap string string :=
  if String.eqb header "__proto__" then rowData else <[header := value]> rowData.

(** [headers.forEach((header, index) => { if (values[index])
    rowData[header] = values[index] })], from position [index] on. *)
Fixpoint forEach_header (headers : list string) (index : nat)
    (values : list string) (rowData : gmap string string) : gmap string string :=
  match headers with
  | [] => rowData
  | header :: headers' =>
      forEach_header headers' (S index) values
        match values !! index with
        | Some v => if truthy v then assign header v rowData else rowData
        | None => rowData
        end
  end.

Record CSVImportData := {
  first_name : string;
  last_name : string;
  email : string;
  phone : option string;
  budget_min : option string;
  budget_max : option string;
  preferred_areas : option string;
  property_type : option string;
  bedrooms : option string;
  bathrooms : option string;
  status : option string;
  source : option string;
  priority : option string;
  notes : option string
}.

Record zod_issue := { path : string; code : string }.

(** What a row can throw: the schema's error with its issues, or the
    error the store answered the insert with. *)
Inductive thrown := ZodError (issues : list zod_issue) | PostgrestError (e : db_error).

Record import_error := { row : nat; error : thrown }.

Record ImportResult := {
  success : nat;
  errors : list import_error;
  total : nat
}.

(** The end of [handleFileImport]: the outer [catch] with its message, or
    [setImportResult]. *)
Inductive import_outcome :=
| import_failed (message : string)
| import_completed (r : ImportResult).

Definition requiredFields : list string := ["first_name"; "last_name"; "email"].

(** [x || null] on an optional string *)
Definition or_null (x : option string) : col string :=
  match x with
  | Some s => if truthy s then Val s else Null
  | None => Null
  end.

(** [x ? f(x) : dflt] on an optional string *)
Definition if_truthy {A} (x : option string) (f : string -> A) (dflt : A) : A :=
  match x with
  | Some s => if truthy s then f s else dflt
  | None => dflt
  end.

Section CsvImport.

(** [z.string().email()]: the check of the validation library. *)
Variable is_email : string -> bool.

Definition z_string_min_1 (key : string) (v : option string) : list zod_issue :=
  match v with
  | None => [ {| path := key; code := "invalid_type" |} ]
  | Some s =>
      if (String.length s <? 1)%nat then [ {| path := key; code := "too_small" |} ]
      else []
  end.

Definition z_string_email (key : string) (v : option string) : list zod_issue :=
  match v with
  | None => [ {| path := key; code := "invalid_type" |} ]
  | Some s =>
      if is_email s then [] else [ {| path := key; code := "invalid_string" |} ]
  end.

(** [csvImportSchema.parse(rowData)]: the keys of the schema are read,
    the others dropped; the optional ones accept any string. *)
Definition csvImportSchema_parse (rowData : gmap string string)
    : result thrown CSVImportData :=
  let issues :=
    (z_string_min_1 "first_name" (rowData !! "first_name")
     ++ z_string_min_1 "last_name" (rowData !! "last_name")
     ++ z_string_email "email" (rowData !! "email"))%list in
  match issues with
  | [] =>
      Ok {| first_name := default "" (rowData !! "first_name");
            last_name := default "" (rowData !! "last_name");
            email := default "" (rowData !! "email");
            phone := rowData !! "phone";
            budget_min := rowData !! "budget_min";
            budget_max := rowData !! "budget_max";
            preferred_areas := rowData !! "preferred_areas";
            property_type := rowData !! "property_type";
            bedrooms := rowData !! "bedrooms";
            bathrooms := rowData !! "bathrooms";
            status := rowData !! "status";
            source := rowData !! "source";
            priority := rowData !! "priority";
            notes := rowData !! "notes" |}
  | _ => Err (ZodError issues)
  end.

(** The object [leadData] as it is sent: the columns it does not name
    are left to the store. *)
Definition leadData (validatedData : CSVImportData) (user : uuid) : lead_row_in :=
  {| in_first_name := Val (first_name validatedData);
     in_last_name := Val (last_name validatedData);
     in_email := Val (email validatedData);
     in_phone := or_null (phone validatedData);
     in_budget_min :=
       if_truthy (budget_min validatedData) (fun s => json_number (parseFloat s)) Null;
     in_budget_max :=
       if_truthy (budget_max validatedData) (fun s => json_number (parseFloat s)) Null;
     in_preferred_areas :=
       if_truthy (preferred_areas validatedData)
         (fun s => Val (map trim (split SEMICOLON s))) (Val []);
     in_property_type := or_null (property_type validatedData);
     in_bedrooms :=
       if_truthy (bedrooms validatedData) (fun s => json_number (parseInt s)) Null;
     in_bathrooms :=
       if_truthy (bathrooms validatedData) (fun s => json_number (parseFloat s)) Null;
     in_status := if_truthy (status validatedData) Val (Val "new");
     in_source := if_truthy (source validatedData) Val (Val "other");
     in_priority :=
       if_truthy (priority validatedData) (fun s => json_number (parseInt s))
         (Val {| dec_m := 3; dec_e := 0 |});
     in_notes := or_null (notes validatedData);
     in_created_by := Val user;
     in_assigned_to := Default;
     in_last_contacted := Default;
     in_next_follow_up := Default |}.

Definition rowData_of (headers values : list string) : gmap string string :=
  forEach_header headers 0 values ∅.

(** The body of the inner [try] once the line is split into [values]:
    the row object, its validation, the insert. *)
Definition import_values (db : database) (user : uuid) (headers values : list string)
    : result thrown database :=
  try validatedData := csvImportSchema_parse (rowData_of headers values) in
  match db_insert_lead db (Some user) (leadData validatedData user) with
  | Ok db' => Ok db'
  | Err e => Err (PostgrestError e)
  end.

(** The body of the inner [try]: one data line. *)
Definition import_row (db : database) (user : uuid) (headers : list string)
    (line : string) : result thrown database :=
  import_values db user headers (parseCsvLine line).

(** The [for] loop from index [i] on. *)
Fixpoint import_loop (user : uuid) (headers : list string)
    (dataLines : list string) (i : nat)
    (db : database) (successCount : nat) (errors : list import_error)
    : database * nat * list import_error :=
  match dataLines with
  | [] => (db, successCount, errors)
  | line :: rest =>
      if negb (truthy (trim line)) then
        import_loop user headers rest (S i) db successCount errors
      else
        match import_row db user headers line with
        | Ok db' => import_loop user headers rest (S i) db' (S successCount) errors
        | Err e =>
            import_loop user headers rest (S i) db successCount
              (errors ++ [ {| row := i + 2; error := e |} ])
        end
  end.

Definition non_blank_lines (text : string) : list string :=
  List.filter (fun line => truthy (trim line)) (split LF text).

Definition normalize_header (h : string) : string :=
  replace_spaces false (toLowerCase h).

Definition headers_of (lines : list string) : list string :=
  map normalize_header (parseCsvLine (nth 0%nat lines EmptyString)).

Definition missingFields (headers : list string) : list string :=
  List.filter (fun field => negb (includes headers field)) requiredFields.

Definition handleFileImport (db : database) (user : uuid) (text : string)
    : import_outcome * database :=
  let lines := non_blank_lines text in
  if (length lines <? 2)%nat then
    (import_failed "CSV file must contain at least a header row and one data row", db)
  else
    let headers := headers_of lines in
    let dataLines := skipn 1 lines in
    if (0 <? length (missingFields headers))%nat then
      (import_failed ("Missing required columns: " +:+ join ", " (missingFields headers)), db)
    else
      let '(db', successCount, errors) :=
        import_loop user headers dataLines 0 db 0%nat [] in
      (import_completed {| success := successCount;
                           errors := errors;
                           total := length dataLines |}, db').

End CsvImport.

(** ** CSV export ([handleExport]) *)

Definition digit_char (k : Z) : ascii := ascii_of_nat (48 + Z.to_nat k).

(** The decimal digits of [n >= 0] in front of [tail]; [fuel] bounds the
    number of digits. *)
Fixpoint digits_before (fuel : nat) (n : Z) (tail : string) : string :=
  match fuel with
  | O => tail
  | S fuel' =>
      let tail' := String (digit_char (n mod 10)) tail in
      if n <? 10 then tail' else digits_before fuel' (n / 10) tail'
  end.

Definition natural_to_string (n : Z) : string :=
  digits_before (S (Z.to_nat (Z.log2 n))) n EmptyString.

(** Exactly [count] digits of [n], zeros in front, before [tail]. *)
Fixpoint fixed_digits (count : nat) (n : Z) (tail : string) : string :=
  match count with
  | O => tail
  | S count' => fixed_digits count' (n / 10) (String (digit_char (n mod 10)) tail)
  end.

(** The text of the number [v / 10 ^ scale] for [v >= 0]: no digit after
    the point is written beyond the last one that is not zero. *)
Fixpoint fraction_to_string (scale : nat) (v : Z) : string :=
  match scale with
  | O => natural_to_string v
  | S scale' =>
      if v mod 10 =? 0 then fraction_to_string scale' (v / 10)
      else natural_to_string (v / 10 ^ Z.of_nat scale)
           +:+ String "." (fixed_digits scale (v mod 10 ^ Z.of_nat scale) EmptyString)
  end.

(** A value of a field of a row as the client holds it. A number of a
    DECIMAL(p,s) column is [v / 10 ^ s], of an INTEGER column [v / 10 ^ 0]. *)
Inductive js_value :=
| js_null
| js_string (s : string)
| js_number (scale : nat) (v : Z)
| js_array (l : list string).

(** [String(v)], as [Array.prototype.join] applies it to an element. *)
Definition js_to_string (v : js_value) : string :=
  match v with
  | js_null => EmptyString
  | js_string s => s
  | js_number scale v =>
      if v <? 0 then String "-" (fraction_to_string scale (- v))
      else fraction_to_string scale v
  | js_array l => join "," l
  end.

Definition nullable {A} (f : A -> js_value) (o : option A) : js_value :=
  match o with
  | Some a => f a
  | None => js_null
  end.

(** [lead[header]] for the headers of the export. *)
Definition lead_get (lead : buyer_lead) (header : string) : js_value :=
  if String.eqb header "first_name" then js_string (bl_first_name lead)
  else if String.eqb header "last_name" then js_string (bl_last_name lead)
  else if String.eqb header "email" then js_string (bl_email lead)
  else if String.eqb header "phone" then nullable js_string (bl_phone lead)
  else if String.eqb header "budget_min" then nullable (js_number 2) (bl_budget_min lead)
  else if String.eqb header "budget_max" then nullable (js_number 2) (bl_budget_max lead)
  else if String.eqb header "preferred_areas" then nullable js_array (bl_preferred_areas lead)
  else if String.eqb header "property_type" then nullable js_string (bl_property_type lead)
  else if String.eqb header "bedrooms" then nullable (js_number 0) (bl_bedrooms lead)
  else if String.eqb header "bathrooms" then nullable (js_number 1) (bl_bathrooms lead)
  else if String.eqb header "status" then
    nullable (fun v => js_string (lead_status_label v)) (bl_status lead)
  else if String.eqb header "source" then
    nullable (fun v => js_string (lead_source_label v)) (bl_source lead)
  else if String.eqb header "priority" then nullable (js_number 0) (bl_priority lead)
  else if String.eqb header "notes" then nullable js_string (bl_notes lead)
  else if String.eqb header "created_at" then nullable js_string (bl_created_at lead)
  else js_null.

Definition export_headers : list string := [
  "first_name"; "last_name"; "email"; "phone"; "budget_min"; "budget_max";
  "preferred_areas"; "property_type"; "bedrooms"; "bathrooms"; "status";
  "source"; "priority"; "notes"; "created_at"
].

(** The value a cell gets: the three special cases, in the order of the
    source. *)
Definition export_cell (header : string) (value : js_value) : js_value :=
  match value with
  | js_array l =>
      if String.eqb header "preferred_areas" then js_string (join ";" l) else value
  | js_null => js_string EmptyString
  | js_string s =>
      if includes_char COMMA s
      then js_string (String DQUOTE s +:+ String DQUOTE EmptyString)
      else value
  | js_number _ _ => value
  end.

Definition export_line (lead : buyer_lead) : string :=
  join "," (map (fun header => js_to_string (export_cell header (lead_get lead header)))
                export_headers).

Definition csvContent (leads : list buyer_lead) : string :=
  join (String LF EmptyString) (join "," export_headers :: map export_line leads).

(** [ORDER BY created_at DESC]: later first, NULL before all. *)
Definition created_not_before (a b : buyer_lead) : bool :=
  match bl_created_at a, bl_created_at b with
  | None, _ => true
  | Some _, None => false
  | Some x, Some y => String.leb y x
  end.

Fixpoint insert_by_created_at (x : buyer_lead) (l : list buyer_lead) : list buyer_lead :=
  match l with
  | [] => [x]
  | y :: l' =>
      if created_not_before x y then x :: l else y :: insert_by_created_at x l'
  end.

Definition order_by_created_at_desc (l : list buyer_lead) : list buyer_lead :=
  fold_right insert_by_created_at [] l.

(** [supabase.from('buyer_leads').select('*').order('created_at', ...)] *)
Definition select_leads (db : database) (user : uuid) : list buyer_lead :=
  order_by_created_at_desc (visible_leads db (Some user)).

(** The end of [handleExport]: the [catch] with its message, the early
    return after the "No Data" notice, or the download of the file. *)
Inductive export_outcome :=
| export_failed (message : string)
| export_no_data
| export_downloaded (content : string).

(** The notice of [toast({ title, description, variant })]; without a
    [variant] the notice has the plain style. *)
Inductive toast_variant := plain | destructive.

Record toast := {
  toast_title : string;
  toast_description : string;
  toast_variant_of : toast_variant
}.

(** [{ data: leads, error }], the answer of the client to the query. *)
Record select_answer := {
  answer_data : option (list buyer_lead);
  answer_error : option string
}.

(** [handleExport] from the answer on: [if (error) throw error] goes to
    the [catch], whose notice shows [error.message || "Failed to export
    leads"]; no rows, or an empty list of rows, give the "No Data" notice
    and the early return; otherwise the file is written and the notice
    of success shown. *)
Definition no_data_toast : toast :=
  {| toast_title := "No Data";
     toast_description := "No leads found to export.";
     toast_variant_of := destructive |}.

Definition handleExport_from (answer : select_answer) : export_outcome * toast :=
  match answer_error answer with
  | Some message =>
      let shown := if truthy message then message else "Failed to export leads" in
      (export_failed shown,
       {| toast_title := "Export Error";
          toast_description := shown;
          toast_variant_of := destructive |})
  | None =>
      match answer_data answer with
      | Some leads =>
          if (length leads =? 0)%nat
          then (export_no_data, no_data_toast)
          else (export_downloaded (csvContent leads),
                {| toast_title := "Export Successful!";
                   toast_description :=
                     "Exported " +:+ natural_to_string (Z.of_nat (length leads))
                     +:+ " leads to CSV file.";
                   toast_variant_of := plain |})
      | None => (export_no_data, no_data_toast)
      end
  end.

(** The store answers the query with the rows the caller may read, and
    with no error: a caller who may read none gets the empty list. *)
Definition answer_of_store (db : database) (user : uuid) : select_answer :=
  {| answer_data := Some (select_leads db user); answer_error := None |}.

Definition handleExport (db : database) (user : uuid) : export_outcome :=
  fst (handleExport_from (answer_of_store db user)).

(** The caller is the one recorded in a column of the row. *)
Definition is_caller (uid : option uuid) (column : option uuid) : Prop :=
  exists u, uid = Some u /\ column = Some u.

(** ** Example data *)

(** A store with an admin (1), two agents (2, 3) and a viewer (4). *)
Definition example_profiles : list profile := [
  {| pr_user_id := 1%N; pr_full_name := Some "Ada"; pr_role := Some admin |};
  {| pr_user_id := 2%N; pr_full_name := Some "Bob"; pr_role := Some agent |};
  {| pr_user_id := 3%N; pr_full_name := Some "Cyd"; pr_role := Some agent |};
  {| pr_user_id := 4%N; pr_full_name := Some "Dee"; pr_role := Some viewer |}
].

Definition empty_store : database :=
  {| profiles := example_profiles;
     buyer_leads := [];
     lead_activities := [];
     db_now := "2025-09-15T11:15:53+00:00";
     db_next_id := 100%N |}.

(** A lead created by agent 2 and assigned to viewer 4. *)
Definition example_lead : buyer_lead :=
  {| bl_id := 10%N;
     bl_created_by := Some 2%N;
     bl_assigned_to := Some 4%N;
     bl_first_name := "John";
     bl_last_name := "Doe";
     bl_email := "john@x.com";
     bl_phone := None;
     bl_budget_min := None;
     bl_budget_max := None;
     bl_preferred_areas := Some [];
     bl_property_type := None;
     bl_bedrooms := None;
     bl_bathrooms := None;
     bl_status := Some new;
     bl_source := Some website;
     bl_priority := Some 3;
     bl_notes := None;
     bl_last_contacted := None;
     bl_next_follow_up := None;
     bl_created_at := Some "2025-09-15T11:15:53+00:00";
     bl_updated_at := Some "2025-09-15T11:15:53+00:00" |}.

Definition example_activity : lead_activity :=
  {| la_id := 20%N;
     la_lead_id := 10%N;
     la_user_id := Some 2%N;
     la_activity_type := "created";
     la_description := "Lead created";
     la_created_at := Some "2025-09-15T11:15:53+00:00" |}.

Definition example_store : database :=
  {| profiles := example_profiles;
     buyer_leads := [example_lead];
     lead_activities := [example_activity];
     db_now := "2025-09-16T08:00:00+00:00";
     db_next_id := 100%N |}.

(** [SET notes = 'called'] *)
Definition set_notes_called : lead_row_in :=
  {| in_created_by := Default; in_assigned_to := Default;
     in_first_name := Default; in_last_name := Default; in_email := Default;
     in_phone := Default; in_budget_min := Default; in_budget_max := Default;
     in_preferred_areas := Default; in_property_type := Default;
     in_bedrooms := Default; in_bathrooms := Default;
     in_status := Default; in_source := Default; in_priority := Default;
     in_notes := Val "called"; in_last_contacted := Default;
     in_next_follow_up := Default |}.

(** ** The value sets of a lead *)

Definition priority_in_range (bl : buyer_lead) : Prop :=
  match bl_priority bl with
  | Some p => In p [1; 2; 3; 4; 5]
  | None => True
  end.

Definition status_listed (bl : buyer_lead) : Prop :=
  match bl_status bl with
  | Some s =>
      In (lead_status_label s)
         ["new"; "contacted"; "qualified"; "not_qualified"; "closed"]
  | None => True
  end.

Definition source_listed (bl : buyer_lead) : Prop :=
  match bl_source bl with
  | Some s =>
      In (lead_source_label s)
         ["website"; "referral"; "social_media"; "cold_call"; "email_campaign"; "other"]
  | None => True
  end.

Definition within_sets (bl : buyer_lead) : Prop :=
  priority_in_range bl /\ status_listed bl /\ source_listed bl.

(** A statement that gives [priority], [status] or [source] a value, not
    NULL, that is outside its set. *)
Definition outside_sets (r : lead_row_in) : Prop :=
  (exists d, in_priority r = Val d
             /\ forall v, to_integer d = Ok v -> ~ In v [1; 2; 3; 4; 5])
  \/ (exists s, in_status r = Val s
                /\ ~ In s ["new"; "contacted"; "qualified"; "not_qualified"; "closed"])
  \/ (exists s, in_source r = Val s
                /\ ~ In s ["website"; "referral"; "social_media"; "cold_call";
                           "email_campaign"; "other"]).

(** [INSERT ... (first_name, last_name, email, created_by, priority)
     VALUES ('Al', 'Ba', 'al@x.com', 2, NULL)] *)
Definition insert_null_priority : lead_row_in :=
  {| in_created_by := Val 2%N; in_assigned_to := Default;
     in_first_name := Val "Al"; in_last_name := Val "Ba"; in_email := Val "al@x.com";
     in_phone := Default; in_budget_min := Default; in_budget_max := Default;
     in_preferred_areas := Default; in_property_type := Default;
     in_bedrooms := Default; in_bathrooms := Default;
     in_status := Default; in_source := Default; in_priority := Null;
     in_notes := Default; in_last_contacted := Default;
     in_next_follow_up := Default |}.

(** [SET priority = 7] *)
Definition set_priority_7 : lead_row_in :=
  {| in_created_by := Default; in_assigned_to := Default;
     in_first_name := Default; in_last_name := Default; in_email := Default;
     in_phone := Default; in_budget_min := Default; in_budget_max := Default;
     in_preferred_areas := Default; in_property_type := Default;
     in_bedrooms := Default; in_bathrooms := Default;
     in_status := Default; in_source := Default;
     in_priority := Val {| dec_m := 7; dec_e := 0 |};
     in_notes := Default; in_last_contacted := Default;
     in_next_follow_up := Default |}.

(** The store after agent 2 has inserted [insert_null_priority] into the
    empty store. *)
Definition store_with_null_priority : database :=
  match db_insert_lead empty_store (Some 2%N) insert_null_priority with
  | Ok db' => db'
  | Err _ => empty_store
  end.

(** ** The course of an import, row by row

    [rows_attempted is_email user headers i dataLines db db' n errs]: the
    rows [dataLines], the first of which has index [i], are attempted one
    after the other from the store [db]; a row that goes through adds its
    lead and counts as a success, a row that fails adds the error with
    row number [i + 2] and nothing else, and in both cases the next row
    is attempted; [db'] is the store after the last row, [n] the number
    of successes and [errs] the errors in the order of the rows. *)
Inductive rows_attempted (is_email : string -> bool) (user : uuid)
    (headers : list string)
    : nat -> list string -> database -> database -> nat -> list import_error -> Prop :=
| attempted_none i db :
    rows_attempted is_email user headers i [] db db 0%nat []
| attempted_inserted i line rest db db1 db' n errs :
    import_row is_email db user headers line = Ok db1 ->
    rows_attempted is_email user headers (S i) rest db1 db' n errs ->
    rows_attempted is_email user headers i (line :: rest) db db' (S n) errs
| attempted_failed i line rest db db' e n errs :
    import_row is_email db user headers line = Err e ->
    rows_attempted is_email user headers (S i) rest db db' n errs ->
    rows_attempted is_email user headers i (line :: rest) db db' n
      ({| row := i + 2; error := e |} :: errs).

Definition line_break : string := String LF EmptyString.

(** A header and the two data rows [John,Doe,john@x.com] and
    [,Smith,jane@x.com]. *)
Definition two_rows_csv : string :=
  "first_name,last_name,email" +:+ line_break +:+
  "John,Doe,john@x.com" +:+ line_break +:+
  ",Smith,jane@x.com".

(** The same header and the second of those rows after an empty line. *)
Definition blank_line_csv : string :=
  "first_name,last_name,email" +:+ line_break +:+
  line_break +:+
  ",Smith,jane@x.com".

(** The header with [source] and [preferred_areas] after the required
    names, and a row whose cells under the two are empty. *)
Definition empty_cells_csv : string :=
  "first_name,last_name,email,source,preferred_areas" +:+ line_break +:+
  "John,Doe,john@x.com,,".

Definition one_row_csv : string :=
  "first_name,last_name,email" +:+ line_break +:+
  "John,Doe,john@x.com".

(** A check of e-mail addresses for the examples: an [@] with something
    on both sides. *)
Definition has_at_sign (s : string) : bool :=
  match split "@"%char s with
  | [a; b] => truthy a && truthy b
  | _ => false
  end.

Definition may_insert (db : database) (user : uuid) : Prop :=
  get_user_role db (Some user) = Some admin
  \/ get_user_role db (Some user) = Some agent.

(** ** The lead an imported row becomes *)

(** The value a column gets from a statement when its default is NULL. *)
Definition given {A} (c : col A) : option A :=
  match c with
  | Val a => Some a
  | _ => None
  end.

(** The row the store makes of [leadData validatedData user], once the
    numbers and the two enumeration literals are converted. *)
Definition imported_lead (db : database) (user : uuid) (validatedData : CSVImportData)
    (budget_min budget_max bedrooms bathrooms : option Z)
    (status : option lead_status) (source : option lead_source)
    (priority : option Z) : buyer_lead :=
  {| bl_id := db_next_id db;
     bl_created_by := Some user;
     bl_assigned_to := None;
     bl_first_name := first_name validatedData;
     bl_last_name := last_name validatedData;
     bl_email := email validatedData;
     bl_phone := given (in_phone (leadData validatedData user));
     bl_budget_min := budget_min;
     bl_budget_max := budget_max;
     bl_preferred_areas := given (in_preferred_areas (leadData validatedData user));
     bl_property_type := given (in_property_type (leadData validatedData user));
     bl_bedrooms := bedrooms;
     bl_bathrooms := bathrooms;
     bl_status := status;
     bl_source := source;
     bl_priority := priority;
     bl_notes := given (in_notes (leadData validatedData user));
     bl_last_contacted := None;
     bl_next_follow_up := None;
     bl_created_at := Some (db_now db);
     bl_updated_at := Some (db_now db) |}.

(** A header without [email]. *)
Definition no_email_csv : string :=
  "first_name,last_name" +:+ line_break +:+ "John,Doe".

(** What validation makes of the row [John,Doe,john@x.com]. *)
Definition john_doe : CSVImportData :=
  {| first_name := "John"; last_name := "Doe"; email := "john@x.com";
     phone := None; budget_min := None; budget_max := None;
     preferred_areas := None; property_type := None; bedrooms := None;
     bathrooms := None; status := None; source := None; priority := None;
     notes := None |}.

(** ** Leads that an export and an import give back *)

(** A text that a cell gives back: no double quote, no line feed, no
    white space at either end, not empty. *)
Definition required_text (s : string) : Prop :=
  includes_char DQUOTE s = false /\ includes_char LF s = false
  /\ trim s = s /\ s <> "".

Definition optional_text (o : option string) : Prop :=
  match o with
  | Some s => required_text s
  | None => True
  end.

(** A name of an area: as above, may be empty, and with no comma and no
    semicolon either. *)
Definition area_text (s : string) : Prop :=
  includes_char DQUOTE s = false /\ includes_char LF s = false
  /\ includes_char COMMA s = false /\ includes_char SEMICOLON s = false
  /\ trim s = s.

Definition optional_within (low high : Z) (o : option Z) : Prop :=
  match o with
  | Some v => low <= v < high
  | None => True
  end.

Record gives_back (is_email : string -> bool) (bl : buyer_lead) : Prop := {
  gb_first_name : required_text (bl_first_name bl);
  gb_last_name : required_text (bl_last_name bl);
  gb_email : required_text (bl_email bl);
  gb_is_email : is_email (bl_email bl) = true;
  gb_phone : optional_text (bl_phone bl);
  gb_budget_min : optional_within (- 10 ^ 12 + 1) (10 ^ 12) (bl_budget_min bl);
  gb_budget_max : optional_within (- 10 ^ 12 + 1) (10 ^ 12) (bl_budget_max bl);
  gb_preferred_areas :
    exists l, bl_preferred_areas bl = Some l /\ Forall area_text l /\ l <> [""];
  gb_property_type : optional_text (bl_property_type bl);
  gb_bedrooms : optional_within (- 2 ^ 31) (2 ^ 31) (bl_bedrooms bl);
  gb_bathrooms : optional_within (- 10 ^ 3 + 1) (10 ^ 3) (bl_bathrooms bl);
  gb_status : is_Some (bl_status bl);
  gb_source : is_Some (bl_source bl);
  gb_priority : exists p, bl_priority bl = Some p /\ 1 <= p <= 5;
  gb_notes : optional_text (bl_notes bl);
  gb_created_at :
    match bl_created_at bl with
    | Some s => includes_char LF s = false
    | None => True
    end
}.

(** The columns of the export, one by one. *)
Definition same_exported_fields (old new : buyer_lead) : Prop :=
  bl_first_name new = bl_first_name old
  /\ bl_last_name new = bl_last_name old
  /\ bl_email new = bl_email old
  /\ bl_phone new = bl_phone old
  /\ bl_budget_min new = bl_budget_min old
  /\ bl_budget_max new = bl_budget_max old
  /\ bl_preferred_areas new = bl_preferred_areas old
  /\ bl_property_type new = bl_property_type old
  /\ bl_bedrooms new = bl_bedrooms old
  /\ bl_bathrooms new = bl_bathrooms old
  /\ bl_status new = bl_status old
  /\ bl_source new = bl_source old
  /\ bl_priority new = bl_priority old
  /\ bl_notes new = bl_notes old.

(** A cell in quotes when it has a comma. *)
Definition quoted (s : string) : string :=
  if includes_char COMMA s then String DQUOTE s +:+ String DQUOTE EmptyString
  else s.

Definition optional_number (scale : nat) (o : option Z) : string :=
  match o with
  | Some v => js_to_string (js_number scale v)
  | None => EmptyString
  end.

(** The texts of the first fourteen cells of the line of a lead. *)
Definition cell_texts (lead : buyer_lead) : list string := [
  bl_first_name lead;
  bl_last_name lead;
  bl_email lead;
  default "" (bl_phone lead);
  optional_number 2 (bl_budget_min lead);
  optional_number 2 (bl_budget_max lead);
  join ";" (default [] (bl_preferred_areas lead));
  default "" (bl_property_type lead);
  optional_number 0 (bl_bedrooms lead);
  optional_number 1 (bl_bathrooms lead);
  default "" (lead_status_label <$> bl_status lead);
  default "" (lead_source_label <$> bl_source lead);
  optional_number 0 (bl_priority lead);
  default "" (bl_notes lead)
].

(** The digits, the minus sign and the point. *)
Definition numeric_char (c : ascii) : bool :=
  let n := nat_of_ascii c in
  ((48 <=? n) && (n <=? 57) || (n =? 45) || (n =? 46))%nat.

Fixpoint all_chars (p : ascii -> bool) (s : string) : bool :=
  match s with
  | EmptyString => true
  | String c s' => p c && all_chars p s'
  end.

Definition digit_headed (s : string) : Prop :=
  exists k rest, 0 <= k < 10 /\ s = String (digit_char k) rest.

Definition starts_clean (s : string) : bool :=
  match s with
  | String c _ => negb (is_white_space c)
  | EmptyString => true
  end.

Fixpoint ends_clean (s : string) : bool :=
  match s with
  | EmptyString => true
  | String c EmptyString => negb (is_white_space c)
  | String _ s' => ends_clean s'
  end.

(** ** The line of a lead in the export *)

(** [Some t] for a text that is not empty. *)
Definition nonempty (t : string) : option string :=
  if truthy t then Some t else None.

(** The cells, each in quotes when it has a comma and with a comma after
    it, before the last cell. *)
Definition line_of_cells (cells : list string) (last : string) : string :=
  fold_right (fun t rest => quoted t +:+ String COMMA rest) last cells.

(** The last cell of the line of a lead. *)
Definition created_at_cell (lead : buyer_lead) : string :=
  js_to_string (export_cell "created_at" (lead_get lead "created_at")).

(** What the schema makes of the line of a lead. *)
Definition validated_of (lead : buyer_lead) : CSVImportData :=
  {| first_name := bl_first_name lead;
     last_name := bl_last_name lead;
     email := bl_email lead;
     phone := nonempty (default "" (bl_phone lead));
     budget_min := nonempty (optional_number 2 (bl_budget_min lead));
     budget_max := nonempty (optional_number 2 (bl_budget_max lead));
     preferred_areas := nonempty (join ";" (default [] (bl_preferred_areas lead)));
     property_type := nonempty (default "" (bl_property_type lead));
     bedrooms := nonempty (optional_number 0 (bl_bedrooms lead));
     bathrooms := nonempty (optional_number 1 (bl_bathrooms lead));
     status := nonempty (default "" (lead_status_label <$> bl_status lead));
     source := nonempty (default "" (lead_source_label <$> bl_source lead));
     priority := nonempty (optional_number 0 (bl_priority lead));
     notes := nonempty (default "" (bl_notes lead)) |}.


(** A text that a cell gives back when it is read. *)
Definition cell_clean (t : string) : Prop :=
  includes_char DQUOTE t = false /\ includes_char LF t = false /\ trim t = t.

(** A lead with a comma in its name, amounts with decimals, two areas
    and a note with a comma. *)
Definition rich_lead : buyer_lead :=
  {| bl_id := 11%N;
     bl_created_by := Some 3%N;
     bl_assigned_to := Some 2%N;
     bl_first_name := "Ann";
     bl_last_name := "Lee, Jr.";
     bl_email := "ann.lee@x.com";
     bl_phone := Some "+1-555-0123";
     bl_budget_min := Some 30000050;
     bl_budget_max := Some 50000000;
     bl_preferred_areas := Some ["Downtown"; "Mid town"];
     bl_property_type := Some "Condo";
     bl_bedrooms := Some 3;
     bl_bathrooms := Some 25;
     bl_status := Some contacted;
     bl_source := Some referral;
     bl_priority := Some 4;
     bl_notes := Some "First-time buyer, prefers calls";
     bl_last_contacted := Some "2025-09-20T09:00:00+00:00";
     bl_next_follow_up := None;
     bl_created_at := Some "2025-09-16T10:30:00+00:00";
     bl_updated_at := Some "2025-09-20T09:00:00+00:00" |}.

Definition two_leads_store : database :=
  {| profiles := example_profiles;
     buyer_leads := [example_lead; rich_lead];
     lead_activities := [];
     db_now := "2025-10-01T08:00:00+00:00";
     db_next_id := 100%N |}.

(** The lead of the examples with a note of two lines. *)
Definition two_line_note : string :=
  "Called twice." +:+ line_break +:+ "Wants a garden.".

Definition noted_lead : buyer_lead :=
  {| bl_id := 12%N;
     bl_created_by := Some 2%N;
     bl_assigned_to := None;
     bl_first_name := "John";
     bl_last_name := "Doe";
     bl_email := "john@x.com";
     bl_phone := None;
     bl_budget_min := None;
     bl_budget_max := None;
     bl_preferred_areas := Some [];
     bl_property_type := None;
     bl_bedrooms := None;
     bl_bathrooms := None;
     bl_status := Some new;
     bl_source := Some website;
     bl_priority := Some 3;
     bl_notes := Some two_line_note;
     bl_last_contacted := None;
     bl_next_follow_up := None;
     bl_created_at := Some "2025-09-15T11:15:53+00:00";
     bl_updated_at := Some "2025-09-15T11:15:53+00:00" |}.

Definition noted_store : database :=
  {| profiles := example_profiles;
     buyer_leads := [noted_lead];
     lead_activities := [];
     db_now := "2025-10-01T08:00:00+00:00";
     db_next_id := 100%N |}.

(** A lead with a space before its first name, no source and a double
    quote in its note. *)
Definition odd_note : string := "6" +:+ String DQUOTE " sill".

Definition odd_lead : buyer_lead :=
  {| bl_id := 13%N;
     bl_created_by := Some 2%N;
     bl_assigned_to := None;
     bl_first_name := " Al";
     bl_last_name := "Ba";
     bl_email := "al@x.com";
     bl_phone := None;
     bl_budget_min := None;
     bl_budget_max := None;
     bl_preferred_areas := Some [];
     bl_property_type := None;
     bl_bedrooms := None;
     bl_bathrooms := None;
     bl_status := Some new;
     bl_source := None;
     bl_priority := Some 3;
     bl_notes := Some odd_note;
     bl_last_contacted := None;
     bl_next_follow_up := None;
     bl_created_at := Some "2025-09-15T11:15:53+00:00";
     bl_updated_at := Some "2025-09-15T11:15:53+00:00" |}.

Definition odd_store : database :=
  {| profiles := example_profiles;
     buyer_leads := [odd_lead];
     lead_activities := [];
     db_now := "2025-10-01T08:00:00+00:00";
     db_next_id := 100%N |}.

(** A row whose priority is a word. *)
Definition worded_priority_csv : string :=
  "first_name,last_name,email,priority" +:+ line_break +:+
  "Al,Ba,al@x.com,high".

(** ** Registration and the profiles table (migration lines 102-132) *)

(** The row of [auth.users] the trigger sees: its id and
    [raw_user_meta_data ->> 'full_name']. *)
Record auth_user := {
  au_id : uuid;
  au_full_name : option string
}.

(** The trigger function [handle_new_user]: the insert of the profile,
    which the UNIQUE constraint on [user_id] refuses ([None]) when the
    user has a profile already. *)
Definition handle_new_user (db : database) (NEW : auth_user) : option database :=
  if existsb (fun p => N.eqb (pr_user_id p) (au_id NEW)) (profiles db) then None
  else
    Some {| profiles :=
              profiles db ++
              [ {| pr_user_id := au_id NEW;
                   pr_full_name := Some (default "User" (au_full_name NEW));
                   pr_role := Some agent |} ];
            buyer_leads := buyer_leads db;
            lead_activities := lead_activities db;
            db_now := db_now db;
            db_next_id := db_next_id db |}.

Definition profiles_policies : list (policy profile) := [
  {| pol_name := "Users can view all profiles";
     pol_for := FOR SELECT;
     pol_using := Some (fun _ _ _ => Some true);
     pol_with_check := None |};
  {| pol_name := "Users can update their own profile";
     pol_for := FOR UPDATE;
     pol_using := Some (fun _ uid p => Sql.cmp N.eqb uid (Some (pr_user_id p)));
     pol_with_check := None |}
].

(** Every activity belongs to a stored lead (the foreign key of
    [lead_activities.lead_id]). *)
Definition activities_refer_to_leads (db : database) : Prop :=
  Forall (fun la =>
      existsb (fun bl => N.eqb (bl_id bl) (la_lead_id la)) (buyer_leads db) = true)
    (lead_activities db).

(** A registration without a name. *)
Definition nameless_user : auth_user := {| au_id := 7%N; au_full_name := None |}.
(** What [parseCsvLine] leaves in a cell. *)
Definition parsed_cell (cell : string) : Prop :=
  trim cell = cell /\ includes_char DQUOTE cell = false.

(** ** The sample file ([downloadSampleCsv]) *)

Definition sampleContent : string :=
  join (String LF EmptyString) [
    "first_name,last_name,email,phone,budget_min,budget_max,preferred_areas,property_type,bedrooms,bathrooms,status,source,priority,notes";
    "John,Doe,john.doe@example.com,+1-555-0123,300000,500000,Downtown;Midtown,Single Family Home,3,2.5,new,website,3,Looking for move-in ready home";
    "Jane,Smith,jane.smith@example.com,+1-555-0124,200000,350000,Suburbs,Condo,2,2,contacted,referral,4,First-time buyer"
  ].

(** The two leads of the sample file as the store keeps them for the
    importer [user], with the identifier [id] and the time [now] of the
    import. *)
Definition sample_john (id : uuid) (now : timestamptz) (user : uuid) : buyer_lead :=
  {| bl_id := id;
     bl_created_by := Some user;
     bl_assigned_to := None;
     bl_first_name := "John";
     bl_last_name := "Doe";
     bl_email := "john.doe@example.com";
     bl_phone := Some "+1-555-0123";
     bl_budget_min := Some 30000000;
     bl_budget_max := Some 50000000;
     bl_preferred_areas := Some ["Downtown"; "Midtown"];
     bl_property_type := Some "Single Family Home";
     bl_bedrooms := Some 3;
     bl_bathrooms := Some 25;
     bl_status := Some new;
     bl_source := Some website;
     bl_priority := Some 3;
     bl_notes := Some "Looking for move-in ready home";
     bl_last_contacted := None;
     bl_next_follow_up := None;
     bl_created_at := Some now;
     bl_updated_at := Some now |}.

Definition sample_jane (id : uuid) (now : timestamptz) (user : uuid) : buyer_lead :=
  {| bl_id := id;
     bl_created_by := Some user;
     bl_assigned_to := None;
     bl_first_name := "Jane";
     bl_last_name := "Smith";
     bl_email := "jane.smith@example.com";
     bl_phone := Some "+1-555-0124";
     bl_budget_min := Some 20000000;
     bl_budget_max := Some 35000000;
     bl_preferred_areas := Some ["Suburbs"];
     bl_property_type := Some "Condo";
     bl_bedrooms := Some 2;
     bl_bathrooms := Some 20;
     bl_status := Some contacted;
     bl_source := Some referral;
     bl_priority := Some 4;
     bl_notes := Some "First-time buyer";
     bl_last_contacted := None;
     bl_next_follow_up := None;
     bl_created_at := Some now;
     bl_updated_at := Some now |}.

(** ** Support for the properties of the import *)

Definition is_upper_case (c : ascii) : bool :=
  let n := nat_of_ascii c in ((65 <=? n) && (n <=? 90))%nat.

(** The shape of a normalised header name. *)
Definition normal_char (c : ascii) : bool :=
  negb (is_white_space c) && negb (is_upper_case c).

(** A character of ASCII. *)
Definition seven_bit (c : ascii) : bool := (nat_of_ascii c <? 128)%nat.

(** The keys [csvImportSchema] reads. *)
Definition csvImportSchema_keys : list string := [
  "first_name"; "last_name"; "email"; "phone"; "budget_min"; "budget_max";
  "preferred_areas"; "property_type"; "bedrooms"; "bathrooms"; "status";
  "source"; "priority"; "notes"
].

(** What the import leaves in the columns a file has no say in. *)
Definition imported_by (db : database) (user : uuid) (bl : buyer_lead) : Prop :=
  bl_created_by bl = Some user
  /\ bl_assigned_to bl = None
  /\ bl_last_contacted bl = None
  /\ bl_next_follow_up bl = None
  /\ bl_created_at bl = Some (db_now db)
  /\ bl_updated_at bl = Some (db_now db).

(** Row numbers that go up, each within [lo, hi]. *)
Fixpoint rows_ascend (lo hi : nat) (rows : list nat) : Prop :=
  match rows with
  | [] => True
  | r :: rows' => (lo <= r <= hi)%nat /\ rows_ascend (S r) hi rows'
  end.

Definition status_literals : list string :=
  ["new"; "contacted"; "qualified"; "not_qualified"; "closed"].

Definition source_literals : list string :=
  ["website"; "referral"; "social_media"; "cold_call"; "email_campaign"; "other"].

(** ** The lead form ([LeadForm], part_001): the list of preferred areas *)

(** The two pieces of state behind the areas field. *)
Record area_state := {
  areas : list string;
  newArea : string
}.

Definition initial_areas : area_state := {| areas := []; newArea := "" |}.

(** [onChange] of the input: [setNewArea(e.target.value)]. *)
Definition setNewArea (st : area_state) (value : string) : area_state :=
  {| areas := areas st; newArea := value |}.

Definition addArea (st : area_state) : area_state :=
  if truthy (trim (newArea st)) && negb (includes (areas st) (trim (newArea st)))
  then {| areas := (areas st ++ [trim (newArea st)])%list; newArea := "" |}
  else st.

Definition removeArea (st : area_state) (area : string) : area_state :=
  {| areas := List.filter (fun a => negb (String.eqb a area)) (areas st);
     newArea := newArea st |}.

(** What the user can do to the field: type, add, remove a listed area. *)
Inductive area_step : area_state -> area_state -> Prop :=
| area_typed st value : area_step st (setNewArea st value)
| area_added st : area_step st (addArea st)
| area_removed st area : area_step st (removeArea st area).

Inductive area_reachable : area_state -> Prop :=
| area_initial : area_reachable initial_areas
| area_next st st' : area_reachable st -> area_step st st' -> area_reachable st'.

(** ** The list of leads ([Leads], part_000): pages *)





(** [arr.slice(start, end)]: a negative index counts from the end. *)
Definition slice_index (len k : Z) : Z :=
  if k <? 0 then Z.max (len + k) 0 else Z.min k len.

Definition slice {A} (start end_ : Z) (l : list A) : list A :=
  let len := Z.of_nat (length l) in
  let from := slice_index len start in
  let to := slice_index len end_ in
  firstn (Z.to_nat (to - from)) (skipn (Z.to_nat from) l).

(** The page numbers on the buttons between Previous and Next:
    [[...Array(totalPages)].map((_, i) => i + 1)
       .slice(Math.max(0, currentPage - 3), currentPage + 2)]. *)
Definition page_buttons (currentPage totalPages : Z) : list Z :=
  slice (Z.max 0 (currentPage - 3)) (currentPage + 2)
        (map (fun i => Z.of_nat i + 1) (seq 0 (Z.to_nat totalPages))).

(** [Math.max(1, prev - 1)] and [Math.min(totalPages, prev + 1)]. *)
Definition previous_page (currentPage : Z) : Z := Z.max 1 (currentPage - 1).
Definition next_page (currentPage totalPages : Z) : Z :=
  Z.min totalPages (currentPage + 1).

Section LeadsList.

(** The WHERE clause that the search term and the two filters make, as
    the store evaluates it on a row. *)
Variable selected : buyer_lead -> bool.



End LeadsList.


(** ** The analytics page ([fetchAnalytics]) and the dashboard
       ([fetchDashboardStats])

    The two pages read the leads the caller sees, in the order the store
    gives them. A breakdown is an object used as a map from a key to a
    count, with its keys in the order of their first use. The two rates
    are kept as exact quotients where the engine rounds to a double. *)

(** The key a value makes when it indexes an object: [null] gives the
    key ["null"]. *)
Definition property_key (v : js_value) : string :=
  match v with
  | js_null => "null"
  | _ => js_to_string v
  end.

(** [acc[key] || 0] *)
Definition count_of (acc : list (string * Z)) (key : string) : Z :=
  match List.find (fun e => String.eqb (fst e) key) acc with
  | Some e => snd e
  | None => 0
  end.

(** [acc[key] = (acc[key] || 0) + 1] *)
Fixpoint count_up (key : string) (acc : list (string * Z)) : list (string * Z) :=
  match acc with
  | [] => [(key, 1)]
  | e :: acc' =>
      if String.eqb (fst e) key then (fst e, snd e + 1) :: acc'
      else e :: count_up key acc'
  end.

(** The object that the [forEach] over the leads builds for the column
    [header]. *)
Definition breakdown (header : string) (leads : list buyer_lead) : list (string * Z) :=
  fold_left (fun acc lead => count_up (property_key (lead_get lead header)) acc) leads [].

Record source_share := {
  ss_source : string;
  ss_count : Z;
  ss_percentage : Q
}.

(** [total > 0 ? (count / total) * 100 : 0] *)
Definition percent (count total : Z) : Q :=
  if 0 <? total then (inject_Z count / inject_Z total * 100)%Q else 0%Q.

(** [arr.sort(compare)]: the sort is stable, an element stays in front
    of a later one unless [compare] of the two is positive. *)
Fixpoint sort_insert {A} (compare : A -> A -> Z) (x : A) (l : list A) : list A :=
  match l with
  | [] => [x]
  | y :: l' =>
      if compare x y <=? 0 then x :: l else y :: sort_insert compare x l'
  end.

Definition Array_sort {A} (compare : A -> A -> Z) (l : list A) : list A :=
  fold_right (sort_insert compare) [] l.

Record AnalyticsData := {
  totalLeads : Z;
  statusBreakdown : list (string * Z);
  sourceBreakdown : list (string * Z);
  priorityBreakdown : list (string * Z);
  recentActivity : Z;
  conversionRate : Q;
  averageResponseTime : Z;
  topPerformingSources : list source_share
}.

(** The columns the dashboard selects. *)
Record dashboard_lead := {
  dl_id : uuid;
  dl_status : option lead_status;
  dl_first_name : string;
  dl_last_name : string;
  dl_email : string;
  dl_created_at : option timestamptz;
  dl_priority : option Z
}.

Definition dashboard_columns (bl : buyer_lead) : dashboard_lead :=
  {| dl_id := bl_id bl;
     dl_status := bl_status bl;
     dl_first_name := bl_first_name bl;
     dl_last_name := bl_last_name bl;
     dl_email := bl_email bl;
     dl_created_at := bl_created_at bl;
     dl_priority := bl_priority bl |}.

(** [lead.status === literal] *)
Definition status_is (literal : string) (lead : dashboard_lead) : bool :=
  match dl_status lead with
  | Some s => String.eqb (lead_status_label s) literal
  | None => false
  end.

Record DashboardStats := {
  total_leads : Z;
  new_leads : Z;
  qualified_leads : Z;
  closed_leads : Z;
  recent_leads : list dashboard_lead
}.

Section Pages.

(** [new Date(created_at).getTime()] on what the store gives for a
    [created_at]: a time stamp or NULL. *)
Variable getTime : option timestamptz -> Z.

(** The time of the page load less seven days of the calendar. *)
Variable sevenDaysAgo : Z.

Definition fetchAnalytics (db : database) (user : uuid) : AnalyticsData :=
  let leads := visible_leads db (Some user) in
  let totalLeads := Z.of_nat (length leads) in
  let statusBreakdown := breakdown "status" leads in
  let sourceBreakdown := breakdown "source" leads in
  let priorityBreakdown := breakdown "priority" leads in
  let recentActivity :=
    Z.of_nat (length (List.filter
                        (fun lead => sevenDaysAgo <=? getTime (bl_created_at lead))
                        leads)) in
  let qualifiedLeads :=
    count_of statusBreakdown "qualified" + count_of statusBreakdown "closed" in
  {| totalLeads := totalLeads;
     statusBreakdown := statusBreakdown;
     sourceBreakdown := sourceBreakdown;
     priorityBreakdown := priorityBreakdown;
     recentActivity := recentActivity;
     conversionRate := percent qualifiedLeads totalLeads;
     averageResponseTime := 24;
     topPerformingSources :=
       slice 0 5
         (Array_sort (fun a b => ss_count b - ss_count a)
            (map (fun e => {| ss_source := fst e;
                              ss_count := snd e;
                              ss_percentage := percent (snd e) totalLeads |})
                 sourceBreakdown)) |}.

Definition fetchDashboardStats (db : database) (user : uuid) : DashboardStats :=
  let leads := map dashboard_columns (visible_leads db (Some user)) in
  {| total_leads := Z.of_nat (length leads);
     new_leads := Z.of_nat (length (List.filter (status_is "new") leads));
     qualified_leads := Z.of_nat (length (List.filter (status_is "qualified") leads));
     closed_leads := Z.of_nat (length (List.filter (status_is "closed") leads));
     recent_leads :=
       slice 0 5
         (Array_sort (fun a b => getTime (dl_created_at b) - getTime (dl_created_at a))
            leads) |}.

End Pages.

(** The sum of the counts of a breakdown. *)
Definition sum_counts (acc : list (string * Z)) : Z :=
  fold_right (fun e s => snd e + s) 0 acc.

(** The leads whose column [header] makes the key [key]. *)
Definition leads_with (header key : string) (leads : list buyer_lead) : list buyer_lead :=
  List.filter (fun lead => String.eqb (property_key (lead_get lead header)) key) leads.

(** ** The lead form: [onSubmit] *)

(** [LeadFormData], the values the form hands over once [leadSchema]
    has accepted them; [next_follow_up] is kept as the text that
    [toISOString] gives for the date. *)
Record LeadFormData := {
  fd_first_name : string;
  fd_last_name : string;
  fd_email : string;
  fd_phone : option string;
  fd_budget_min : option number;
  fd_budget_max : option number;
  fd_preferred_areas : option (list string);
  fd_property_type : option string;
  fd_bedrooms : option number;
  fd_bathrooms : option number;
  fd_status : lead_status;
  fd_source : lead_source;
  fd_priority : number;
  fd_notes : option string;
  fd_next_follow_up : option timestamptz
}.

(** [x || null] on an optional number, as it is sent: zero and NaN are
    falsy, and an infinity is written as [null]. *)
Definition number_or_null (x : option number) : col decimal :=
  match x with
  | Some (Finite d) => if dec_m d =? 0 then Null else Val d
  | _ => Null
  end.

(** The object [leadData] of [onSubmit]. *)
Definition form_leadData (data : LeadFormData) (areas : list string) (user : uuid)
    : lead_row_in :=
  {| in_first_name := Val (fd_first_name data);
     in_last_name := Val (fd_last_name data);
     in_email := Val (fd_email data);
     in_phone := or_null (fd_phone data);
     in_budget_min := number_or_null (fd_budget_min data);
     in_budget_max := number_or_null (fd_budget_max data);
     in_preferred_areas := Val areas;
     in_property_type := or_null (fd_property_type data);
     in_bedrooms := number_or_null (fd_bedrooms data);
     in_bathrooms := number_or_null (fd_bathrooms data);
     in_status := Val (lead_status_label (fd_status data));
     in_source := Val (lead_source_label (fd_source data));
     in_priority := json_number (fd_priority data);
     in_notes := or_null (fd_notes data);
     in_next_follow_up := or_null (fd_next_follow_up data);
     in_created_by := Val user;
     in_assigned_to := Default;
     in_last_contacted := Default |}.

(** [INSERT INTO lead_activities (lead_id, user_id, activity_type,
    description)]. The policy lets the row through only when a lead with
    that id is stored, so the foreign key of [lead_id] holds for every
    row that passes. *)
Definition db_insert_activity (db : database) (uid : option uuid)
    (lead_id : uuid) (user_id : option uuid) (activity_type description : string)
    : result db_error database :=
  let la := {| la_id := db_next_id db;
               la_lead_id := lead_id;
               la_user_id := user_id;
               la_activity_type := activity_type;
               la_description := description;
               la_created_at := Some (db_now db) |} in
  try _ := guard (activity_insert_allowed db uid la)
                 (row_security_violation "lead_activities") in
  Ok {| profiles := profiles db;
        buyer_leads := buyer_leads db;
        lead_activities := (lead_activities db ++ [la])%list;
        db_now := db_now db;
        db_next_id := N.succ (db_next_id db) |}.

(** [select('id').eq('email', email).eq('created_by', user)
     .order('created_at', { ascending: false }).limit(1).single()]:
    the first row, or nothing when there is none. *)
Definition newLead (db : database) (user : uuid) (email : string) : option uuid :=
  match List.filter (fun bl => String.eqb (bl_email bl) email
                               && Sql.holds (Sql.cmp N.eqb (bl_created_by bl) (Some user)))
                    (select_leads db user) with
  | bl :: _ => Some (bl_id bl)
  | [] => None
  end.

(** The end of [onSubmit]: the [catch] with the error of the insert, or
    the "Success" notice. *)
Inductive submit_outcome :=
| submit_failed (e : db_error)
| submit_succeeded.

(** [onSubmit] for a signed-in user: the insert of the lead, the lookup
    of its id and the insert of the activity, whose result is not looked
    at. *)
Definition onSubmit (db : database) (user : uuid) (areas : list string)
    (data : LeadFormData) : submit_outcome * database :=
  match db_insert_lead db (Some user) (form_leadData data areas user) with
  | Err e => (submit_failed e, db)
  | Ok db1 =>
      match newLead db1 user (fd_email data) with
      | Some id =>
          match db_insert_activity db1 (Some user) id (Some user) "lead_created"
                  ("Lead created for " +:+ fd_first_name data +:+ " "
                   +:+ fd_last_name data) with
          | Ok db2 => (submit_succeeded, db2)
          | Err _ => (submit_succeeded, db1)
          end
      | None => (submit_succeeded, db1)
      end
  end.

(** A submission of the form for the examples. *)
Definition example_form : LeadFormData :=
  {| fd_first_name := "Eve";
     fd_last_name := "Fox";
     fd_email := "eve@x.com";
     fd_phone := None;
     fd_budget_min := Some (Finite {| dec_m := 0; dec_e := 0 |});
     fd_budget_max := Some (Finite {| dec_m := 250000; dec_e := 0 |});
     fd_preferred_areas := Some [];
     fd_property_type := None;
     fd_bedrooms := Some (Finite {| dec_m := 2; dec_e := 0 |});
     fd_bathrooms := None;
     fd_status := new;
     fd_source := website;
     fd_priority := Finite {| dec_m := 3; dec_e := 0 |};
     fd_notes := None;
     fd_next_follow_up := None |}.

(** ** The schema of the form ([leadSchema], validations.ts) *)

(** A [Date] of the form: a date with its ISO text, or Invalid Date. *)
Inductive js_date := valid_date (iso : timestamptz) | invalid_date.

(** The values of the form as they reach the schema: [None] is
    [undefined]. *)
Record lead_form_values := {
  fv_first_name : option string;
  fv_last_name : option string;
  fv_email : option string;
  fv_phone : option string;
  fv_budget_min : option number;
  fv_budget_max : option number;
  fv_preferred_areas : option (list string);
  fv_property_type : option string;
  fv_bedrooms : option number;
  fv_bathrooms : option number;
  fv_status : option string;
  fv_source : option string;
  fv_priority : option number;
  fv_notes : option string;
  fv_next_follow_up : option js_date
}.

(** The order of two decimals, at their common exponent. *)
Definition decimal_compare (a b : decimal) : comparison :=
  let e := Z.min (dec_e a) (dec_e b) in
  Z.compare (dec_m a * 10 ^ (dec_e a - e)) (dec_m b * 10 ^ (dec_e b - e)).

(** [x < y] on numbers: false as soon as one is NaN. *)
Definition number_lt (x y : number) : bool :=
  match x, y with
  | NaN, _ | _, NaN => false
  | Infinity true, Infinity true => false
  | Infinity true, _ => true
  | Finite _, Infinity false => true
  | Finite a, Finite b =>
      match decimal_compare a b with Lt => true | _ => false end
  | _, _ => false
  end.

(** [x <= y] on numbers. *)
Definition number_le (x y : number) : bool :=
  match x, y with
  | NaN, _ | _, NaN => false
  | Infinity true, _ => true
  | _, Infinity false => true
  | Finite a, Finite b =>
      match decimal_compare a b with Gt => false | _ => true end
  | _, _ => false
  end.

Definition whole (k : Z) : number := Finite {| dec_m := k; dec_e := 0 |}.

(** [Number.isInteger(x)] *)
Definition Number_isInteger (x : number) : bool :=
  match x with
  | Finite d => (0 <=? dec_e d) || (dec_m d mod 10 ^ (- dec_e d) =? 0)
  | _ => false
  end.

(** Truthiness of a number: all but zero and NaN. *)
Definition number_is_truthy (x : number) : bool :=
  match x with
  | Finite d => negb (dec_m d =? 0)
  | Infinity _ => true
  | NaN => false
  end.

(** [z.number()] takes every number but NaN; [.min(k)] and [.max(k)]
    include the bound. *)
Definition z_number (x : number) : bool :=
  match x with NaN => false | _ => true end.
Definition z_min (k : Z) (x : number) : bool := negb (number_lt x (whole k)).
Definition z_max (k : Z) (x : number) : bool := negb (number_lt (whole k) x).

(** [.optional()]: [undefined] passes. *)
Definition z_optional {A} (check : A -> bool) (v : option A) : bool :=
  match v with
  | Some a => check a
  | None => true
  end.

(** The check of [.refine]: [budget_min <= budget_max] when both are
    truthy. *)
Definition budgets_in_order (budget_min budget_max : option number) : bool :=
  match budget_min, budget_max with
  | Some lo, Some hi =>
      if number_is_truthy lo && number_is_truthy hi then number_le lo hi else true
  | _, _ => true
  end.

Section LeadSchema.

Variable is_email : string -> bool.

(** [leadSchema.safeParse(values)]: the data when the values pass, with
    the defaults of [status], [source] and [priority] filled in. *)
Definition leadSchema_parse (v : lead_form_values) : option LeadFormData :=
  match fv_first_name v, fv_last_name v, fv_email v,
        lead_status_in (default "new" (fv_status v)),
        lead_source_in (default "website" (fv_source v)) with
  | Some first, Some last, Some address, Some status, Some source =>
      let priority := default (whole 3) (fv_priority v) in
      if (1 <=? String.length first)%nat
         && (1 <=? String.length last)%nat
         && is_email address
         && z_optional (fun x => z_number x && z_min 0 x) (fv_budget_min v)
         && z_optional (fun x => z_number x && z_min 0 x) (fv_budget_max v)
         && z_optional (fun x => z_number x && Number_isInteger x && z_min 0 x)
              (fv_bedrooms v)
         && z_optional (fun x => z_number x && z_min 0 x) (fv_bathrooms v)
         && (z_number priority && Number_isInteger priority
             && z_min 1 priority && z_max 5 priority)
         && z_optional (fun d => match d with valid_date _ => true
                                            | invalid_date => false end)
              (fv_next_follow_up v)
         && budgets_in_order (fv_budget_min v) (fv_budget_max v)
      then
        Some {| fd_first_name := first;
                fd_last_name := last;
                fd_email := address;
                fd_phone := fv_phone v;
                fd_budget_min := fv_budget_min v;
                fd_budget_max := fv_budget_max v;
                fd_preferred_areas := fv_preferred_areas v;
                fd_property_type := fv_property_type v;
                fd_bedrooms := fv_bedrooms v;
                fd_bathrooms := fv_bathrooms v;
                fd_status := status;
                fd_source := source;
                fd_priority := priority;
                fd_notes := fv_notes v;
                fd_next_follow_up :=
                  match fv_next_follow_up v with
                  | Some (valid_date iso) => Some iso
                  | _ => None
                  end |}
      else None
  | _, _, _, _, _ => None
  end.

End LeadSchema.

(** An amount that fits a DECIMAL([p],[s]) column, a count that fits an
    INTEGER column. *)
Definition fits_numeric (p s : Z) (x : option number) : Prop :=
  match x with
  | Some (Finite d) => Z.abs (round_scaled s d) < 10 ^ p
  | _ => True
  end.

Definition fits_integer (x : option number) : Prop :=
  match x with
  | Some (Finite d) => round_scaled 0 d < 2 ^ 31
  | _ => True
  end.

(** A text that a column of type text can hold: PostgreSQL stores every
    character but the one of code 0. *)
Definition storable_text (s : string) : bool := negb (includes_char "000"%char s).

Definition storable_optional (o : option string) : bool :=
  match o with
  | Some s => storable_text s
  | None => true
  end.

(** The texts that [onSubmit] sends are storable, and the form has no
    date of follow-up. *)
Definition storable_form (data : LeadFormData) (areas : list string) : Prop :=
  storable_text (fd_first_name data) = true
  /\ storable_text (fd_last_name data) = true
  /\ storable_text (fd_email data) = true
  /\ storable_optional (fd_phone data) = true
  /\ storable_optional (fd_property_type data) = true
  /\ storable_optional (fd_notes data) = true
  /\ Forall (fun area => storable_text area = true) areas
  /\ fd_next_follow_up data = None.

(** The values of [example_form] as the form holds them. *)
Definition example_values : lead_form_values :=
  {| fv_first_name := Some "Eve";
     fv_last_name := Some "Fox";
     fv_email := Some "eve@x.com";
     fv_phone := None;
     fv_budget_min := Some (Finite {| dec_m := 0; dec_e := 0 |});
     fv_budget_max := Some (Finite {| dec_m := 250000; dec_e := 0 |});
     fv_preferred_areas := Some [];
     fv_property_type := None;
     fv_bedrooms := Some (Finite {| dec_m := 2; dec_e := 0 |});
     fv_bathrooms := None;
     fv_status := None;
     fv_source := None;
     fv_priority := None;
     fv_notes := None;
     fv_next_follow_up := None |}.

(** * Properties *)

(** ** The policy engine *)

Lemma lead_read_allowed_role db uid bl :
  lead_read_allowed db uid bl = bool_decide (is_Some (get_user_role db uid)).
Proof.
  unfold lead_read_allowed, using_allows, role_is, role_in; simpl.
  unfold role_is, role_in.
  destruct (get_user_role db uid) as [[]|]; reflexivity.
Qed.

Lemma lead_insert_allowed_role db uid bl :
  lead_insert_allowed db uid bl =
  match get_user_role db uid with
  | Some admin | Some agent => true
  | _ => false
  end.
Proof.
  unfold lead_insert_allowed, check_allows; simpl.
  unfold role_is, role_in.
  destruct (get_user_role db uid) as [[]|]; reflexivity.
Qed.

Lemma lead_delete_allowed_role db uid bl :
  lead_delete_allowed db uid bl =
  match get_user_role db uid with
  | Some admin => true
  | _ => false
  end.
Proof.
  unfold lead_delete_allowed, using_allows; simpl.
  unfold role_is.
  destruct (get_user_role db uid) as [[]|]; reflexivity.
Qed.

Lemma cmp_caller_holds column uid :
  Sql.holds (Sql.cmp N.eqb column uid) = true <-> is_caller uid column.
Proof.
  unfold is_caller. destruct column as [c|], uid as [u|]; simpl.
  - destruct (N.eqb_spec c u) as [->|Hne]; split; try discriminate; eauto.
    intros (u' & [= ->] & [= ->]). contradiction.
  - split; [discriminate | intros (? & [=] & _)].
  - split; [discriminate | intros (? & _ & [=])].
  - split; [discriminate | intros (? & [=] & _)].
Qed.

Lemma admin_or_owner_holds db uid bl :
  Sql.holds (admin_or_owner db uid bl) = true <->
  get_user_role db uid = Some admin
  \/ is_caller uid (bl_created_by bl) \/ is_caller uid (bl_assigned_to bl).
Proof.
  rewrite <- !cmp_caller_holds. unfold admin_or_owner, role_is.
  destruct (get_user_role db uid) as [[]|];
    destruct (Sql.cmp N.eqb (bl_created_by bl) uid) as [[]|];
    destruct (Sql.cmp N.eqb (bl_assigned_to bl) uid) as [[]|];
    simpl; intuition congruence.
Qed.

Lemma lead_update_allowed_iff db uid bl :
  lead_update_allowed db uid bl = true <->
  get_user_role db uid = Some admin
  \/ is_caller uid (bl_created_by bl) \/ is_caller uid (bl_assigned_to bl).
Proof.
  rewrite <- admin_or_owner_holds.
  unfold lead_update_allowed, using_allows; simpl.
  rewrite orb_false_r, orb_true_iff.
  split; [intros [H|H]; [|exact H] | intros H; right; exact H].
  unfold admin_or_owner.
  destruct (role_is db uid admin) as [[]|]; try discriminate. reflexivity.
Qed.

Lemma existsb_filter {A} (p f : A -> bool) (l : list A) :
  existsb f (List.filter p l) = existsb (fun x => p x && f x) l.
Proof.
  induction l as [|x l IH]; simpl; [reflexivity|].
  destruct (p x); simpl; rewrite IH; reflexivity.
Qed.

Lemma existsb_pointwise {A} (f g : A -> bool) (l : list A) :
  (forall x, f x = g x) -> existsb f l = existsb g l.
Proof.
  intros E. induction l as [|x l IH]; simpl; [reflexivity|].
  rewrite E, IH. reflexivity.
Qed.

Lemma holds_Some (b : bool) : Sql.holds (Some b) = b.
Proof. destruct b; reflexivity. Qed.

Lemma activity_read_allowed_exists db uid la :
  activity_read_allowed db uid la =
  existsb (fun bl => lead_read_allowed db uid bl
                     && (N.eqb (bl_id bl) (la_lead_id la)
                         && Sql.holds (admin_or_owner db uid bl)))
          (buyer_leads db).
Proof.
  unfold activity_read_allowed, using_allows, lead_activities_policies.
  cbn [existsb applies pol_for pol_using command_eqb andb].
  rewrite !orb_false_r. unfold exists_accessible_lead, visible_leads.
  rewrite holds_Some, existsb_filter.
  apply existsb_pointwise. intros bl. unfold lead_read_allowed. f_equal.
  cbn [Sql.cmp Sql.and].
  destruct (N.eqb (bl_id bl) (la_lead_id la)),
           (admin_or_owner db uid bl) as [[]|]; reflexivity.
Qed.

(** C1 (amended). The policy lets a caller read a LeadActivity row exactly
    when some lead is its parent, the caller may read that lead, and the
    caller is in addition an admin, the creator of the lead or its
    assignee. So whoever may read an activity may read its parent lead,
    but a caller who may read the lead and is neither admin, creator nor
    assignee may not read its activities. *)
Theorem activity_read_iff_lead_read_and_owner db uid la :
  activity_read_allowed db uid la = true <->
  exists bl,
    In bl (buyer_leads db) /\ bl_id bl = la_lead_id la /\
    lead_read_allowed db uid bl = true /\
    (get_user_role db uid = Some admin
     \/ is_caller uid (bl_created_by bl) \/ is_caller uid (bl_assigned_to bl)).
Proof.
  rewrite activity_read_allowed_exists, existsb_exists.
  split.
  - intros (bl & Hin & H).
    apply andb_prop in H as [Hread H]. apply andb_prop in H as [Hid Hown].
    exists bl. repeat split; try assumption.
    + apply N.eqb_eq, Hid.
    + apply admin_or_owner_holds, Hown.
  - intros (bl & Hin & Hid & Hread & Hown).
    exists bl. split; [assumption|].
    rewrite Hread. apply N.eqb_eq in Hid. rewrite Hid.
    apply admin_or_owner_holds in Hown. rewrite Hown. reflexivity.
Qed.

(** C1, as stated, fails: agent 3 may read the lead of the example store,
    which agent 2 created and which is assigned to viewer 4, and may not
    read the activity of that lead. *)
Lemma activity_read_denied_to_lead_reader :
  In example_lead (buyer_leads example_store)
  /\ la_lead_id example_activity = bl_id example_lead
  /\ get_user_role example_store (Some 3%N) = Some agent
  /\ lead_read_allowed example_store (Some 3%N) example_lead = true
  /\ activity_read_allowed example_store (Some 3%N) example_activity = false.
Proof. repeat split; [left|..]; reflexivity. Qed.

(** C2 (amended). For a caller with role viewer the policy engine allows
    the read of every lead and denies every insert and every delete; it
    allows the update of a lead exactly when the viewer is its recorded
    creator or its current assignee. *)
Theorem viewer_access db uid bl :
  get_user_role db uid = Some viewer ->
  lead_read_allowed db uid bl = true
  /\ (forall row, lead_insert_allowed db uid row = false)
  /\ (forall r, exists e, db_insert_lead db uid r = Err e)
  /\ lead_delete_allowed db uid bl = false
  /\ (forall id, buyer_leads (db_delete_lead db uid id) = buyer_leads db)
  /\ (lead_update_allowed db uid bl = true <->
      is_caller uid (bl_created_by bl) \/ is_caller uid (bl_assigned_to bl)).
Proof.
  intros Hrole. repeat split.
  - rewrite lead_read_allowed_role, Hrole. reflexivity.
  - intros row. rewrite lead_insert_allowed_role, Hrole. reflexivity.
  - intros r. unfold db_insert_lead.
    destruct (requested_row _ _ r) as [[names row]|e]; simpl; [|eauto].
    rewrite lead_insert_allowed_role, Hrole. simpl. eauto.
  - rewrite lead_delete_allowed_role, Hrole. reflexivity.
  - intros id. unfold db_delete_lead; simpl.
    induction (buyer_leads db) as [|x l IH]; simpl; [reflexivity|].
    rewrite lead_delete_allowed_role, Hrole, andb_false_r. simpl.
    f_equal. exact IH.
  - intros H. apply lead_update_allowed_iff in H as [H|H]; [congruence|exact H].
  - intros H. apply lead_update_allowed_iff. right. exact H.
Qed.

(** Viewer 4 in the example store: the hypothesis of C2 holds. *)
Lemma viewer_access_witness :
  get_user_role example_store (Some 4%N) = Some viewer
  /\ lead_read_allowed example_store (Some 4%N) example_lead = true
  /\ lead_delete_allowed example_store (Some 4%N) example_lead = false.
Proof.
  split; [reflexivity|].
  pose proof (viewer_access example_store (Some 4%N) example_lead eq_refl)
    as (Hread & _ & _ & Hdel & _).
  split; assumption.
Defined.

(** C2, as stated, fails: viewer 4 is the assignee of the lead of the
    example store; the policy allows the update, and the statement that
    sets the notes of that lead goes through. *)
Lemma viewer_assignee_updates :
  get_user_role example_store (Some 4%N) = Some viewer
  /\ bl_assigned_to example_lead = Some 4%N
  /\ lead_update_allowed example_store (Some 4%N) example_lead = true
  /\ exists db',
       db_update_lead example_store (Some 4%N) 10%N set_notes_called = Ok db'
       /\ map bl_notes (buyer_leads db') = [Some "called"].
Proof.
  repeat split. eexists. split; reflexivity.
Qed.

(** ** The schema constraints *)

Ltac bind_inv H :=
  repeat match type of H with
  | bind ?m _ = Ok _ =>
      let E := fresh "E" in
      destruct m eqn:E; cbn [bind] in H; [|discriminate H]
  end.

(** What an accepted statement leaves in the three constrained columns. *)
Lemma requested_row_constrained old text r names row :
  requested_row old text r = Ok (names, row) ->
  column (in_status r) (bl_status old) to_lead_status = Ok (bl_status row)
  /\ column (in_source r) (bl_source old) to_lead_source = Ok (bl_source row)
  /\ column (in_priority r) (bl_priority old) to_integer = Ok (bl_priority row).
Proof.
  intros H. unfold requested_row in H. bind_inv H.
  injection H as <- <-. cbn. repeat split; assumption.
Qed.

Lemma priority_check_passes bl :
  Sql.check_passes (priority_check bl) = true <-> priority_in_range bl.
Proof.
  unfold priority_check, priority_in_range.
  destruct (bl_priority bl) as [p|]; cbn; [|tauto].
  rewrite Z.geb_leb.
  destruct (Z.leb_spec 1 p), (Z.leb_spec p 5); cbn; split; intros Hp;
    try discriminate Hp; try reflexivity; lia.
Qed.

Lemma check_constraints_priority names bl :
  check_constraints names bl = Ok tt -> priority_in_range bl.
Proof.
  unfold check_constraints. destruct names as [[[f|] [l|]] [e|]];
    try discriminate.
  cbn [guard bind bool_decide]. 
  destruct (Sql.check_passes (priority_check bl)) eqn:H; [|discriminate].
  intros _. apply priority_check_passes, H.
Qed.

Lemma enums_listed bl : status_listed bl /\ source_listed bl.
Proof.
  unfold status_listed, source_listed.
  split; [destruct (bl_status bl) as [[]|] | destruct (bl_source bl) as [[]|]];
    cbn; tauto.
Qed.

Lemma lead_status_in_listed s v :
  lead_status_in s = Some v ->
  In s ["new"; "contacted"; "qualified"; "not_qualified"; "closed"].
Proof.
  unfold lead_status_in. intros H. apply find_some in H as [_ H].
  apply String.eqb_eq in H. subst s. destruct v; cbn; tauto.
Qed.

Lemma lead_source_in_listed s v :
  lead_source_in s = Some v ->
  In s ["website"; "referral"; "social_media"; "cold_call"; "email_campaign"; "other"].
Proof.
  unfold lead_source_in. intros H. apply find_some in H as [_ H].
  apply String.eqb_eq in H. subst s. destruct v; cbn; tauto.
Qed.

(** A row that a statement with a value outside the sets asks for has
    its priority out of range: a status or a source outside the
    enumeration is refused on input. *)
Lemma outside_sets_rejected old text r names row :
  outside_sets r ->
  requested_row old text r = Ok (names, row) ->
  ~ priority_in_range row.
Proof.
  intros Hout Hreq.
  destruct (requested_row_constrained _ _ _ _ _ Hreq) as (Hst & Hso & Hpr).
  destruct Hout as [(d & Hd & Hbad) | [(s & Hs & Hbad) | (s & Hs & Hbad)]].
  - rewrite Hd in Hpr. cbn in Hpr.
    destruct (to_integer d) as [v|] eqn:Hv; [|discriminate].
    injection Hpr as Hpr.
    unfold priority_in_range. rewrite <- Hpr. exact (Hbad v eq_refl).
  - rewrite Hs in Hst. cbn in Hst. unfold to_lead_status in Hst.
    destruct (lead_status_in s) as [v|] eqn:Hv; [|discriminate].
    exfalso. exact (Hbad (lead_status_in_listed _ _ Hv)).
  - rewrite Hs in Hso. cbn in Hso. unfold to_lead_source in Hso.
    destruct (lead_source_in s) as [v|] eqn:Hv; [|discriminate].
    exfalso. exact (Hbad (lead_source_in_listed _ _ Hv)).
Qed.

Lemma insert_outside_sets_rejected db uid r :
  outside_sets r -> exists e, db_insert_lead db uid r = Err e.
Proof.
  intros Hout. unfold db_insert_lead.
  destruct (requested_row _ _ r) as [[names row]|e] eqn:Hreq; cbn [bind]; [|eauto].
  destruct (guard _ _); cbn [bind]; [|eauto].
  destruct (check_constraints names row) as [[]|e] eqn:Hc; cbn [bind]; [|eauto].
  exfalso. apply check_constraints_priority in Hc.
  exact (outside_sets_rejected _ _ _ _ _ Hout Hreq Hc).
Qed.

Lemma update_row_outside_sets db uid id r bl :
  outside_sets r ->
  if reaches db uid id bl
  then exists e, update_row db uid id r bl = Err e
  else update_row db uid id r bl = Ok bl.
Proof.
  intros Hout. unfold update_row.
  destruct (reaches db uid id bl); [|reflexivity].
  destruct (requested_row bl Some r) as [[names row]|e] eqn:Hreq; cbn [bind]; [|eauto].
  destruct (guard _ _); cbn [bind]; [|eauto].
  destruct (check_constraints names (update_updated_at_column db row))
    as [[]|e] eqn:Hc; cbn [bind]; [|eauto].
  exfalso. apply check_constraints_priority in Hc.
  exact (outside_sets_rejected _ _ _ _ _ Hout Hreq Hc).
Qed.

(** An update with a value outside the sets fails as soon as it reaches a
    row, and changes no row when it reaches none. *)
Lemma update_outside_sets_rejected db uid id r :
  outside_sets r ->
  (Exists (fun bl => reaches db uid id bl = true) (buyer_leads db) ->
   exists e, db_update_lead db uid id r = Err e)
  /\ (Forall (fun bl => reaches db uid id bl = false) (buyer_leads db) ->
      db_update_lead db uid id r = Ok (with_leads db (buyer_leads db))).
Proof.
  intros Hout. unfold db_update_lead.
  induction (buyer_leads db) as [|bl l [IHe IHf]].
  - split; [intros H; inversion H | reflexivity].
  - pose proof (update_row_outside_sets db uid id r bl Hout) as Hbl.
    cbn [map_result]. split.
    + intros H. destruct (reaches db uid id bl) eqn:Hr.
      * destruct Hbl as [e ->]. cbn. eauto.
      * rewrite Hbl. cbn [bind].
        inversion H as [? ? H1|? ? H1]; subst; [congruence|].
        destruct (IHe H1) as [e He].
        destruct (map_result _ l); [discriminate|]. cbn. eauto.
    + intros H. inversion H as [|? ? H1 H2]; subst.
      rewrite H1 in Hbl. rewrite Hbl. cbn [bind].
      specialize (IHf H2).
      destruct (map_result _ l) as [rows|]; [|discriminate].
      injection IHf as IHf. cbn. unfold with_leads in *. cbn in *.
      congruence.
Qed.

(** The sets are kept by every step of the store. *)
Lemma map_update_row_within_sets db uid id r l rows :
  Forall within_sets l ->
  map_result (update_row db uid id r) l = Ok rows ->
  Forall within_sets rows.
Proof.
  revert rows. induction l as [|bl l IH]; intros rows Hl H; cbn in H.
  - injection H as <-. constructor.
  - inversion Hl as [|? ? Hbl Hl']; subst.
    destruct (update_row db uid id r bl) as [bl'|] eqn:Hu; cbn [bind] in H;
      [|discriminate].
    destruct (map_result _ l) as [rows'|]; cbn [bind] in H; [|discriminate].
    injection H as <-. constructor; [|apply IH; [assumption|reflexivity]].
    unfold update_row in Hu. destruct (reaches db uid id bl).
    + bind_inv Hu. destruct a as [names row]. bind_inv Hu.
      injection Hu as <-. destruct a0.
      split; [|apply enums_listed].
      eapply check_constraints_priority. eassumption.
    + injection Hu as <-. assumption.
Qed.

Lemma step_within_sets db db' :
  step db db' -> Forall within_sets (buyer_leads db) ->
  Forall within_sets (buyer_leads db').
Proof.
  intros Hstep Hdb. destruct Hstep as [db uid r db' H|db uid id r db' H|db uid id|db db' H].
  - unfold db_insert_lead in H. bind_inv H. destruct a as [names row].
    bind_inv H. injection H as <-. cbn. destruct a0.
    apply Forall_app. split; [assumption|].
    constructor; [|constructor].
    split; [|apply enums_listed].
    eapply check_constraints_priority. eassumption.
  - unfold db_update_lead in H. bind_inv H. injection H as <-. cbn.
    eapply map_update_row_within_sets; eassumption.
  - unfold db_delete_lead. cbn [buyer_leads].
    apply List.Forall_forall. intros bl Hin. apply filter_In in Hin as [Hin _].
    rewrite List.Forall_forall in Hdb. auto.
  - rewrite H. assumption.
Qed.

Lemma reachable_within_sets db :
  reachable db -> Forall within_sets (buyer_leads db).
Proof.
  induction 1 as [db H|db db' _ IH Hstep].
  - rewrite H. constructor.
  - eapply step_within_sets; eassumption.
Qed.

Lemma with_leads_same db : with_leads db (buyer_leads db) = db.
Proof. destruct db; reflexivity. Qed.

(** C8 (amended). In every store reached through accepted statements,
    each lead has a priority that is NULL or one of 1..5, a status that is
    NULL or one of the five literals and a source that is NULL or one of
    the six literals. An insert that gives one of the three columns a
    value (not NULL) outside its set is rejected; an update that does so
    is rejected as soon as it reaches a row and changes nothing when it
    reaches none. A rejected statement yields no new state. *)
Theorem stored_leads_within_sets db :
  reachable db ->
  Forall within_sets (buyer_leads db)
  /\ forall uid r, outside_sets r ->
       (exists e, db_insert_lead db uid r = Err e)
       /\ forall id,
            (Exists (fun bl => reaches db uid id bl = true) (buyer_leads db) ->
             exists e, db_update_lead db uid id r = Err e)
            /\ (Forall (fun bl => reaches db uid id bl = false) (buyer_leads db) ->
                db_update_lead db uid id r = Ok db).
Proof.
  intros Hdb. split; [apply reachable_within_sets, Hdb|].
  intros uid r Hout. split; [apply insert_outside_sets_rejected, Hout|].
  intros id.
  destruct (update_outside_sets_rejected db uid id r Hout) as [He Hf].
  split; [exact He|]. intros H. rewrite (Hf H), with_leads_same. reflexivity.
Qed.

Lemma example_store_reachable : reachable store_with_null_priority.
Proof.
  eapply reachable_step.
  - apply (reachable_init empty_store). reflexivity.
  - eapply (step_insert empty_store (Some 2%N) insert_null_priority).
    reflexivity.
Qed.

Lemma set_priority_7_outside : outside_sets set_priority_7.
Proof.
  left. eexists. split; [reflexivity|].
  intros v [= <-]. cbn. intros H. decompose [or] H; discriminate || assumption.
Qed.

(** The store after one insert and [SET priority = 7]: the hypotheses of
    C8 hold. *)
Lemma stored_leads_within_sets_witness :
  reachable store_with_null_priority
  /\ outside_sets set_priority_7
  /\ Forall within_sets (buyer_leads store_with_null_priority)
  /\ exists e, db_update_lead store_with_null_priority (Some 2%N) 100%N
                 set_priority_7 = Err e.
Proof.
  split; [exact example_store_reachable|].
  split; [exact set_priority_7_outside|].
  destruct (stored_leads_within_sets store_with_null_priority
              example_store_reachable) as [Hall Hrej].
  split; [exact Hall|].
  destruct (Hrej (Some 2%N) set_priority_7 set_priority_7_outside) as [_ Hupd].
  destruct (Hupd 100%N) as [He _]. apply He.
  constructor. reflexivity.
Defined.

(** C8, as stated, fails: the store accepts the insert of a lead whose
    priority is NULL, and that stored lead has no priority in 1..5. The
    import sends such a NULL itself for a priority that is not a number. *)
Lemma null_priority_is_stored :
  db_insert_lead empty_store (Some 2%N) insert_null_priority
  = Ok store_with_null_priority
  /\ reachable store_with_null_priority
  /\ map bl_priority (buyer_leads store_with_null_priority) = [None]
  /\ ~ Forall (fun bl => exists p, bl_priority bl = Some p /\ In p [1; 2; 3; 4; 5])
              (buyer_leads store_with_null_priority)
  /\ exists db',
       handleFileImport has_at_sign empty_store 2%N worded_priority_csv
       = (import_completed {| success := 1; errors := []; total := 1 |}, db')
       /\ map bl_priority (buyer_leads db') = [None].
Proof.
  split; [reflexivity|]. split; [exact example_store_reachable|].
  split; [reflexivity|]. split.
  - intros H. inversion H as [|bl l (p & Hp & _) _]; subst. discriminate Hp.
  - eexists. split; vm_compute; reflexivity.
Qed.

(** ** Export *)

Lemma handleExport_of_store db user :
  handleExport db user
  = if (length (select_leads db user) =? 0)%nat then export_no_data
    else export_downloaded (csvContent (select_leads db user)).
Proof.
  unfold handleExport, answer_of_store, handleExport_from.
  cbn [answer_error answer_data].
  destruct (length (select_leads db user) =? 0)%nat; reflexivity.
Qed.

(** C9 (amended). When the caller sees no lead, the query of the export is
    answered with the empty list and no error, and the export ends in its
    early return: it writes no file, not even one of the header line
    alone, and shows the notice "No Data", "No leads found to export.", in
    the destructive style. It does not go through its failure branch:
    whatever the answer of the query, that branch is taken exactly when
    the answer carries an error, and a file is written exactly when the
    answer carries no error and at least one lead. *)
Theorem export_of_no_leads db user :
  visible_leads db (Some user) = [] ->
  answer_of_store db user = {| answer_data := Some []; answer_error := None |}
  /\ handleExport_from (answer_of_store db user)
     = (export_no_data,
        {| toast_title := "No Data";
           toast_description := "No leads found to export.";
           toast_variant_of := destructive |})
  /\ handleExport db user = export_no_data
  /\ (forall answer message,
        fst (handleExport_from answer) = export_failed message
        <-> exists m, answer_error answer = Some m
                      /\ message = if truthy m then m else "Failed to export leads")
  /\ (forall answer content,
        fst (handleExport_from answer) = export_downloaded content
        <-> answer_error answer = None
            /\ exists leads, answer_data answer = Some leads
                             /\ leads <> [] /\ content = csvContent leads).
Proof.
  intros H.
  assert (Hs : select_leads db user = []) by (unfold select_leads; rewrite H; reflexivity).
  split; [unfold answer_of_store; rewrite Hs; reflexivity|].
  split; [unfold answer_of_store, handleExport_from; rewrite Hs; reflexivity|].
  split; [rewrite handleExport_of_store, Hs; reflexivity|].
  split.
  - intros [data [m|]] message; unfold handleExport_from; cbn [answer_error answer_data fst].
    + split.
      * intros [= <-]. exists m. split; reflexivity.
      * intros (m' & [= <-] & ->). reflexivity.
    + split.
      * destruct data as [[|l ls]|]; discriminate.
      * intros (m' & Hm & _). discriminate Hm.
  - intros [data [m|]] content; unfold handleExport_from; cbn [answer_error answer_data fst].
    + split; [discriminate|]. intros [Hm _]. discriminate Hm.
    + split.
      * destruct data as [[|l ls]|]; try discriminate.
        intros [= <-]. split; [reflexivity|].
        exists (l :: ls). repeat split. discriminate.
      * intros (_ & leads & [= ->] & Hne & ->).
        destruct leads as [|l ls]; [congruence|reflexivity].
Qed.

(** A caller without profile sees no lead: the hypothesis of C9 holds. *)
Lemma export_of_no_leads_witness :
  visible_leads example_store (Some 9%N) = []
  /\ handleExport example_store 9%N = export_no_data.
Proof.
  split; [reflexivity|].
  apply (export_of_no_leads example_store 9%N). reflexivity.
Defined.

(** C9, as stated, fails: agent 2 sees no lead in the empty store, and the
    export gives no empty export. It writes no text at all, the header
    line alone included, and its notice has the destructive style, the one
    of the notice of a failed export. *)
Lemma export_of_no_leads_writes_no_file :
  visible_leads empty_store (Some 2%N) = []
  /\ csvContent []
     = "first_name,last_name,email,phone,budget_min,budget_max,preferred_areas,property_type,bedrooms,bathrooms,status,source,priority,notes,created_at"
  /\ handleExport empty_store 2%N <> export_downloaded (csvContent [])
  /\ (forall content, handleExport empty_store 2%N <> export_downloaded content)
  /\ toast_variant_of (snd (handleExport_from (answer_of_store empty_store 2%N)))
     = destructive
  /\ toast_variant_of
       (snd (handleExport_from {| answer_data := None; answer_error := Some "" |}))
     = destructive.
Proof.
  repeat split; try discriminate.
Qed.

(** ** Import *)

Section ImportProperties.

Variable is_email : string -> bool.

Lemma non_blank_lines_truthy text line :
  In line (non_blank_lines text) -> truthy (trim line) = true.
Proof. unfold non_blank_lines. intros H. apply filter_In in H as [_ H]. exact H. Qed.

Lemma skipn_In {A} (n : nat) (l : list A) (x : A) : In x (skipn n l) -> In x l.
Proof.
  revert l. induction n as [|n IH]; intros [|y l]; cbn; auto.
Qed.

(** C5. A text with fewer than two lines that are not blank, or whose
    header row lacks one of [first_name], [last_name], [email] after the
    normalisation of the header names, makes the import fail as a whole:
    the outcome is the failure message, no row is processed and the store
    is the one before. *)
Theorem malformed_input_fails_whole_import db user text :
  (length (non_blank_lines text) < 2)%nat
  \/ (exists field, In field requiredFields
                    /\ includes (headers_of (non_blank_lines text)) field = false) ->
  exists message,
    handleFileImport is_email db user text = (import_failed message, db).
Proof.
  intros H. unfold handleFileImport.
  destruct (Nat.ltb_spec (length (non_blank_lines text)) 2) as [Hlt|Hge].
  - eauto.
  - destruct H as [H|(field & Hin & Hmiss)]; [lia|].
    assert (Hm : In field (missingFields (headers_of (non_blank_lines text)))).
    { unfold missingFields. apply filter_In. rewrite Hmiss. auto. }
    destruct (missingFields (headers_of (non_blank_lines text))) as [|m ms] eqn:E.
    + destruct Hm.
    + cbn [length Nat.ltb Nat.leb]. eauto.
Qed.

(** The loop does what [rows_attempted] says, on top of the count and of
    the errors it starts with. *)
Lemma import_loop_attempts user headers dataLines :
  Forall (fun line => truthy (trim line) = true) dataLines ->
  forall i db successCount errors,
  exists db' n errs,
    rows_attempted is_email user headers i dataLines db db' n errs
    /\ import_loop is_email user headers dataLines i db successCount errors
       = (db', (successCount + n)%nat, (errors ++ errs)%list).
Proof.
  induction 1 as [|line rest Hline _ IH]; intros i db successCount errors.
  - exists db, 0%nat, []. split; [constructor|].
    cbn. rewrite Nat.add_0_r, app_nil_r. reflexivity.
  - cbn [import_loop]. rewrite Hline. cbn [negb].
    destruct (import_row is_email db user headers line) as [db1|e] eqn:Hrow.
    + destruct (IH (S i) db1 (S successCount) errors) as (db' & n & errs & Hrun & Heq).
      exists db', (S n), errs. split; [econstructor; eassumption|].
      rewrite Heq. f_equal. f_equal. lia.
    + destruct (IH (S i) db successCount
                   (errors ++ [ {| row := i + 2; error := e |} ])%list)
        as (db' & n & errs & Hrun & Heq).
      exists db', n, ({| row := i + 2; error := e |} :: errs).
      split; [econstructor; eassumption|].
      rewrite Heq, <- app_assoc. reflexivity.
Qed.

Lemma rows_attempted_count user headers i dataLines db db' n errs :
  rows_attempted is_email user headers i dataLines db db' n errs ->
  (n + length errs = length dataLines)%nat.
Proof. induction 1; cbn; lia. Qed.

(** Every recorded error belongs to a row that was attempted and failed:
    the row at offset [k] has row number [i + k + 2]. *)
Lemma rows_attempted_error user headers i dataLines db db' n errs e :
  rows_attempted is_email user headers i dataLines db db' n errs ->
  In e errs ->
  exists k line db_k,
    nth_error dataLines k = Some line
    /\ row e = (i + k + 2)%nat
    /\ import_row is_email db_k user headers line = Err (error e).
Proof.
  induction 1 as [i db|i line rest db db1 db' n errs Hrow _ IH
                 |i line rest db db' e' n errs Hrow _ IH]; intros Hin.
  - destruct Hin.
  - destruct (IH Hin) as (k & l & dbk & Hk & Hr & Hf).
    exists (S k), l, dbk. repeat split; [exact Hk|lia|exact Hf].
  - destruct Hin as [<-|Hin].
    + exists 0%nat, line, db. repeat split; [cbn; lia|exact Hrow].
    + destruct (IH Hin) as (k & l & dbk & Hk & Hr & Hf).
      exists (S k), l, dbk. repeat split; [exact Hk|lia|exact Hf].
Qed.

(** What [handleFileImport] does once the two checks are passed. *)
Lemma handleFileImport_completed db user text :
  (2 <= length (non_blank_lines text))%nat ->
  missingFields (headers_of (non_blank_lines text)) = [] ->
  exists db' n errs,
    rows_attempted is_email user (headers_of (non_blank_lines text)) 0
      (skipn 1 (non_blank_lines text)) db db' n errs
    /\ handleFileImport is_email db user text
       = (import_completed {| success := n; errors := errs;
                              total := length (skipn 1 (non_blank_lines text)) |},
          db').
Proof.
  intros Hlen Hmiss. unfold handleFileImport.
  destruct (Nat.ltb_spec (length (non_blank_lines text)) 2) as [Hlt|_]; [lia|].
  rewrite Hmiss. cbn [length Nat.ltb Nat.leb].
  destruct (import_loop_attempts user (headers_of (non_blank_lines text))
              (skipn 1 (non_blank_lines text))) with (i := 0%nat) (db := db)
              (successCount := 0%nat) (errors := @nil import_error)
    as (db' & n & errs & Hrun & Heq).
  { apply List.Forall_forall. intros line Hin.
    apply (non_blank_lines_truthy text). eapply skipn_In, Hin. }
  exists db', n, errs. split; [exact Hrun|].
  rewrite Heq. reflexivity.
Qed.

(** C6. Once the text has its two lines and its header row has the three
    required names, the import runs to its report: every data row is
    attempted in turn, whatever became of the rows before it
    ([rows_attempted]), the report counts all the data rows, and the
    successes and the recorded errors add up to that total. *)
Theorem every_row_is_attempted db user text :
  (2 <= length (non_blank_lines text))%nat ->
  missingFields (headers_of (non_blank_lines text)) = [] ->
  exists r db',
    handleFileImport is_email db user text = (import_completed r, db')
    /\ rows_attempted is_email user (headers_of (non_blank_lines text)) 0
         (skipn 1 (non_blank_lines text)) db db' (success r) (errors r)
    /\ total r = length (skipn 1 (non_blank_lines text))
    /\ (success r + length (errors r) = total r)%nat.
Proof.
  intros Hlen Hmiss.
  destruct (handleFileImport_completed db user text Hlen Hmiss)
    as (db' & n & errs & Hrun & Heq).
  eexists _, db'. split; [exact Heq|]. cbn.
  repeat split; [exact Hrun|].
  apply (rows_attempted_count _ _ _ _ _ _ _ _ Hrun).
Qed.

(** *** The insert of an imported row *)

Lemma column_given {A} (c : col A) : column c None Ok = Ok (given c).
Proof. destruct c; reflexivity. Qed.

Lemma may_insert_allowed db user row :
  may_insert db user -> lead_insert_allowed db (Some user) row = true.
Proof.
  intros H. rewrite lead_insert_allowed_role. destruct H as [-> | ->]; reflexivity.
Qed.

(** An importer who may insert gets the row stored as soon as its numbers
    and literals convert and its priority is in range. *)
Lemma insert_leadData db user v bmin bmax beds baths st so pr :
  may_insert db user ->
  column (in_budget_min (leadData v user)) None (to_numeric 12 2 "numeric") = Ok bmin ->
  column (in_budget_max (leadData v user)) None (to_numeric 12 2 "numeric") = Ok bmax ->
  column (in_bedrooms (leadData v user)) None to_integer = Ok beds ->
  column (in_bathrooms (leadData v user)) None (to_numeric 3 1 "numeric") = Ok baths ->
  column (in_status (leadData v user)) (Some new) to_lead_status = Ok st ->
  column (in_source (leadData v user)) (Some website) to_lead_source = Ok so ->
  column (in_priority (leadData v user)) (Some 3) to_integer = Ok pr ->
  priority_in_range (imported_lead db user v bmin bmax beds baths st so pr) ->
  db_insert_lead db (Some user) (leadData v user)
  = Ok (with_new_lead db (imported_lead db user v bmin bmax beds baths st so pr)).
Proof.
  intros Hrole H1 H2 H3 H4 H5 H6 H7 Hp.
  unfold db_insert_lead, requested_row.
  cbn [default_lead bl_id bl_created_by bl_assigned_to bl_first_name bl_last_name bl_email
       bl_phone bl_budget_min bl_budget_max bl_preferred_areas bl_property_type
       bl_bedrooms bl_bathrooms bl_status bl_source bl_priority bl_notes
       bl_last_contacted bl_next_follow_up bl_created_at bl_updated_at].
  rewrite H1, H2, H3, H4, H5, H6, H7, !column_given.
  cbn [bind leadData in_created_by in_assigned_to in_first_name in_last_name in_email
       in_last_contacted in_next_follow_up column given default id].
  fold (leadData v user).
  match goal with
  | |- context [lead_insert_allowed db (Some user) ?row] =>
      change row with (imported_lead db user v bmin bmax beds baths st so pr)
  end.
  rewrite may_insert_allowed by assumption. cbn [guard bind].
  unfold check_constraints. cbn [guard bind].
  apply priority_check_passes in Hp. rewrite Hp. reflexivity.
Qed.

(** *** Row numbers *)

Lemma nth_error_filter_prefix {A} (p : A -> bool) (l : list A) (m k : nat) :
  Forall (fun x => p x = true) (firstn m l) -> (k < m)%nat ->
  nth_error (List.filter p l) k = nth_error l k.
Proof.
  revert m k. induction l as [|x l IH]; intros m k Hall Hk; [reflexivity|].
  destruct m as [|m]; [lia|].
  cbn [firstn] in Hall. inversion Hall as [|? ? Hx Hl]; subst.
  cbn [List.filter]. rewrite Hx. destruct k as [|k]; [reflexivity|].
  cbn [nth_error]. apply (IH m). { exact Hl. } lia.
Qed.

Lemma nth_error_skipn_1 {A} (l : list A) (k : nat) :
  nth_error (skipn 1 l) k = nth_error l (S k).
Proof. destruct l; [destruct k|]; reflexivity. Qed.

Lemma import_row_first_name_missing db user :
  import_row is_email db user ["first_name"; "last_name"; "email"] ",Smith,jane@x.com"
  = Err (ZodError (z_string_min_1 "first_name" None
                   ++ z_string_email is_email "email" (Some "jane@x.com"))).
Proof.
  unfold import_row, import_values.
  set (vs := parseCsvLine _). vm_compute in vs. subst vs.
  unfold csvImportSchema_parse.
  repeat match goal with
         | |- context [rowData_of ?h ?v !! ?k] =>
             let t := eval vm_compute in (rowData_of h v !! k) in
             change (rowData_of h v !! k) with t
         end.
  reflexivity.
Qed.

Lemma import_row_john db user :
  is_email "john@x.com" = true -> may_insert db user ->
  exists db',
    import_row is_email db user ["first_name"; "last_name"; "email"] "John,Doe,john@x.com"
    = Ok db'
    /\ exists bl,
         db' = with_new_lead db bl
         /\ bl_first_name bl = "John" /\ bl_last_name bl = "Doe"
         /\ bl_email bl = "john@x.com"
         /\ bl_status bl = Some new /\ bl_source bl = Some other
         /\ bl_priority bl = Some 3.
Proof.
  intros He Hrole. unfold import_row, import_values.
  set (vs := parseCsvLine _). vm_compute in vs. subst vs.
  unfold csvImportSchema_parse.
  repeat match goal with
         | |- context [rowData_of ?h ?v !! ?k] =>
             let t := eval vm_compute in (rowData_of h v !! k) in
             change (rowData_of h v !! k) with t
         end.
  cbn [z_string_min_1 z_string_email String.length Nat.ltb Nat.leb app].
  rewrite He. cbn [app bind default id].
  erewrite insert_leadData; [|exact Hrole|reflexivity..|].
  - eexists. split; [reflexivity|]. eexists. split; [reflexivity|].
    cbn. repeat split.
  - cbn. tauto.
Qed.

(** The row number recorded with an error is [i + 2] for the [i]-th of the
    lines kept by the filter of blank lines: the position, counted from 1,
    of the failed row among the lines that are not blank. It is the line
    number in the file when no line of the file up to that row is blank.
    For an importer who may insert, and an address check that accepts
    [john@x.com], the file with the header [first_name,last_name,email]
    and the rows [John,Doe,john@x.com] and [,Smith,jane@x.com] gives 1
    success, a total of 2 and one error, a validation error with row 3. *)
Lemma error_row_is_position_among_non_blank_lines :
  (forall db user text r db' e,
     handleFileImport is_email db user text = (import_completed r, db') ->
     In e (errors r) ->
     exists k line db_k,
       (1 <= k)%nat /\ row e = (k + 1)%nat
       /\ nth_error (non_blank_lines text) k = Some line
       /\ import_row is_email db_k user (headers_of (non_blank_lines text)) line
          = Err (error e)
       /\ (Forall (fun l => truthy (trim l) = true) (firstn (row e) (split LF text)) ->
           nth_error (split LF text) (row e - 1) = Some line))
  /\ (forall db user,
        is_email "john@x.com" = true -> may_insert db user ->
        exists db' issues,
          handleFileImport is_email db user two_rows_csv
          = (import_completed
               {| success := 1;
                  errors := [ {| row := 3; error := ZodError issues |} ];
                  total := 2 |}, db')).
Proof.
  split.
  - intros db user text r db' e Himp Hin.
    destruct (Nat.ltb_spec (length (non_blank_lines text)) 2) as [Hlt|Hge].
    { unfold handleFileImport in Himp.
      destruct (Nat.ltb_spec (length (non_blank_lines text)) 2); [discriminate|lia]. }
    destruct (missingFields (headers_of (non_blank_lines text))) as [|m ms] eqn:Hm.
    2:{ unfold handleFileImport in Himp.
        destruct (Nat.ltb_spec (length (non_blank_lines text)) 2); [discriminate|].
        rewrite Hm in Himp. discriminate. }
    destruct (handleFileImport_completed db user text Hge Hm)
      as (db1 & n & errs & Hrun & Heq).
    rewrite Heq in Himp. injection Himp as <- <-. cbn [errors] in Hin.
    destruct (rows_attempted_error _ _ _ _ _ _ _ _ e Hrun Hin)
      as (k & line & dbk & Hk & Hrow & Hfail).
    rewrite nth_error_skipn_1 in Hk.
    exists (S k), line, dbk. repeat split; [lia|lia|exact Hk|exact Hfail|].
    intros Hall. rewrite <- Hk. symmetry.
    replace (row e - 1)%nat with (S k) by lia.
    apply (nth_error_filter_prefix _ _ (row e)); [exact Hall|lia].
  - intros db user He Hrole. unfold handleFileImport.
    set (lines := non_blank_lines two_rows_csv). vm_compute in lines. subst lines.
    cbn [length Nat.ltb Nat.leb].
    set (hs := headers_of _). vm_compute in hs. subst hs.
    set (ms := missingFields _). vm_compute in ms. subst ms.
    cbn [length Nat.ltb Nat.leb skipn import_loop].
    repeat (set (t := trim _); vm_compute in t; subst t).
    cbn [truthy negb].
    destruct (import_row_john db user He Hrole) as (db' & -> & _).
    rewrite import_row_first_name_missing.
    eexists _, _. reflexivity.
Qed.

(** *** The row object *)

Lemma forEach_header_shift headers index v values rowData :
  forEach_header headers (S index) (v :: values) rowData
  = forEach_header headers index values rowData.
Proof.
  revert index rowData. induction headers as [|h hs IH]; intros index rowData;
    [reflexivity|].
  cbn [forEach_header]. rewrite IH. reflexivity.
Qed.

Lemma assign_lookup_ne header value rowData key :
  header <> key -> assign header value rowData !! key = rowData !! key.
Proof.
  intros Hne. unfold assign. destruct (String.eqb header "__proto__"); [reflexivity|].
  apply lookup_insert_ne, Hne.
Qed.

Lemma assign_lookup_eq header value rowData :
  header <> "__proto__" -> assign header value rowData !! header = Some value.
Proof.
  intros Hne. unfold assign. apply String.eqb_neq in Hne. rewrite Hne.
  apply lookup_insert_eq.
Qed.

Lemma assign_lookup_proto header value rowData :
  assign header value rowData !! "__proto__" = rowData !! "__proto__".
Proof.
  unfold assign. destruct (String.eqb header "__proto__") eqn:He; [reflexivity|].
  apply String.eqb_neq in He. apply lookup_insert_ne, He.
Qed.

Lemma forEach_header_cons h hs v vs rowData :
  forEach_header (h :: hs) 0 (v :: vs) rowData
  = forEach_header hs 0 vs (if truthy v then assign h v rowData else rowData).
Proof. cbn [forEach_header]. rewrite forEach_header_shift. reflexivity. Qed.

Lemma forEach_header_falsy headers index values rowData :
  Forall (fun v => truthy v = false) values ->
  forEach_header headers index values rowData = rowData.
Proof.
  intros Hall. revert index rowData.
  induction headers as [|h hs IH]; intros index rowData; [reflexivity|].
  cbn [forEach_header]. rewrite IH.
  destruct (values !! index) as [v|] eqn:Hv; [|reflexivity].
  rewrite List.Forall_forall in Hall.
  rewrite (Hall v); [reflexivity|].
  apply list_elem_of_In. eapply list_elem_of_lookup_2, Hv.
Qed.

Lemma forEach_header_without_column h1 h h2 v1 v2 rowData :
  length h1 = length v1 ->
  forEach_header (h1 ++ h :: h2) 0 (v1 ++ "" :: v2) rowData
  = forEach_header (h1 ++ h2) 0 (v1 ++ v2) rowData.
Proof.
  revert v1 rowData. induction h1 as [|a h1 IH]; intros [|b v1] rowData Hlen;
    try discriminate.
  - cbn [app]. rewrite forEach_header_cons. reflexivity.
  - cbn [app]. rewrite !forEach_header_cons. apply IH.
    cbn in Hlen. congruence.
Qed.

Lemma forEach_header_padded headers values n rowData :
  forEach_header headers 0 (values ++ replicate n "") rowData
  = forEach_header headers 0 values rowData.
Proof.
  revert values rowData. induction headers as [|h hs IH]; intros values rowData;
    [reflexivity|].
  destruct values as [|v vs].
  - cbn [app]. rewrite !forEach_header_falsy; [reflexivity|constructor|].
    apply List.Forall_forall. intros v Hv. apply list_elem_of_In in Hv.
    apply elem_of_replicate in Hv as [-> _]. reflexivity.
  - cbn [app]. rewrite !forEach_header_cons. apply IH.
Qed.

Lemma forEach_header_lookup_None headers index values rowData key :
  rowData !! key = None ->
  (forall j, headers !! j = Some key ->
             values !! (index + j)%nat = None \/ values !! (index + j)%nat = Some "") ->
  forEach_header headers index values rowData !! key = None.
Proof.
  revert index rowData. induction headers as [|h hs IH]; intros index rowData Hk Hcells;
    [exact Hk|].
  cbn [forEach_header]. apply IH.
  - destruct (values !! index) as [v|] eqn:Hv; [|exact Hk].
    destruct (truthy v) eqn:Ht; [|exact Hk].
    destruct (decide (h = key)) as [->|Hne].
    + specialize (Hcells 0%nat eq_refl). rewrite Nat.add_0_r, Hv in Hcells.
      destruct Hcells as [Hc|Hc]; [discriminate|].
      injection Hc as ->. discriminate Ht.
    + rewrite assign_lookup_ne by exact Hne. exact Hk.
  - intros j Hj. specialize (Hcells (S j) Hj).
    replace (S index + j)%nat with (index + S j)%nat by lia. exact Hcells.
Qed.

Lemma forEach_header_lookup_other headers index values rowData key :
  ~ In key headers ->
  forEach_header headers index values rowData !! key = rowData !! key.
Proof.
  revert index rowData. induction headers as [|h hs IH]; intros index rowData Hnot;
    [reflexivity|].
  cbn [forEach_header]. rewrite IH by (intros H; apply Hnot; right; exact H).
  assert (Hne : h <> key) by (intros ->; apply Hnot; left; reflexivity).
  destruct (values !! index) as [v|]; [|reflexivity].
  destruct (truthy v); [|reflexivity].
  apply assign_lookup_ne, Hne.
Qed.

Lemma truthy_nonempty s : s <> "" -> truthy s = true.
Proof. destruct s; [congruence|reflexivity]. Qed.

Lemma assign_lookup_Some header value rowData key t :
  assign header value rowData !! key = Some t ->
  t = value \/ rowData !! key = Some t.
Proof.
  unfold assign. destruct (String.eqb header "__proto__"); [auto|].
  destruct (decide (header = key)) as [->|Hne].
  - rewrite lookup_insert_eq. intros [= <-]. left. reflexivity.
  - rewrite lookup_insert_ne by exact Hne. auto.
Qed.

Lemma forEach_header_truthy headers index values rowData key s :
  (forall k t, rowData !! k = Some t -> truthy t = true) ->
  forEach_header headers index values rowData !! key = Some s -> truthy s = true.
Proof.
  revert index rowData. induction headers as [|h hs IH]; intros index rowData Hall;
    [apply Hall|].
  cbn [forEach_header]. apply IH.
  destruct (values !! index) as [v|]; [|exact Hall].
  destruct (truthy v) eqn:Hv; [|exact Hall].
  intros k t Hk. apply assign_lookup_Some in Hk as [->|Hk]; [exact Hv|].
  eapply Hall, Hk.
Qed.

Lemma rowData_of_truthy headers values key s :
  rowData_of headers values !! key = Some s -> truthy s = true.
Proof.
  apply forEach_header_truthy. intros k t. rewrite lookup_empty. discriminate.
Qed.

Lemma truthy_length s : truthy s = true -> (String.length s <? 1)%nat = false.
Proof. destruct s; [discriminate|reflexivity]. Qed.

Lemma csvImportSchema_parse_required rowData field :
  In field requiredFields -> rowData !! field = None ->
  exists issues, csvImportSchema_parse is_email rowData = Err (ZodError issues).
Proof.
  intros Hin Hnone. unfold csvImportSchema_parse.
  destruct Hin as [<-|[<-|[<-|[]]]]; rewrite Hnone.
  - cbn [z_string_min_1 app]. eauto.
  - destruct (z_string_min_1 "first_name" _); cbn [z_string_min_1 app]; eauto.
  - destruct (z_string_min_1 "first_name" _), (z_string_min_1 "last_name" _);
      cbn [z_string_email app]; eauto.
Qed.

(** *** Defaults *)

Lemma csvImportSchema_parse_fields rowData v :
  csvImportSchema_parse is_email rowData = Ok v ->
  rowData !! "first_name" = Some (first_name v)
  /\ rowData !! "last_name" = Some (last_name v)
  /\ rowData !! "email" = Some (email v)
  /\ is_email (email v) = true
  /\ phone v = rowData !! "phone"
  /\ budget_min v = rowData !! "budget_min"
  /\ budget_max v = rowData !! "budget_max"
  /\ preferred_areas v = rowData !! "preferred_areas"
  /\ property_type v = rowData !! "property_type"
  /\ bedrooms v = rowData !! "bedrooms"
  /\ bathrooms v = rowData !! "bathrooms"
  /\ status v = rowData !! "status"
  /\ source v = rowData !! "source"
  /\ priority v = rowData !! "priority"
  /\ notes v = rowData !! "notes".
Proof.
  unfold csvImportSchema_parse, z_string_min_1, z_string_email.
  destruct (rowData !! "first_name") as [f|]; [|discriminate].
  destruct (String.length f <? 1)%nat; [discriminate|].
  destruct (rowData !! "last_name") as [l|]; [|discriminate].
  destruct (String.length l <? 1)%nat; [discriminate|].
  destruct (rowData !! "email") as [e|]; [|discriminate].
  destruct (is_email e) eqn:He; [|discriminate].
  cbn [app default id]. intros [= <-]. cbn. repeat split. exact He.
Qed.

Lemma requested_row_optional old text r names row :
  requested_row old text r = Ok (names, row) ->
  column (in_phone r) (bl_phone old) Ok = Ok (bl_phone row)
  /\ column (in_budget_min r) (bl_budget_min old) (to_numeric 12 2 "numeric")
     = Ok (bl_budget_min row)
  /\ column (in_budget_max r) (bl_budget_max old) (to_numeric 12 2 "numeric")
     = Ok (bl_budget_max row)
  /\ column (in_preferred_areas r) (bl_preferred_areas old) Ok
     = Ok (bl_preferred_areas row)
  /\ column (in_property_type r) (bl_property_type old) Ok = Ok (bl_property_type row)
  /\ column (in_bedrooms r) (bl_bedrooms old) to_integer = Ok (bl_bedrooms row)
  /\ column (in_bathrooms r) (bl_bathrooms old) (to_numeric 3 1 "numeric")
     = Ok (bl_bathrooms row)
  /\ column (in_notes r) (bl_notes old) Ok = Ok (bl_notes row).
Proof.
  intros H. unfold requested_row in H. bind_inv H.
  injection H as <- <-. cbn. repeat split; try assumption; reflexivity.
Qed.

(** What [leadData] holds for a key that the row object lacks. *)
Lemma leadData_of_missing rowData v user :
  csvImportSchema_parse is_email rowData = Ok v ->
  (rowData !! "status" = None -> in_status (leadData v user) = Val "new")
  /\ (rowData !! "source" = None -> in_source (leadData v user) = Val "other")
  /\ (rowData !! "priority" = None ->
      in_priority (leadData v user) = Val {| dec_m := 3; dec_e := 0 |})
  /\ (rowData !! "preferred_areas" = None ->
      in_preferred_areas (leadData v user) = Val [])
  /\ (rowData !! "phone" = None -> in_phone (leadData v user) = Null)
  /\ (rowData !! "budget_min" = None -> in_budget_min (leadData v user) = Null)
  /\ (rowData !! "budget_max" = None -> in_budget_max (leadData v user) = Null)
  /\ (rowData !! "property_type" = None -> in_property_type (leadData v user) = Null)
  /\ (rowData !! "bedrooms" = None -> in_bedrooms (leadData v user) = Null)
  /\ (rowData !! "bathrooms" = None -> in_bathrooms (leadData v user) = Null)
  /\ (rowData !! "notes" = None -> in_notes (leadData v user) = Null).
Proof.
  intros Hparse.
  destruct (csvImportSchema_parse_fields _ _ Hparse)
    as (_ & _ & _ & _ & Hph & Hbmin & Hbmax & Har & Hpt & Hbe & Hba & Hst & Hso & Hpr & Hno).
  cbn [leadData in_status in_source in_priority in_preferred_areas in_phone in_budget_min
       in_budget_max in_property_type in_bedrooms in_bathrooms in_notes].
  rewrite Hph, Hbmin, Hbmax, Har, Hpt, Hbe, Hba, Hst, Hso, Hpr, Hno.
  repeat split; intros ->; reflexivity.
Qed.

(** What [leadData] holds for a status and a source that the row object
    has: the text of the cell. *)
Lemma leadData_of_given rowData v user :
  csvImportSchema_parse is_email rowData = Ok v ->
  (forall s, rowData !! "status" = Some s -> truthy s = true ->
             in_status (leadData v user) = Val s)
  /\ (forall s, rowData !! "source" = Some s -> truthy s = true ->
                in_source (leadData v user) = Val s).
Proof.
  intros Hparse.
  destruct (csvImportSchema_parse_fields _ _ Hparse)
    as (_ & _ & _ & _ & _ & _ & _ & _ & _ & _ & _ & Hst & Hso & _).
  cbn [leadData in_status in_source]. rewrite Hst, Hso.
  split; intros s -> Ht; cbn [if_truthy]; rewrite Ht; reflexivity.
Qed.

(** A row that is stored has passed validation, and the lead that is added
    is the row the store makes of [leadData]. *)
Lemma import_values_stored db user headers values db' :
  import_values is_email db user headers values = Ok db' ->
  exists v names bl,
    csvImportSchema_parse is_email (rowData_of headers values) = Ok v
    /\ requested_row (default_lead db) (fun _ => None) (leadData v user) = Ok (names, bl)
    /\ db' = with_new_lead db bl.
Proof.
  unfold import_values. intros H.
  destruct (csvImportSchema_parse is_email (rowData_of headers values)) as [v|e];
    cbn [bind] in H; [|discriminate].
  destruct (db_insert_lead db (Some user) (leadData v user)) as [db1|e] eqn:Hins;
    [|discriminate].
  injection H as <-. unfold db_insert_lead in Hins.
  destruct (requested_row _ _ (leadData v user)) as [[names bl]|e] eqn:Hreq;
    cbn [bind] in Hins; [|discriminate].
  destruct (guard _ _) as [[]|e]; cbn [bind] in Hins; [|discriminate].
  destruct (check_constraints names bl) as [[]|e]; cbn [bind] in Hins; [|discriminate].
  injection Hins as <-. exists v, names, bl. repeat split; assumption.
Qed.

(** The row [John,Doe,john@x.com] under six headers: the three cells are
    stored, and the columns without cell get what [leadData] sends for
    them. *)
Lemma import_short_row db user :
  is_email "john@x.com" = true -> may_insert db user ->
  exists bl,
    import_values is_email db user
      ["first_name"; "last_name"; "email"; "phone"; "source"; "preferred_areas"]
      ["John"; "Doe"; "john@x.com"]
    = Ok (with_new_lead db bl)
    /\ bl_first_name bl = "John" /\ bl_last_name bl = "Doe"
    /\ bl_email bl = "john@x.com"
    /\ bl_phone bl = None
    /\ bl_source bl = Some other
    /\ bl_preferred_areas bl = Some []
    /\ bl_status bl = Some new
    /\ bl_priority bl = Some 3
    /\ bl_source (default_lead db) = Some website
    /\ bl_preferred_areas (default_lead db) = None.
Proof.
  intros He Hrole. unfold import_values, csvImportSchema_parse.
  repeat match goal with
         | |- context [rowData_of ?h ?v !! ?k] =>
             let t := eval vm_compute in (rowData_of h v !! k) in
             change (rowData_of h v !! k) with t
         end.
  cbn [z_string_min_1 z_string_email String.length Nat.ltb Nat.leb app].
  rewrite He. cbn [app bind default id].
  erewrite insert_leadData; [|exact Hrole|reflexivity..|].
  - eexists. split; [reflexivity|]. cbn. repeat split.
  - cbn. tauto.
Qed.

(** C10 (amended). A cell whose value is the empty string is left out of
    the row object, and a cell with a value is put in it under its header.
    Hence a row with an empty cell is the row without that column: the
    same object, the same outcome of the import. For an optional column,
    the row that passes validation is sent with the fallback of the import
    for it: status 'new', source 'other', priority 3, the empty list of
    preferred areas, NULL for each of the others; for [source] and
    [preferred_areas] that is not the default of the column, 'website' and
    NULL. A row whose cells under a required name are all empty fails
    validation. A row with fewer cells than headers is the row filled up
    with empty cells, and is stored when its required cells are there. *)
Theorem empty_cell_is_absent_column :
  (forall header headers index values rowData,
     values !! index = Some "" ->
     forEach_header (header :: headers) index values rowData
     = forEach_header headers (S index) values rowData)
  /\ (forall header headers index values rowData v,
        values !! index = Some v -> v <> "" ->
        header <> "__proto__" -> ~ In header headers ->
        forEach_header (header :: headers) index values rowData !! header = Some v)
  /\ (forall db user h1 h h2 v1 v2,
        length h1 = length v1 ->
        rowData_of (h1 ++ h :: h2) (v1 ++ "" :: v2) = rowData_of (h1 ++ h2) (v1 ++ v2)
        /\ import_values is_email db user (h1 ++ h :: h2) (v1 ++ "" :: v2)
           = import_values is_email db user (h1 ++ h2) (v1 ++ v2))
  /\ (forall user headers values validatedData field,
        csvImportSchema_parse is_email (rowData_of headers values) = Ok validatedData ->
        (forall j, headers !! j = Some field ->
                   values !! j = None \/ values !! j = Some "") ->
        rowData_of headers values !! field = None
        /\ (field = "status" -> in_status (leadData validatedData user) = Val "new")
        /\ (field = "source" -> in_source (leadData validatedData user) = Val "other")
        /\ (field = "priority" ->
            in_priority (leadData validatedData user) = Val {| dec_m := 3; dec_e := 0 |})
        /\ (field = "preferred_areas" ->
            in_preferred_areas (leadData validatedData user) = Val [])
        /\ (field = "phone" -> in_phone (leadData validatedData user) = Null)
        /\ (field = "budget_min" -> in_budget_min (leadData validatedData user) = Null)
        /\ (field = "budget_max" -> in_budget_max (leadData validatedData user) = Null)
        /\ (field = "property_type" ->
            in_property_type (leadData validatedData user) = Null)
        /\ (field = "bedrooms" -> in_bedrooms (leadData validatedData user) = Null)
        /\ (field = "bathrooms" -> in_bathrooms (leadData validatedData user) = Null)
        /\ (field = "notes" -> in_notes (leadData validatedData user) = Null))
  /\ (forall db user headers values field,
        In field requiredFields ->
        (forall j, headers !! j = Some field ->
                   values !! j = None \/ values !! j = Some "") ->
        exists issues,
          import_values is_email db user headers values = Err (ZodError issues))
  /\ (forall db user headers values n,
        rowData_of headers values = rowData_of headers (values ++ replicate n "")
        /\ import_values is_email db user headers values
           = import_values is_email db user headers (values ++ replicate n ""))
  /\ (forall db user,
        is_email "john@x.com" = true -> may_insert db user ->
        exists bl,
          import_values is_email db user
            ["first_name"; "last_name"; "email"; "phone"; "source"; "preferred_areas"]
            ["John"; "Doe"; "john@x.com"]
          = Ok (with_new_lead db bl)
          /\ bl_first_name bl = "John" /\ bl_last_name bl = "Doe"
          /\ bl_email bl = "john@x.com"
          /\ bl_phone bl = None
          /\ bl_source bl = Some other
          /\ bl_preferred_areas bl = Some []
          /\ bl_status bl = Some new
          /\ bl_priority bl = Some 3
          /\ bl_source (default_lead db) = Some website
          /\ bl_preferred_areas (default_lead db) = None).
Proof.
  split; [|split; [|split; [|split; [|split; [|split]]]]].
  - intros header headers index values rowData Hv.
    cbn [forEach_header]. rewrite Hv. reflexivity.
  - intros header headers index values rowData v Hv Hne Hproto Hnot.
    cbn [forEach_header]. rewrite Hv.
    rewrite forEach_header_lookup_other by exact Hnot.
    rewrite (truthy_nonempty v Hne). apply assign_lookup_eq, Hproto.
  - intros db user h1 h h2 v1 v2 Hlen. split.
    + apply forEach_header_without_column. assumption.
    + unfold import_values, rowData_of.
      rewrite forEach_header_without_column by assumption. reflexivity.
  - intros user headers values validatedData field Hparse Hcells.
    assert (Hnone : rowData_of headers values !! field = None)
      by (apply forEach_header_lookup_None; [apply lookup_empty|exact Hcells]).
    split; [exact Hnone|].
    destruct (leadData_of_missing _ _ user Hparse)
      as (H1 & H2 & H3 & H4 & H5 & H6 & H7 & H8 & H9 & H10 & H11).
    repeat split; intros ->; auto.
  - intros db user headers values field Hin Hcells. unfold import_values.
    destruct (csvImportSchema_parse_required (rowData_of headers values) field Hin)
      as [issues ->]; [|cbn; eauto].
    apply forEach_header_lookup_None; [apply lookup_empty|exact Hcells].
  - intros db user headers values n. split.
    + unfold rowData_of. rewrite forEach_header_padded. reflexivity.
    + unfold import_values, rowData_of. rewrite forEach_header_padded. reflexivity.
  - apply import_short_row.
Qed.

(** C4 (amended). For a row that passes validation and has no value in
    the source column, the lead that is sent, and stored when the insert
    goes through, has the source 'other'. The values the import puts in
    place of a missing one are status 'new', source 'other', priority 3
    and the empty list of preferred areas; every other optional column
    that is missing is sent as NULL, and a status or a source that is
    given is sent as it is. *)
Theorem import_default_source_is_other db user headers values validatedData :
  csvImportSchema_parse is_email (rowData_of headers values) = Ok validatedData ->
  (rowData_of headers values !! "source" = None ->
   in_source (leadData validatedData user) = Val "other")
  /\ (rowData_of headers values !! "status" = None ->
      in_status (leadData validatedData user) = Val "new")
  /\ (rowData_of headers values !! "priority" = None ->
      in_priority (leadData validatedData user) = Val {| dec_m := 3; dec_e := 0 |})
  /\ (rowData_of headers values !! "preferred_areas" = None ->
      in_preferred_areas (leadData validatedData user) = Val [])
  /\ (rowData_of headers values !! "phone" = None ->
      in_phone (leadData validatedData user) = Null)
  /\ (rowData_of headers values !! "budget_min" = None ->
      in_budget_min (leadData validatedData user) = Null)
  /\ (rowData_of headers values !! "budget_max" = None ->
      in_budget_max (leadData validatedData user) = Null)
  /\ (rowData_of headers values !! "property_type" = None ->
      in_property_type (leadData validatedData user) = Null)
  /\ (rowData_of headers values !! "bedrooms" = None ->
      in_bedrooms (leadData validatedData user) = Null)
  /\ (rowData_of headers values !! "bathrooms" = None ->
      in_bathrooms (leadData validatedData user) = Null)
  /\ (rowData_of headers values !! "notes" = None ->
      in_notes (leadData validatedData user) = Null)
  /\ (forall s, rowData_of headers values !! "status" = Some s ->
                in_status (leadData validatedData user) = Val s)
  /\ (forall s, rowData_of headers values !! "source" = Some s ->
                in_source (leadData validatedData user) = Val s)
  /\ (forall db',
        import_values is_email db user headers values = Ok db' ->
        exists bl,
          db' = with_new_lead db bl
          /\ (rowData_of headers values !! "source" = None -> bl_source bl = Some other)
          /\ (rowData_of headers values !! "status" = None -> bl_status bl = Some new)
          /\ (rowData_of headers values !! "priority" = None ->
              bl_priority bl = Some 3)
          /\ (rowData_of headers values !! "preferred_areas" = None ->
              bl_preferred_areas bl = Some [])
          /\ (rowData_of headers values !! "phone" = None -> bl_phone bl = None)
          /\ (rowData_of headers values !! "budget_min" = None ->
              bl_budget_min bl = None)
          /\ (rowData_of headers values !! "budget_max" = None ->
              bl_budget_max bl = None)
          /\ (rowData_of headers values !! "property_type" = None ->
              bl_property_type bl = None)
          /\ (rowData_of headers values !! "bedrooms" = None -> bl_bedrooms bl = None)
          /\ (rowData_of headers values !! "bathrooms" = None ->
              bl_bathrooms bl = None)
          /\ (rowData_of headers values !! "notes" = None -> bl_notes bl = None)
          /\ (forall s, rowData_of headers values !! "status" = Some s ->
                        lead_status_in s = Some (default new (bl_status bl))
                        /\ is_Some (bl_status bl))
          /\ (forall s, rowData_of headers values !! "source" = Some s ->
                        lead_source_in s = Some (default website (bl_source bl))
                        /\ is_Some (bl_source bl))).
Proof.
  intros Hparse.
  destruct (leadData_of_missing _ _ user Hparse)
    as (Mst & Mso & Mpr & Mar & Mph & Mbmin & Mbmax & Mpt & Mbe & Mba & Mno).
  destruct (leadData_of_given _ _ user Hparse) as (Gst & Gso).
  assert (Gst' : forall s, rowData_of headers values !! "status" = Some s ->
                           in_status (leadData validatedData user) = Val s)
    by (intros s Hs; apply Gst; [exact Hs|exact (rowData_of_truthy _ _ _ _ Hs)]).
  assert (Gso' : forall s, rowData_of headers values !! "source" = Some s ->
                           in_source (leadData validatedData user) = Val s)
    by (intros s Hs; apply Gso; [exact Hs|exact (rowData_of_truthy _ _ _ _ Hs)]).
  do 13 (split; [assumption|]).
  intros db' Himp.
  destruct (import_values_stored _ _ _ _ _ Himp) as (v & names & bl & Hv & Hreq & ->).
  rewrite Hparse in Hv. injection Hv as <-.
  exists bl. split; [reflexivity|].
  destruct (requested_row_constrained _ _ _ _ _ Hreq) as (Hst & Hso & Hpr).
  destruct (requested_row_optional _ _ _ _ _ Hreq)
    as (Hph & Hbmin & Hbmax & Har & Hpt & Hbe & Hba & Hno).
  repeat split.
  - intros E. rewrite (Mso E) in Hso. cbn in Hso. congruence.
  - intros E. rewrite (Mst E) in Hst. cbn in Hst. congruence.
  - intros E. rewrite (Mpr E) in Hpr.
    change (@Ok db_error _ (Some 3) = Ok (bl_priority bl)) in Hpr. congruence.
  - intros E. rewrite (Mar E) in Har. cbn in Har. congruence.
  - intros E. rewrite (Mph E) in Hph. cbn in Hph. congruence.
  - intros E. rewrite (Mbmin E) in Hbmin. cbn in Hbmin. congruence.
  - intros E. rewrite (Mbmax E) in Hbmax. cbn in Hbmax. congruence.
  - intros E. rewrite (Mpt E) in Hpt. cbn in Hpt. congruence.
  - intros E. rewrite (Mbe E) in Hbe. cbn in Hbe. congruence.
  - intros E. rewrite (Mba E) in Hba. cbn in Hba. congruence.
  - intros E. rewrite (Mno E) in Hno. cbn in Hno. congruence.
  - rewrite (Gst' s H) in Hst. cbn [column] in Hst. unfold to_lead_status in Hst.
    destruct (lead_status_in s) as [st|]; cbn [bind] in Hst; [|discriminate].
    injection Hst as <-. reflexivity.
  - rewrite (Gst' s H) in Hst. cbn [column] in Hst. unfold to_lead_status in Hst.
    destruct (lead_status_in s) as [st|]; cbn [bind] in Hst; [|discriminate].
    injection Hst as <-. eauto.
  - rewrite (Gso' s H) in Hso. cbn [column] in Hso. unfold to_lead_source in Hso.
    destruct (lead_source_in s) as [so|]; cbn [bind] in Hso; [|discriminate].
    injection Hso as <-. reflexivity.
  - rewrite (Gso' s H) in Hso. cbn [column] in Hso. unfold to_lead_source in Hso.
    destruct (lead_source_in s) as [so|]; cbn [bind] in Hso; [|discriminate].
    injection Hso as <-. eauto.
Qed.

End ImportProperties.

(** ** The import on examples *)

(** A header without [email]: the hypothesis of C5 holds. *)
Lemma malformed_input_fails_whole_import_witness :
  (exists field, In field requiredFields
                 /\ includes (headers_of (non_blank_lines no_email_csv)) field = false)
  /\ exists message,
       handleFileImport has_at_sign empty_store 2%N no_email_csv
       = (import_failed message, empty_store).
Proof.
  assert (H : exists field, In field requiredFields
                /\ includes (headers_of (non_blank_lines no_email_csv)) field = false).
  { exists "email". split; [cbn; tauto|vm_compute; reflexivity]. }
  split; [exact H|].
  apply (malformed_input_fails_whole_import has_at_sign empty_store 2%N no_email_csv).
  right. exact H.
Defined.

(** The file of two rows: the hypotheses of C6 hold. *)
Lemma every_row_is_attempted_witness :
  (2 <= length (non_blank_lines two_rows_csv))%nat
  /\ missingFields (headers_of (non_blank_lines two_rows_csv)) = []
  /\ exists r db',
       handleFileImport has_at_sign empty_store 2%N two_rows_csv
       = (import_completed r, db')
       /\ (success r + length (errors r) = total r)%nat.
Proof.
  assert (H1 : (2 <= length (non_blank_lines two_rows_csv))%nat)
    by (vm_compute; lia).
  assert (H2 : missingFields (headers_of (non_blank_lines two_rows_csv)) = [])
    by (vm_compute; reflexivity).
  split; [exact H1|]. split; [exact H2|].
  destruct (every_row_is_attempted has_at_sign empty_store 2%N two_rows_csv H1 H2)
    as (r & db' & Heq & _ & _ & Hsum).
  exists r, db'. split; assumption.
Defined.

Lemma agent_may_insert : may_insert empty_store 2%N.
Proof. right. reflexivity. Qed.

(** Agent 2 and the file of two rows. *)
Lemma error_row_is_position_among_non_blank_lines_witness :
  has_at_sign "john@x.com" = true
  /\ may_insert empty_store 2%N
  /\ exists db' issues,
       handleFileImport has_at_sign empty_store 2%N two_rows_csv
       = (import_completed
            {| success := 1;
               errors := [ {| row := 3; error := ZodError issues |} ];
               total := 2 |}, db').
Proof.
  split; [reflexivity|]. split; [exact agent_may_insert|].
  destruct (error_row_is_position_among_non_blank_lines has_at_sign) as [_ H].
  apply (H empty_store 2%N); [reflexivity|exact agent_may_insert].
Defined.

(** C7. The number recorded with a failed row is meant to be its line
    number in the file: the source says so where it computes [i + 2]. The
    lines are numbered after the blank ones have been filtered out, so the
    number falls short once a blank line stands before the row. In the file
    whose second line is empty, the row [,Smith,jane@x.com] is line 3 of
    the file; agent 2 imports the file, and the one error of the report,
    the validation error of that row, has row 2, the number of the empty
    line. *)
Theorem blank_line_shifts_row_number :
  split LF blank_line_csv = ["first_name,last_name,email"; ""; ",Smith,jane@x.com"]
  /\ nth_error (split LF blank_line_csv) (3 - 1)%nat = Some ",Smith,jane@x.com"
  /\ nth_error (split LF blank_line_csv) (2 - 1)%nat = Some ""
  /\ handleFileImport has_at_sign empty_store 2%N blank_line_csv
     = (import_completed
          {| success := 0;
             errors := [ {| row := 2;
                            error := ZodError [ {| path := "first_name";
                                                   code := "invalid_type" |} ] |} ];
             total := 1 |}, empty_store).
Proof. repeat split; vm_compute; reflexivity. Qed.

(** When viewer 4 imports the file of two rows, no row is stored: the
    insert policy refuses the first row and the second fails validation. *)
Lemma viewer_import_stores_nothing :
  handleFileImport has_at_sign empty_store 4%N two_rows_csv
  = (import_completed
       {| success := 0;
          errors := [ {| row := 2;
                         error := PostgrestError
                                    (row_security_violation "buyer_leads") |};
                      {| row := 3;
                         error := ZodError [ {| path := "first_name";
                                                code := "invalid_type" |} ] |} ];
          total := 2 |}, empty_store).
Proof. vm_compute. reflexivity. Qed.

(** An empty phone cell, a source column without cell, an empty first
    name, a row of three cells under six headers: the hypotheses of C10
    hold. *)
Lemma empty_cell_is_absent_column_witness :
  length ["first_name"] = length ["John"]
  /\ rowData_of (["first_name"] ++ "phone" :: ["last_name"; "email"])
                (["John"] ++ "" :: ["Doe"; "john@x.com"])
     = rowData_of (["first_name"] ++ ["last_name"; "email"])
                  (["John"] ++ ["Doe"; "john@x.com"])
  /\ forEach_header ["email"] 2 ["John"; "Doe"; "john@x.com"] ∅ !! "email"
     = Some "john@x.com"
  /\ in_source (leadData john_doe 2%N) = Val "other"
  /\ In "first_name" requiredFields
  /\ (exists issues,
        import_values has_at_sign empty_store 2%N
          ["first_name"; "last_name"; "email"] [""; "Smith"; "jane@x.com"]
        = Err (ZodError issues))
  /\ has_at_sign "john@x.com" = true
  /\ may_insert empty_store 2%N
  /\ exists bl,
       import_values has_at_sign empty_store 2%N
         ["first_name"; "last_name"; "email"; "phone"; "source"; "preferred_areas"]
         ["John"; "Doe"; "john@x.com"]
       = Ok (with_new_lead empty_store bl)
       /\ bl_source bl = Some other /\ bl_preferred_areas bl = Some [].
Proof.
  destruct (empty_cell_is_absent_column has_at_sign)
    as (_ & Hrec & Hsame & Hfall & Hreq & _ & Hshort).
  split; [reflexivity|].
  split; [apply (Hsame empty_store 2%N); reflexivity|].
  split.
  { apply Hrec; [reflexivity|discriminate|discriminate|intros []]. }
  split.
  { apply (Hfall 2%N ["first_name"; "last_name"; "email"; "source"]
                 ["John"; "Doe"; "john@x.com"; ""] john_doe "source");
      [vm_compute; reflexivity| |reflexivity].
    intros [|[|[|[|j]]]]; cbn; intros [=]. right. reflexivity. }
  split; [left; reflexivity|].
  split.
  { apply (Hreq empty_store 2%N
             ["first_name"; "last_name"; "email"] [""; "Smith"; "jane@x.com"]
             "first_name"); [left; reflexivity|].
    intros [|[|[|j]]]; cbn; intros [=]. right. reflexivity. }
  split; [reflexivity|]. split; [exact agent_may_insert|].
  destruct (Hshort empty_store 2%N eq_refl agent_may_insert)
    as (bl & Himp & _ & _ & _ & _ & Hso & Har & _).
  exists bl. repeat split; assumption.
Defined.

(** C10, as stated, fails: agent 2 imports a row whose cells under
    [source] and [preferred_areas] are empty. The row is stored as the
    row of the file without the two columns is, but not with the stored
    defaults of the columns, 'website' and NULL: its source is 'other' and
    its preferred areas are the empty list. *)
Lemma empty_cell_gets_import_fallback :
  map parseCsvLine (skipn 1 (non_blank_lines empty_cells_csv))
  = [["John"; "Doe"; "john@x.com"; ""; ""]]
  /\ bl_source (default_lead empty_store) = Some website
  /\ bl_preferred_areas (default_lead empty_store) = None
  /\ exists db',
       handleFileImport has_at_sign empty_store 2%N empty_cells_csv
       = (import_completed {| success := 1; errors := []; total := 1 |}, db')
       /\ handleFileImport has_at_sign empty_store 2%N one_row_csv
          = (import_completed {| success := 1; errors := []; total := 1 |}, db')
       /\ map bl_source (buyer_leads db') = [Some other]
       /\ map bl_source (buyer_leads db') <> [Some website]
       /\ map bl_preferred_areas (buyer_leads db') = [Some []]
       /\ map bl_preferred_areas (buyer_leads db') <> [None].
Proof.
  split; [vm_compute; reflexivity|]. split; [reflexivity|]. split; [reflexivity|].
  eexists. split; [vm_compute; reflexivity|]. split; [vm_compute; reflexivity|].
  split; [reflexivity|]. split; [discriminate|]. split; [reflexivity|discriminate].
Qed.

(** The row [John,Doe,john@x.com]: the hypothesis of C4 holds. *)
Lemma import_default_source_is_other_witness :
  csvImportSchema_parse has_at_sign
    (rowData_of ["first_name"; "last_name"; "email"] ["John"; "Doe"; "john@x.com"])
  = Ok john_doe
  /\ rowData_of ["first_name"; "last_name"; "email"] ["John"; "Doe"; "john@x.com"]
     !! "source" = None
  /\ in_source (leadData john_doe 2%N) = Val "other".
Proof.
  assert (H1 : csvImportSchema_parse has_at_sign
                 (rowData_of ["first_name"; "last_name"; "email"]
                             ["John"; "Doe"; "john@x.com"]) = Ok john_doe)
    by (vm_compute; reflexivity).
  assert (H2 : rowData_of ["first_name"; "last_name"; "email"]
                          ["John"; "Doe"; "john@x.com"] !! "source" = None)
    by (vm_compute; reflexivity).
  split; [exact H1|]. split; [exact H2|].
  destruct (import_default_source_is_other has_at_sign empty_store 2%N _ _ _ H1)
    as (Hsource & _).
  apply Hsource, H2.
Defined.

(** C4, as stated, fails: agent 2 imports the header and the row
    [John,Doe,john@x.com], which has no source column; the row is stored
    with the source 'other', not 'website', and with the empty list of
    preferred areas, where the column default is NULL. *)
Lemma import_without_source_stores_other :
  has_at_sign "john@x.com" = true
  /\ exists db',
       handleFileImport has_at_sign empty_store 2%N one_row_csv
       = (import_completed {| success := 1; errors := []; total := 1 |}, db')
       /\ map bl_source (buyer_leads db') = [Some other]
       /\ map bl_source (buyer_leads db') <> [Some website]
       /\ map bl_preferred_areas (buyer_leads db') = [Some []].
Proof.
  split; [reflexivity|]. eexists. split; [vm_compute; reflexivity|].
  split; [reflexivity|]. split; [discriminate|reflexivity].
Qed.

(** ** Export and import again *)

(** ** Text *)

Lemma append_cons c (s t : string) : String c s +:+ t = String c (s +:+ t).
Proof. reflexivity. Qed.

Lemma append_nil_r (s : string) : s +:+ "" = s.
Proof.
  induction s as [|c s IH]; [reflexivity|]. rewrite append_cons, IH. reflexivity.
Qed.

Lemma append_assoc (s t u : string) : (s +:+ t) +:+ u = s +:+ (t +:+ u).
Proof.
  induction s as [|c s IH]; [reflexivity|].
  rewrite !append_cons, IH. reflexivity.
Qed.

Lemma includes_char_append c s t :
  includes_char c (s +:+ t) = includes_char c s || includes_char c t.
Proof.
  induction s as [|a s IH]; [reflexivity|].
  rewrite append_cons. cbn [includes_char]. rewrite IH, orb_assoc. reflexivity.
Qed.

(** *** Lines *)

Lemma split_none sep s :
  includes_char sep s = false -> split sep s = [s].
Proof.
  induction s as [|c s IH]; [reflexivity|].
  cbn [includes_char split]. intros H. apply orb_false_elim in H as [Hc Hs].
  rewrite Hc, (IH Hs). reflexivity.
Qed.

Lemma split_append sep s t :
  includes_char sep s = false ->
  split sep (s +:+ String sep t) = s :: split sep t.
Proof.
  induction s as [|c s IH]; intros H.
  - change (split sep (String sep t) = "" :: split sep t).
    cbn [split]. rewrite Ascii.eqb_refl. reflexivity.
  - cbn [includes_char] in H. apply orb_false_elim in H as [Hc Hs].
    rewrite append_cons. cbn [split]. rewrite Hc, (IH Hs). reflexivity.
Qed.

Lemma split_join sep (l : list string) :
  l <> [] -> Forall (fun s => includes_char sep s = false) l ->
  split sep (join (String sep "") l) = l.
Proof.
  induction l as [|x l IH]; [congruence|]. intros _ Hall.
  inversion Hall as [|? ? Hx Hl]; subst.
  destruct l as [|y l].
  - cbn [join]. apply split_none, Hx.
  - change (join (String sep "") (x :: y :: l))
      with (x +:+ String sep "" +:+ join (String sep "") (y :: l)).
    change (String sep "" +:+ join (String sep "") (y :: l))
      with (String sep (join (String sep "") (y :: l))).
    rewrite split_append by exact Hx. rewrite IH; [reflexivity|discriminate|exact Hl].
Qed.

(** *** Trimming *)

Lemma trimEnd_truthy c s :
  includes_char c s = true -> is_white_space c = false -> truthy (trimEnd s) = true.
Proof.
  induction s as [|a s IH]; [discriminate|].
  cbn [includes_char trimEnd]. intros H Hc.
  destruct (trimEnd s) eqn:Ht; [|reflexivity].
  destruct (Ascii.eqb_spec a c) as [->|Hne].
  - rewrite Hc. reflexivity.
  - cbn [orb] in H. specialize (IH H Hc). discriminate IH.
Qed.

Lemma trimStart_includes c s :
  is_white_space c = false -> includes_char c (trimStart s) = includes_char c s.
Proof.
  intros Hc. induction s as [|a s IH]; [reflexivity|].
  cbn [trimStart]. destruct (is_white_space a) eqn:Ha; [|reflexivity].
  rewrite IH. cbn [includes_char].
  destruct (Ascii.eqb_spec a c) as [->|]; [congruence|reflexivity].
Qed.

Lemma trim_truthy c s :
  includes_char c s = true -> is_white_space c = false -> truthy (trim s) = true.
Proof.
  intros H Hc. unfold trim. apply (trimEnd_truthy c); [|exact Hc].
  rewrite trimStart_includes; assumption.
Qed.


Lemma trimStart_fixed s : trimStart s = s <-> starts_clean s = true.
Proof.
  destruct s as [|c s]; [tauto|]. cbn [trimStart starts_clean].
  destruct (is_white_space c) eqn:Hc; cbn; [|tauto].
  split; [|discriminate]. intros H.
  assert (Hlen : (String.length (trimStart s) <= String.length s)%nat).
  { clear. induction s as [|a s IH]; cbn; [lia|]. destruct (is_white_space a); cbn; lia. }
  rewrite H in Hlen. cbn in Hlen. lia.
Qed.

Lemma trimEnd_fixed s : trimEnd s = s <-> ends_clean s = true.
Proof.
  induction s as [|c s IH]; [cbn; tauto|].
  cbn [trimEnd]. destruct s as [|d s].
  - cbn. destruct (is_white_space c); cbn; split; congruence.
  - change (ends_clean (String c (String d s))) with (ends_clean (String d s)).
    rewrite <- IH. destruct (trimEnd (String d s)) eqn:Ht.
    + split; [|congruence].
      destruct (is_white_space c); discriminate.
    + split; congruence.
Qed.

Lemma trim_fixed s : trim s = s <-> starts_clean s = true /\ ends_clean s = true.
Proof.
  unfold trim. split.
  - intros H. assert (Hs : starts_clean s = true).
    { destruct (starts_clean s) eqn:E; [reflexivity|].
      destruct s as [|c s]; [discriminate|]. cbn in E.
      apply negb_false_iff in E.
      assert (Hlen : (String.length (trimEnd (trimStart (String c s)))
                      <= String.length s)%nat).
      { cbn [trimStart]. rewrite E.
        transitivity (String.length (trimStart s)).
        - generalize (trimStart s). clear. intros s.
          induction s as [|a s IH]; cbn; [lia|].
          destruct (trimEnd s); [destruct (is_white_space a)|]; cbn in *; lia.
        - clear. induction s as [|a s IH]; cbn; [lia|].
          destruct (is_white_space a); cbn; lia. }
      rewrite H in Hlen. cbn in Hlen. lia. }
    split; [exact Hs|]. apply trimStart_fixed in Hs. rewrite Hs in H.
    apply trimEnd_fixed, H.
  - intros [Hs He]. apply trimStart_fixed in Hs. rewrite Hs.
    apply trimEnd_fixed, He.
Qed.

(** ** Numbers *)


Ltac digit_cases k H :=
  let E := fresh "E" in
  assert (E : k = 0 \/ k = 1 \/ k = 2 \/ k = 3 \/ k = 4 \/ k = 5 \/ k = 6
              \/ k = 7 \/ k = 8 \/ k = 9) by lia;
  clear H;
  destruct E as [E|[E|[E|[E|[E|[E|[E|[E|[E|E]]]]]]]]]; rewrite E.

Lemma digit_digit_char k : 0 <= k < 10 -> digit 10 (digit_char k) = Some k.
Proof. intros H. digit_cases k H; reflexivity. Qed.

Lemma numeric_digit_char k : 0 <= k < 10 -> numeric_char (digit_char k) = true.
Proof. intros H. digit_cases k H; reflexivity. Qed.

Lemma digits_digit_char k s acc count :
  0 <= k < 10 ->
  digits 10 (String (digit_char k) s) acc count = digits 10 s (acc * 10 + k) (count + 1).
Proof. intros H. cbn [digits]. rewrite digit_digit_char by exact H. reflexivity. Qed.

Lemma digits_before_append fuel n tail :
  digits_before fuel n tail = digits_before fuel n "" +:+ tail.
Proof.
  revert n tail. induction fuel as [|fuel IH]; intros n tail; [reflexivity|].
  cbn [digits_before]. destruct (n <? 10); [reflexivity|].
  rewrite IH, (IH _ (String _ "")), append_assoc. reflexivity.
Qed.

Lemma digits_before_S fuel n tail :
  digits_before (S fuel) n tail
  = if n <? 10 then String (digit_char (n mod 10)) tail
    else digits_before fuel (n / 10) (String (digit_char (n mod 10)) tail).
Proof. reflexivity. Qed.

(** Reading back the digits that were written. *)
Lemma digits_digits_before fuel n tail acc count :
  0 <= n < 10 ^ Z.of_nat (S fuel) ->
  exists len,
    1 <= len
    /\ digits 10 (digits_before (S fuel) n tail) acc count
       = digits 10 tail (acc * 10 ^ len + n) (count + len).
Proof.
  revert n tail. induction fuel as [|fuel IH]; intros n tail Hn.
  - exists 1. split; [lia|]. rewrite digits_before_S.
    change (10 ^ Z.of_nat 1) with 10 in Hn.
    destruct (Z.ltb_spec n 10); [|lia].
    rewrite Z.mod_small by lia. rewrite digits_digit_char by lia.
    rewrite Z.pow_1_r. reflexivity.
  - rewrite digits_before_S. destruct (Z.ltb_spec n 10) as [Hlt|Hge].
    + exists 1. split; [lia|].
      rewrite Z.mod_small by lia. rewrite digits_digit_char by lia.
      rewrite Z.pow_1_r. reflexivity.
    + assert (Hd : 0 <= n / 10 < 10 ^ Z.of_nat (S fuel)).
      { split; [apply Z.div_pos; lia|].
        apply Z.div_lt_upper_bound; [lia|].
        replace (Z.of_nat (S (S fuel))) with (Z.succ (Z.of_nat (S fuel))) in Hn by lia.
        rewrite Z.pow_succ_r in Hn by lia. lia. }
      destruct (IH (n / 10) (String (digit_char (n mod 10)) tail) Hd)
        as (len & Hlen & Heq).
      exists (len + 1). split; [lia|].
      rewrite Heq.
      rewrite digits_digit_char by (apply Z.mod_pos_bound; lia).
      f_equal; [|lia].
      rewrite Z.pow_add_r, Z.pow_1_r by lia. pose proof (Z.div_mod n 10). lia.
Qed.

Lemma digits_fixed_digits count n tail acc c :
  0 <= n < 10 ^ Z.of_nat count ->
  digits 10 (fixed_digits count n tail) acc c
  = digits 10 tail (acc * 10 ^ Z.of_nat count + n) (c + Z.of_nat count).
Proof.
  revert n tail. induction count as [|count IH]; intros n tail Hn.
  - cbn [fixed_digits]. change (10 ^ Z.of_nat 0) with 1 in *.
    f_equal; cbn; lia.
  - cbn [fixed_digits].
    assert (Hd : 0 <= n / 10 < 10 ^ Z.of_nat count).
    { split; [apply Z.div_pos; lia|].
      apply Z.div_lt_upper_bound; [lia|].
      replace (Z.of_nat (S count)) with (Z.succ (Z.of_nat count)) in Hn by lia.
      rewrite Z.pow_succ_r in Hn by lia. lia. }
    rewrite IH by exact Hd.
    rewrite digits_digit_char by (apply Z.mod_pos_bound; lia).
    f_equal; [|lia].
    replace (Z.of_nat (S count)) with (Z.succ (Z.of_nat count)) by lia.
    rewrite Z.pow_succ_r by lia. pose proof (Z.div_mod n 10). lia.
Qed.

Lemma natural_fuel n :
  0 <= n -> 0 <= n < 10 ^ Z.of_nat (S (Z.to_nat (Z.log2 n))).
Proof.
  intros Hn. split; [exact Hn|].
  pose proof (Z.log2_nonneg n) as Hl.
  replace (Z.of_nat (S (Z.to_nat (Z.log2 n)))) with (Z.succ (Z.log2 n)) by lia.
  destruct (Z.eq_dec n 0) as [->|Hne].
  - cbn. lia.
  - pose proof (Z.log2_spec n ltac:(lia)) as [_ Hlt].
    eapply Z.lt_le_trans; [exact Hlt|].
    apply Z.pow_le_mono_l. lia.
Qed.

Lemma digits_natural n tail acc count :
  0 <= n ->
  exists len,
    1 <= len
    /\ digits 10 (natural_to_string n +:+ tail) acc count
       = digits 10 tail (acc * 10 ^ len + n) (count + len).
Proof.
  intros Hn. unfold natural_to_string. rewrite <- digits_before_append.
  apply digits_digits_before, natural_fuel, Hn.
Qed.

Lemma all_chars_append p s t :
  all_chars p (s +:+ t) = all_chars p s && all_chars p t.
Proof.
  induction s as [|c s IH]; [reflexivity|].
  rewrite append_cons. cbn [all_chars]. rewrite IH, andb_assoc. reflexivity.
Qed.

Lemma all_chars_includes p c s :
  all_chars p s = true -> p c = false -> includes_char c s = false.
Proof.
  intros Hs Hc. induction s as [|a s IH]; [reflexivity|].
  cbn [all_chars] in Hs. apply andb_prop in Hs as [Ha Hs].
  cbn [includes_char]. rewrite (IH Hs), orb_false_r.
  destruct (Ascii.eqb_spec a c) as [->|]; [congruence|reflexivity].
Qed.

Lemma numeric_mod_10 n : numeric_char (digit_char (n mod 10)) = true.
Proof. apply numeric_digit_char, Z.mod_pos_bound. lia. Qed.

Lemma numeric_digits_before fuel n tail :
  all_chars numeric_char tail = true ->
  all_chars numeric_char (digits_before fuel n tail) = true.
Proof.
  revert n tail. induction fuel as [|fuel IH]; intros n tail Ht; [exact Ht|].
  rewrite digits_before_S.
  assert (H : all_chars numeric_char (String (digit_char (n mod 10)) tail) = true).
  { cbn [all_chars]. rewrite numeric_mod_10, Ht. reflexivity. }
  destruct (n <? 10); [exact H|apply IH, H].
Qed.

Lemma numeric_fixed_digits count n tail :
  all_chars numeric_char tail = true ->
  all_chars numeric_char (fixed_digits count n tail) = true.
Proof.
  revert n tail. induction count as [|count IH]; intros n tail Ht; [exact Ht|].
  cbn [fixed_digits]. apply IH. cbn [all_chars]. rewrite numeric_mod_10, Ht. reflexivity.
Qed.

Lemma numeric_fraction scale v :
  all_chars numeric_char (fraction_to_string scale v) = true.
Proof.
  revert v. induction scale as [|scale IH]; intros v.
  - apply numeric_digits_before. reflexivity.
  - cbn [fraction_to_string]. destruct (v mod 10 =? 0); [apply IH|].
    rewrite all_chars_append. cbn [all_chars].
    unfold natural_to_string. rewrite numeric_digits_before by reflexivity.
    rewrite numeric_fixed_digits by reflexivity. reflexivity.
Qed.

Lemma numeric_number scale v :
  all_chars numeric_char (js_to_string (js_number scale v)) = true.
Proof.
  cbn [js_to_string]. destruct (v <? 0); [cbn [all_chars]|]; rewrite numeric_fraction;
    reflexivity.
Qed.


Lemma digit_headed_append s t : digit_headed s -> digit_headed (s +:+ t).
Proof. intros (k & rest & Hk & ->). exists k, (rest +:+ t). split; [exact Hk|reflexivity]. Qed.

Lemma digit_headed_digits_before fuel n k tail :
  0 <= k < 10 -> digit_headed (digits_before fuel n (String (digit_char k) tail)).
Proof.
  revert n k tail. induction fuel as [|fuel IH]; intros n k tail Hk.
  - exists k, tail. split; [exact Hk|reflexivity].
  - rewrite digits_before_S. destruct (n <? 10).
    + eexists _, _. split; [|reflexivity]. apply Z.mod_pos_bound. lia.
    + apply IH, Z.mod_pos_bound. lia.
Qed.

Lemma digit_headed_natural n : digit_headed (natural_to_string n).
Proof.
  unfold natural_to_string. rewrite digits_before_S. destruct (n <? 10).
  - eexists _, _. split; [|reflexivity]. apply Z.mod_pos_bound. lia.
  - apply digit_headed_digits_before, Z.mod_pos_bound. lia.
Qed.

Lemma digit_headed_fraction scale v : digit_headed (fraction_to_string scale v).
Proof.
  revert v. induction scale as [|scale IH]; intros v.
  - apply digit_headed_natural.
  - cbn [fraction_to_string]. destruct (v mod 10 =? 0); [apply IH|].
    apply digit_headed_append, digit_headed_natural.
Qed.

(** *** Reading a written number back *)

Lemma parseFloat_digit_headed s :
  digit_headed s ->
  parseFloat s = decimal_literal false s
  /\ parseFloat (String "-" s) = decimal_literal true s.
Proof.
  intros (k & rest & Hk & ->). digit_cases k Hk; split; reflexivity.
Qed.

Lemma not_overflow negative m e :
  0 <= m < 10 ^ 15 -> e <= 0 ->
  to_number negative m e
  = Finite {| dec_m := if negative then - m else m; dec_e := e |}.
Proof.
  intros Hm He. unfold to_number, decimal_value_at_least. cbn [dec_m dec_e].
  assert (Hb : 10 ^ 15 < double_overflow) by reflexivity.
  assert (Habs : Z.abs (if negative then - m else m) = m) by (destruct negative; lia).
  rewrite Habs.
  destruct (Z.leb_spec 0 e) as [H0|H0].
  - replace e with 0 by lia. rewrite Z.pow_0_r, Z.mul_1_r.
    destruct (Z.leb_spec double_overflow m); [lia|reflexivity].
  - pose proof (Z.pow_pos_nonneg 10 (- e) ltac:(lia) ltac:(lia)).
    destruct (Z.leb_spec (double_overflow * 10 ^ (- e)) m); [nia|reflexivity].
Qed.

Lemma decimal_literal_fraction negative scale v :
  0 <= v ->
  exists m e,
    decimal_literal negative (fraction_to_string scale v) = to_number negative m e
    /\ 0 <= m /\ e <= 0 /\ 0 <= e + Z.of_nat scale
    /\ m * 10 ^ (e + Z.of_nat scale) = v.
Proof.
  revert v. induction scale as [|scale IH]; intros v Hv.
  - exists v, 0. unfold decimal_literal. cbn [fraction_to_string].
    rewrite <- (append_nil_r (natural_to_string v)).
    destruct (digits_natural v "" 0 0 Hv) as (len & Hlen & ->).
    cbn [digits]. destruct (Z.eqb_spec (0 + len + 0) 0); [lia|].
    cbn [exponent]. split; [f_equal; lia|].
    cbn [Z.of_nat]. rewrite Z.pow_0_r. lia.
  - cbn [fraction_to_string]. destruct (Z.eqb_spec (v mod 10) 0) as [H0|H0].
    + destruct (IH (v / 10)) as (m & e & Heq & Hm & He & Hes & Hval).
      { apply Z.div_pos; lia. }
      exists m, e. split; [exact Heq|]. repeat split; try lia.
      replace (e + Z.of_nat (S scale)) with (Z.succ (e + Z.of_nat scale)) by lia.
      rewrite Z.pow_succ_r by lia. pose proof (Z.div_mod v 10). lia.
    + set (p := 10 ^ Z.of_nat (S scale)).
      assert (Hp : 0 < p) by (apply Z.pow_pos_nonneg; lia).
      exists v, (- Z.of_nat (S scale)). unfold decimal_literal.
      destruct (digits_natural (v / p) (String "." (fixed_digits (S scale) (v mod p) ""))
                  0 0) as (len & Hlen & ->).
      { apply Z.div_pos; lia. }
      cbn [digits digit nat_of_ascii]. 
      change (digit 10 ".") with (@None Z). cbv iota.
      rewrite digits_fixed_digits by (apply Z.mod_pos_bound; exact Hp).
      cbn [digits exponent].
      destruct (Z.eqb_spec (0 + len + (0 + Z.of_nat (S scale))) 0); [lia|].
      split; [f_equal; try lia; fold p; pose proof (Z.div_mod v p); lia|].
      replace (- Z.of_nat (S scale) + Z.of_nat (S scale)) with 0 by lia.
      rewrite Z.pow_0_r. lia.
Qed.

(** Written with [scale] decimals and read by [parseFloat], a number is
    worth what it was. *)
Lemma parseFloat_number scale v :
  Z.abs v < 10 ^ 15 ->
  exists d,
    parseFloat (js_to_string (js_number scale v)) = Finite d
    /\ 0 <= dec_e d + Z.of_nat scale
    /\ dec_m d * 10 ^ (dec_e d + Z.of_nat scale) = v.
Proof.
  intros Hv. cbn [js_to_string].
  destruct (parseFloat_digit_headed _ (digit_headed_fraction scale (Z.abs v)))
    as [Hpos Hneg].
  destruct (decimal_literal_fraction (v <? 0) scale (Z.abs v) (Z.abs_nonneg v))
    as (m & e & Heq & Hm & He & Hes & Hval).
  assert (Hmv : m <= Z.abs v).
  { rewrite <- Hval.
    pose proof (Z.pow_pos_nonneg 10 (e + Z.of_nat scale) ltac:(lia) ltac:(lia)). nia. }
  rewrite not_overflow in Heq by lia.
  destruct (Z.ltb_spec v 0) as [Hlt|Hge].
  - assert (Ha : Z.abs v = - v) by lia. rewrite Ha in *. rewrite Hneg, Heq.
    eexists. split; [reflexivity|]. cbn [dec_m dec_e]. split; [exact Hes|]. lia.
  - assert (Ha : Z.abs v = v) by lia. rewrite Ha in *. rewrite Hpos, Heq.
    eexists. split; [reflexivity|]. cbn [dec_m dec_e]. split; [exact Hes|]. lia.
Qed.

Lemma numeric_not_white_space c : numeric_char c = true -> is_white_space c = false.
Proof.
  destruct c as [[] [] [] [] [] [] [] []]; intros H;
    first [discriminate H | reflexivity].
Qed.

Lemma numeric_not_x c :
  numeric_char c = true -> Ascii.eqb c "x" || Ascii.eqb c "X" = false.
Proof.
  intros H. destruct (Ascii.eqb_spec c "x") as [->|]; [discriminate H|].
  destruct (Ascii.eqb_spec c "X") as [->|]; [discriminate H|]. reflexivity.
Qed.

Lemma all_chars_starts_clean p s :
  (forall c, p c = true -> is_white_space c = false) ->
  all_chars p s = true -> starts_clean s = true /\ ends_clean s = true.
Proof.
  intros Hp. induction s as [|c s IH]; [split; reflexivity|].
  cbn [all_chars]. intros H. apply andb_prop in H as [Hc Hs].
  specialize (IH Hs). cbn [starts_clean]. rewrite (Hp c Hc). split; [reflexivity|].
  destruct s as [|d s]; [cbn; rewrite (Hp c Hc); reflexivity|apply IH].
Qed.

Lemma numeric_trim s : all_chars numeric_char s = true -> trim s = s.
Proof.
  intros H. apply trim_fixed.
  apply (all_chars_starts_clean numeric_char); [apply numeric_not_white_space|exact H].
Qed.

Lemma radix_prefix_numeric s :
  all_chars numeric_char s = true -> radix_prefix s = (10, s).
Proof.
  destruct s as [|c0 [|c1 s]]; try reflexivity.
  cbn [all_chars radix_prefix]. intros H.
  apply andb_prop in H as [_ H]. apply andb_prop in H as [H1 _].
  rewrite (numeric_not_x c1 H1), andb_false_r. reflexivity.
Qed.

Lemma parseInt_digit_headed s :
  digit_headed s -> all_chars numeric_char s = true ->
  parseInt s = integer_literal false 10 s
  /\ parseInt (String "-" s) = integer_literal true 10 s.
Proof.
  intros (k & rest & Hk & ->) Hnum. unfold parseInt.
  assert (Hs : sign (trimStart (String (digit_char k) rest))
               = (false, String (digit_char k) rest)
               /\ sign (trimStart (String "-" (String (digit_char k) rest)))
                  = (true, String (digit_char k) rest)).
  { digit_cases k Hk; split; reflexivity. }
  destruct Hs as [-> ->]. rewrite radix_prefix_numeric by exact Hnum.
  split; reflexivity.
Qed.

(** Written as a whole number and read by [parseInt], a number is what
    it was. *)
Lemma parseInt_number v :
  Z.abs v < 10 ^ 15 ->
  parseInt (js_to_string (js_number 0 v)) = Finite {| dec_m := v; dec_e := 0 |}.
Proof.
  intros Hv. cbn [js_to_string fraction_to_string].
  assert (Hlit : forall negative n, 0 <= n < 10 ^ 15 ->
            integer_literal negative 10 (natural_to_string n)
            = Finite {| dec_m := if negative then - n else n; dec_e := 0 |}).
  { intros negative n Hn. unfold integer_literal.
    rewrite <- (append_nil_r (natural_to_string n)).
    destruct (digits_natural n "" 0 0 ltac:(lia)) as (len & Hlen & ->).
    cbn [digits]. destruct (Z.eqb_spec (0 + len) 0); [lia|].
    replace (0 * 10 ^ len + n) with n by lia.
    apply not_overflow; lia. }
  destruct (Z.ltb_spec v 0) as [Hlt|Hge].
  - destruct (parseInt_digit_headed (natural_to_string (- v))) as [_ ->].
    + apply digit_headed_natural.
    + apply (numeric_fraction 0).
    + rewrite Hlit by lia. f_equal. f_equal. lia.
  - destruct (parseInt_digit_headed (natural_to_string v)) as [-> _].
    + apply digit_headed_natural.
    + apply (numeric_fraction 0).
    + rewrite Hlit by lia. reflexivity.
Qed.

Lemma to_integer_whole v :
  - 2 ^ 31 <= v < 2 ^ 31 -> to_integer {| dec_m := v; dec_e := 0 |} = Ok v.
Proof.
  intros Hv. unfold to_integer, round_scaled. cbn [dec_m dec_e].
  change (0 <=? 0 + 0) with true. change (0 <=? 0) with true.
  cbn [negb andb]. rewrite Z.pow_0_r, Z.mul_1_r.
  destruct (Z.leb_spec (- 2 ^ 31) v); [|lia].
  destruct (Z.ltb_spec v (2 ^ 31)); [reflexivity|lia].
Qed.

Lemma to_numeric_scaled p scale what d v :
  0 <= dec_e d + Z.of_nat scale ->
  dec_m d * 10 ^ (dec_e d + Z.of_nat scale) = v ->
  Z.abs v < 10 ^ p ->
  to_numeric p (Z.of_nat scale) what d = Ok v.
Proof.
  intros He Hval Hv. unfold to_numeric, round_scaled.
  destruct (Z.leb_spec 0 (dec_e d + Z.of_nat scale)); [|lia].
  rewrite Hval. destruct (Z.ltb_spec (Z.abs v) (10 ^ p)); [reflexivity|lia].
Qed.

Lemma digit_headed_truthy s : digit_headed s -> truthy s = true.
Proof. intros (k & rest & _ & ->). reflexivity. Qed.

Lemma number_truthy scale v : truthy (js_to_string (js_number scale v)) = true.
Proof.
  cbn [js_to_string]. destruct (v <? 0); [reflexivity|].
  apply digit_headed_truthy, digit_headed_fraction.
Qed.

(** ** Cells *)

Lemma parseCsvLine_from_text s rest result current q :
  includes_char DQUOTE s = false ->
  q = true \/ includes_char COMMA s = false ->
  parseCsvLine_from (s +:+ rest) result current q
  = parseCsvLine_from rest result (current +:+ s) q.
Proof.
  revert current. induction s as [|c s IH]; intros current Hq Hc.
  - rewrite append_nil_r. reflexivity.
  - cbn [includes_char] in Hq. apply orb_false_elim in Hq as [Hcq Hsq].
    rewrite append_cons. cbn [parseCsvLine_from]. rewrite Hcq.
    assert (Hcomma : Ascii.eqb c COMMA && negb q = false).
    { destruct Hc as [->|Hc]; [apply andb_false_r|].
      cbn [includes_char] in Hc. apply orb_false_elim in Hc as [-> _]. reflexivity. }
    rewrite Hcomma, IH.
    + rewrite append_assoc. reflexivity.
    + exact Hsq.
    + destruct Hc as [Hc|Hc]; [left; exact Hc|right].
      cbn [includes_char] in Hc. apply orb_false_elim in Hc as [_ Hc]. exact Hc.
Qed.

Lemma parseCsvLine_from_quote rest result current q :
  parseCsvLine_from (String DQUOTE rest) result current q
  = parseCsvLine_from rest result current (negb q).
Proof. reflexivity. Qed.

Lemma parseCsvLine_from_comma rest result current :
  parseCsvLine_from (String COMMA rest) result current false
  = parseCsvLine_from rest (result ++ [trim current])%list "" false.
Proof. reflexivity. Qed.

(** A cell of the export and the comma after it are read as the text of
    the cell, trimmed. *)
Lemma parseCsvLine_from_cell s rest result :
  includes_char DQUOTE s = false ->
  parseCsvLine_from (quoted s +:+ String COMMA rest) result "" false
  = parseCsvLine_from rest (result ++ [trim s])%list "" false.
Proof.
  intros Hq. unfold quoted. destruct (includes_char COMMA s) eqn:Hc.
  - rewrite append_assoc, append_cons, parseCsvLine_from_quote.
    rewrite parseCsvLine_from_text by auto.
    rewrite append_cons, parseCsvLine_from_quote.
    apply parseCsvLine_from_comma.
  - rewrite parseCsvLine_from_text by auto.
    apply parseCsvLine_from_comma.
Qed.

Lemma parseCsvLine_from_result line result current q :
  parseCsvLine_from line result current q
  = (result ++ parseCsvLine_from line [] current q)%list.
Proof.
  revert result current q. induction line as [|c line IH]; intros result current q.
  - reflexivity.
  - cbn [parseCsvLine_from]. destruct (Ascii.eqb c DQUOTE); [apply IH|].
    destruct (Ascii.eqb c COMMA && negb q); [|apply IH].
    rewrite IH, (IH [trim current]), app_assoc. reflexivity.
Qed.

(** *** The row object of distinct headers *)

Lemma forEach_header_lookup headers index values rowData key j :
  List.NoDup headers -> nth_error headers j = Some key -> key <> "__proto__" ->
  forEach_header headers index values rowData !! key
  = match nth_error values (index + j) with
    | Some v => if truthy v then Some v else rowData !! key
    | None => rowData !! key
    end.
Proof.
  revert index rowData j. induction headers as [|h hs IH];
    intros index rowData j Hnd Hj Hproto; [destruct j; discriminate|].
  inversion Hnd as [|? ? Hnot Hnd']; subst.
  cbn [forEach_header]. destruct j as [|j].
  - injection Hj as ->. rewrite forEach_header_lookup_other by exact Hnot.
    rewrite Nat.add_0_r.
    assert (Hl : values !! index = nth_error values index).
    { clear. revert index. induction values as [|v vs IH]; intros [|i]; cbn; auto. }
    rewrite Hl. destruct (nth_error values index) as [v|]; [|reflexivity].
    destruct (truthy v); [apply assign_lookup_eq, Hproto|reflexivity].
  - cbn [nth_error] in Hj. rewrite (IH (S index) _ j Hnd' Hj Hproto).
    replace (S index + j)%nat with (index + S j)%nat by lia.
    assert (Hne : h <> key).
    { intros ->. apply Hnot. eapply nth_error_In, Hj. }
    assert (Hk : match values !! index with
                 | Some v => if truthy v then assign h v rowData else rowData
                 | None => rowData
                 end !! key = rowData !! key).
    { destruct (values !! index) as [v|]; [|reflexivity].
      destruct (truthy v); [apply assign_lookup_ne, Hne|reflexivity]. }
    rewrite Hk. reflexivity.
Qed.

Lemma rowData_of_lookup headers values key j :
  List.NoDup headers -> nth_error headers j = Some key -> key <> "__proto__" ->
  rowData_of headers values !! key
  = match nth_error values j with
    | Some v => if truthy v then Some v else None
    | None => None
    end.
Proof.
  intros Hnd Hj Hproto. unfold rowData_of.
  rewrite (forEach_header_lookup _ _ _ _ _ j Hnd Hj Hproto), lookup_empty. reflexivity.
Qed.

Lemma export_headers_NoDup : List.NoDup export_headers.
Proof.
  unfold export_headers.
  repeat (constructor; [cbn; intros H; decompose [or] H; discriminate || assumption|]).
  constructor.
Qed.

(** ** The line of a lead *)

Lemma quoted_plain s : includes_char COMMA s = false -> quoted s = s.
Proof. unfold quoted. intros ->. reflexivity. Qed.

Lemma cell_string h s : js_to_string (export_cell h (js_string s)) = quoted s.
Proof. unfold quoted. cbn [export_cell]. destruct (includes_char COMMA s); reflexivity. Qed.

Lemma cell_optional_string {A} h (f : A -> string) (o : option A) :
  js_to_string (export_cell h (nullable (fun v => js_string (f v)) o))
  = quoted (default "" (f <$> o)).
Proof. destruct o as [v|]; [apply cell_string|reflexivity]. Qed.

Lemma cell_number h scale o :
  js_to_string (export_cell h (nullable (js_number scale) o))
  = quoted (optional_number scale o).
Proof.
  destruct o as [v|]; [|reflexivity]. cbn [nullable export_cell optional_number].
  rewrite quoted_plain; [reflexivity|].
  apply (all_chars_includes numeric_char); [apply numeric_number|reflexivity].
Qed.

Lemma includes_char_join c sep l :
  Forall (fun s => includes_char c s = false) l -> Ascii.eqb sep c = false ->
  includes_char c (join (String sep "") l) = false.
Proof.
  intros Hall Hsep. induction Hall as [|x l Hx Hl IH]; [reflexivity|].
  destruct l as [|y l]; [exact Hx|].
  change (join (String sep "") (x :: y :: l))
    with (x +:+ String sep (join (String sep "") (y :: l))).
  rewrite includes_char_append, Hx. cbn [includes_char orb]. rewrite Hsep, IH.
  reflexivity.
Qed.

Lemma export_line_cells lead :
  (forall l, bl_preferred_areas lead = Some l ->
             Forall (fun s => includes_char COMMA s = false) l) ->
  export_line lead = line_of_cells (cell_texts lead) (created_at_cell lead).
Proof.
  intros Hareas. unfold export_line, export_headers, cell_texts, line_of_cells,
    created_at_cell.
  cbn [map join fold_right].
  change (lead_get lead "first_name") with (js_string (bl_first_name lead)).
  change (lead_get lead "last_name") with (js_string (bl_last_name lead)).
  change (lead_get lead "email") with (js_string (bl_email lead)).
  change (lead_get lead "phone") with (nullable (fun v => js_string (id v)) (bl_phone lead)).
  change (lead_get lead "budget_min") with (nullable (js_number 2) (bl_budget_min lead)).
  change (lead_get lead "budget_max") with (nullable (js_number 2) (bl_budget_max lead)).
  change (lead_get lead "preferred_areas")
    with (nullable js_array (bl_preferred_areas lead)).
  change (lead_get lead "property_type")
    with (nullable (fun v => js_string (id v)) (bl_property_type lead)).
  change (lead_get lead "bedrooms") with (nullable (js_number 0) (bl_bedrooms lead)).
  change (lead_get lead "bathrooms") with (nullable (js_number 1) (bl_bathrooms lead)).
  change (lead_get lead "status")
    with (nullable (fun v => js_string (lead_status_label v)) (bl_status lead)).
  change (lead_get lead "source")
    with (nullable (fun v => js_string (lead_source_label v)) (bl_source lead)).
  change (lead_get lead "priority") with (nullable (js_number 0) (bl_priority lead)).
  change (lead_get lead "notes") with (nullable (fun v => js_string (id v)) (bl_notes lead)).
  rewrite !cell_string, !cell_optional_string, !cell_number.
  assert (Ha : js_to_string (export_cell "preferred_areas"
                               (nullable js_array (bl_preferred_areas lead)))
               = quoted (join ";" (default [] (bl_preferred_areas lead)))).
  { destruct (bl_preferred_areas lead) as [l|]; [|reflexivity].
    cbn [nullable export_cell default id js_to_string].
    change (String.eqb "preferred_areas" "preferred_areas") with true. cbv iota.
    cbn [js_to_string]. rewrite quoted_plain; [reflexivity|].
    apply includes_char_join; [apply Hareas; reflexivity|reflexivity]. }
  rewrite Ha.
  assert (Hid : forall o : option string, id <$> o = o) by (intros [|]; reflexivity).
  rewrite !Hid. reflexivity.
Qed.

Lemma parseCsvLine_line_of_cells cells last result :
  Forall (fun t => includes_char DQUOTE t = false) cells ->
  parseCsvLine_from (line_of_cells cells last) result "" false
  = (result ++ map trim cells ++ parseCsvLine last)%list.
Proof.
  intros Hall. revert result. induction Hall as [|t cells Ht _ IH]; intros result.
  - cbn [line_of_cells fold_right map app]. apply parseCsvLine_from_result.
  - cbn [line_of_cells fold_right map]. fold (line_of_cells cells last).
    rewrite parseCsvLine_from_cell by exact Ht.
    rewrite IH, <- app_assoc. reflexivity.
Qed.

Lemma starts_clean_append s t :
  starts_clean s = true -> (s = "" -> starts_clean t = true) ->
  starts_clean (s +:+ t) = true.
Proof. destruct s as [|c s]; intros Hs Ht; [apply Ht; reflexivity|exact Hs]. Qed.

Lemma ends_clean_append s t :
  ends_clean t = true -> t <> "" -> ends_clean (s +:+ t) = true.
Proof.
  intros Ht Hne. induction s as [|c s IH]; [exact Ht|].
  rewrite append_cons. destruct (s +:+ t) as [|d u] eqn:E; [|exact IH].
  destruct s; [change ("" +:+ t) with t in E; congruence|].
  rewrite append_cons in E. discriminate E.
Qed.

Lemma trim_join_semicolon l :
  Forall (fun s => trim s = s) l -> trim (join ";" l) = join ";" l.
Proof.
  intros Hall. apply trim_fixed.
  induction Hall as [|x l Hx Hl IH]; [split; reflexivity|].
  apply trim_fixed in Hx as [Hxs Hxe].
  destruct l as [|y l]; [split; assumption|].
  change (join ";" (x :: y :: l)) with (x +:+ String ";" (join ";" (y :: l))).
  split.
  - apply starts_clean_append; [exact Hxs|reflexivity].
  - apply ends_clean_append; [|discriminate].
    destruct IH as [_ IH]. destruct (join ";" (y :: l)); [reflexivity|exact IH].
Qed.


Lemma numeric_cell_clean t : all_chars numeric_char t = true -> cell_clean t.
Proof.
  intros H. repeat split.
  - apply (all_chars_includes numeric_char); [exact H|reflexivity].
  - apply (all_chars_includes numeric_char); [exact H|reflexivity].
  - apply numeric_trim, H.
Qed.

Lemma optional_number_clean scale o : cell_clean (optional_number scale o).
Proof.
  destruct o as [v|]; [apply numeric_cell_clean, numeric_number|].
  repeat split.
Qed.

Lemma optional_text_clean o : optional_text o -> cell_clean (default "" o).
Proof.
  destruct o as [s|]; [|repeat split]. intros (H1 & H2 & H3 & _). repeat split; assumption.
Qed.

Lemma cell_texts_clean is_email lead :
  gives_back is_email lead -> Forall cell_clean (cell_texts lead).
Proof.
  intros [Hf Hl He _ Hph _ _ (l & Hal & Hall & _) Hpt _ _ _ _ _ Hn _].
  unfold cell_texts.
  repeat (apply Forall_cons; split); try apply Forall_nil; try exact I;
    try apply optional_number_clean; try (apply optional_text_clean; assumption).
  - destruct Hf as (H1 & H2 & H3 & _). repeat split; assumption.
  - destruct Hl as (H1 & H2 & H3 & _). repeat split; assumption.
  - destruct He as (H1 & H2 & H3 & _). repeat split; assumption.
  - rewrite Hal. cbn [default id]. repeat split.
    + apply includes_char_join; [|reflexivity].
      eapply Forall_impl; [exact Hall|]. intros a Ha. apply Ha.
    + apply includes_char_join; [|reflexivity].
      eapply Forall_impl; [exact Hall|]. intros a Ha. apply Ha.
    + apply trim_join_semicolon.
      eapply Forall_impl; [exact Hall|]. intros a Ha. apply Ha.
  - destruct (bl_status lead) as [[]|]; repeat split.
  - destruct (bl_source lead) as [[]|]; repeat split.
Qed.

Lemma map_trim_clean cells : Forall cell_clean cells -> map trim cells = cells.
Proof.
  induction 1 as [|t cells (_ & _ & Ht) _ IH]; [reflexivity|].
  cbn [map]. rewrite Ht, IH. reflexivity.
Qed.

Lemma length_nonempty s : s <> "" -> (String.length s <? 1)%nat = false.
Proof. destruct s; [congruence|reflexivity]. Qed.

(** From the line of a lead the schema gets the texts of its cells. *)
Lemma csvImportSchema_parse_export_line is_email lead :
  gives_back is_email lead ->
  csvImportSchema_parse is_email (rowData_of export_headers (parseCsvLine (export_line lead)))
  = Ok (validated_of lead).
Proof.
  intros Hgb. pose proof (cell_texts_clean is_email lead Hgb) as Hclean.
  rewrite export_line_cells.
  2:{ intros l Hl. destruct (gb_preferred_areas _ _ Hgb) as (l' & Hl' & Hall & _).
      rewrite Hl in Hl'. injection Hl' as <-.
      eapply Forall_impl; [exact Hall|]. intros a Ha. apply Ha. }
  unfold parseCsvLine at 1. rewrite parseCsvLine_line_of_cells.
  2:{ eapply Forall_impl; [exact Hclean|]. intros t Ht. apply Ht. }
  rewrite map_trim_clean by exact Hclean. cbn [app].
  set (tail := parseCsvLine (created_at_cell lead)).
  unfold csvImportSchema_parse.
  rewrite (rowData_of_lookup export_headers _ "first_name" 0 export_headers_NoDup eq_refl)
    by discriminate.
  rewrite (rowData_of_lookup export_headers _ "last_name" 1 export_headers_NoDup eq_refl)
    by discriminate.
  rewrite (rowData_of_lookup export_headers _ "email" 2 export_headers_NoDup eq_refl)
    by discriminate.
  rewrite (rowData_of_lookup export_headers _ "phone" 3 export_headers_NoDup eq_refl)
    by discriminate.
  rewrite (rowData_of_lookup export_headers _ "budget_min" 4 export_headers_NoDup eq_refl)
    by discriminate.
  rewrite (rowData_of_lookup export_headers _ "budget_max" 5 export_headers_NoDup eq_refl)
    by discriminate.
  rewrite (rowData_of_lookup export_headers _ "preferred_areas" 6
             export_headers_NoDup eq_refl)
    by discriminate.
  rewrite (rowData_of_lookup export_headers _ "property_type" 7
             export_headers_NoDup eq_refl)
    by discriminate.
  rewrite (rowData_of_lookup export_headers _ "bedrooms" 8 export_headers_NoDup eq_refl)
    by discriminate.
  rewrite (rowData_of_lookup export_headers _ "bathrooms" 9 export_headers_NoDup eq_refl)
    by discriminate.
  rewrite (rowData_of_lookup export_headers _ "status" 10 export_headers_NoDup eq_refl)
    by discriminate.
  rewrite (rowData_of_lookup export_headers _ "source" 11 export_headers_NoDup eq_refl)
    by discriminate.
  rewrite (rowData_of_lookup export_headers _ "priority" 12 export_headers_NoDup eq_refl)
    by discriminate.
  rewrite (rowData_of_lookup export_headers _ "notes" 13 export_headers_NoDup eq_refl)
    by discriminate.
  unfold cell_texts. cbn [app nth_error].
  destruct (gb_first_name _ _ Hgb) as (_ & _ & _ & Hf).
  destruct (gb_last_name _ _ Hgb) as (_ & _ & _ & Hl).
  destruct (gb_email _ _ Hgb) as (_ & _ & _ & He).
  rewrite (truthy_nonempty _ Hf), (truthy_nonempty _ Hl), (truthy_nonempty _ He).
  unfold z_string_min_1, z_string_email.
  rewrite (length_nonempty _ Hf), (length_nonempty _ Hl), (gb_is_email _ _ Hgb).
  reflexivity.
Qed.

(** ** The insert of the line of a lead *)

Lemma nonempty_number scale v :
  nonempty (js_to_string (js_number scale v)) = Some (js_to_string (js_number scale v)).
Proof. unfold nonempty. rewrite number_truthy. reflexivity. Qed.

Lemma if_truthy_number {A} scale v (f : string -> A) dflt :
  if_truthy (nonempty (js_to_string (js_number scale v))) f dflt
  = f (js_to_string (js_number scale v)).
Proof. rewrite nonempty_number. cbn [if_truthy]. rewrite number_truthy. reflexivity. Qed.

Lemma float_column p scale what o :
  optional_within (- 10 ^ p + 1) (10 ^ p) o -> 0 <= p <= 15 ->
  column (if_truthy (nonempty (optional_number scale o))
            (fun s => json_number (parseFloat s)) Null)
         None (to_numeric p (Z.of_nat scale) what)
  = Ok o.
Proof.
  destruct o as [v|]; [|reflexivity]. cbn [optional_within optional_number].
  intros Hv Hp. rewrite if_truthy_number.
  assert (Habs : Z.abs v < 10 ^ p) by lia.
  assert (Hpow : 10 ^ p <= 10 ^ 15) by (apply Z.pow_le_mono_r; lia).
  destruct (parseFloat_number scale v ltac:(lia)) as (d & -> & He & Hval).
  cbn [json_number column]. rewrite (to_numeric_scaled p scale what d v He Hval Habs).
  reflexivity.
Qed.

Lemma int_column o dflt :
  optional_within (- 2 ^ 31) (2 ^ 31) o ->
  column (if_truthy (nonempty (optional_number 0 o))
            (fun s => json_number (parseInt s)) Null)
         dflt to_integer
  = Ok o.
Proof.
  destruct o as [v|]; [|reflexivity]. cbn [optional_within optional_number].
  intros Hv. rewrite if_truthy_number.
  rewrite parseInt_number by (change (10 ^ 15) with 1000000000000000;
                              change (2 ^ 31) with 2147483648 in Hv; lia).
  cbn [json_number column]. rewrite to_integer_whole by exact Hv. reflexivity.
Qed.

Lemma priority_column p dflt_col dflt :
  1 <= p <= 5 ->
  column (if_truthy (nonempty (optional_number 0 (Some p)))
            (fun s => json_number (parseInt s)) dflt_col)
         dflt to_integer
  = Ok (Some p).
Proof.
  intros Hp. cbn [optional_number]. rewrite if_truthy_number.
  rewrite parseInt_number by (change (10 ^ 15) with 1000000000000000; lia).
  cbn [json_number column].
  rewrite to_integer_whole by (change (2 ^ 31) with 2147483648; lia). reflexivity.
Qed.

Lemma status_column s dflt :
  column (if_truthy (nonempty (default "" (lead_status_label <$> Some s))) Val (Val "new"))
         dflt to_lead_status
  = Ok (Some s).
Proof. destruct s; reflexivity. Qed.

Lemma source_column s dflt :
  column (if_truthy (nonempty (default "" (lead_source_label <$> Some s))) Val (Val "other"))
         dflt to_lead_source
  = Ok (Some s).
Proof. destruct s; reflexivity. Qed.

Lemma given_or_null o :
  optional_text o -> given (or_null (nonempty (default "" o))) = o.
Proof.
  destruct o as [s|]; [|reflexivity]. intros (_ & _ & _ & Hs).
  cbn [default id]. unfold nonempty. rewrite (truthy_nonempty s Hs).
  cbn [or_null]. rewrite (truthy_nonempty s Hs). reflexivity.
Qed.

Lemma join_semicolon_nonempty l :
  l <> [] -> l <> [""] -> join ";" l <> "".
Proof.
  destruct l as [|x [|y l]]; [congruence| |].
  - intros _ H E. apply H. cbn in E. congruence.
  - intros _ _. change (join ";" (x :: y :: l))
      with (x +:+ String ";" (join ";" (y :: l))).
    destruct x; [discriminate|rewrite append_cons; discriminate].
Qed.

Lemma given_areas l :
  Forall area_text l -> l <> [""] ->
  given (if_truthy (nonempty (join ";" l))
           (fun s => Val (map trim (split SEMICOLON s))) (Val []))
  = Some l.
Proof.
  intros Hall Hne.
  assert (Hm : map trim l = l).
  { clear Hne. induction Hall as [|a l' (_ & _ & _ & _ & Ha) _ IH]; [reflexivity|].
    cbn [map]. rewrite Ha, IH. reflexivity. }
  destruct l as [|x l]; [reflexivity|].
  assert (Hj : join ";" (x :: l) <> "")
    by (apply join_semicolon_nonempty; [discriminate|exact Hne]).
  unfold nonempty. rewrite (truthy_nonempty _ Hj). cbn [if_truthy].
  rewrite (truthy_nonempty _ Hj). cbn [given]. f_equal.
  change ";" with (String SEMICOLON "").
  rewrite split_join.
  - exact Hm.
  - discriminate.
  - eapply Forall_impl; [exact Hall|]. intros a Ha. apply Ha.
Qed.

(** The lead that the line of [lead] becomes has the exported fields of
    [lead]. *)
Lemma insert_export_line is_email db user lead :
  gives_back is_email lead -> may_insert db user ->
  exists new,
    db_insert_lead db (Some user) (leadData (validated_of lead) user)
    = Ok (with_new_lead db new)
    /\ same_exported_fields lead new
    /\ bl_created_by new = Some user.
Proof.
  intros Hgb Hrole.
  destruct (gb_priority _ _ Hgb) as (p & Hp & Hrange).
  destruct (gb_status _ _ Hgb) as [st Hst].
  destruct (gb_source _ _ Hgb) as [so Hso].
  destruct (gb_preferred_areas _ _ Hgb) as (l & Hl & Hall & Hne).
  eexists. split; [|split].
  - apply (insert_leadData db user (validated_of lead)
             (bl_budget_min lead) (bl_budget_max lead) (bl_bedrooms lead)
             (bl_bathrooms lead) (bl_status lead) (bl_source lead) (bl_priority lead)).
    + exact Hrole.
    + apply (float_column 12 2); [apply (gb_budget_min _ _ Hgb)|lia].
    + apply (float_column 12 2); [apply (gb_budget_max _ _ Hgb)|lia].
    + apply int_column, (gb_bedrooms _ _ Hgb).
    + apply (float_column 3 1); [apply (gb_bathrooms _ _ Hgb)|lia].
    + cbn [leadData in_status validated_of status]. rewrite Hst. apply status_column.
    + cbn [leadData in_source validated_of source]. rewrite Hso. apply source_column.
    + cbn [leadData in_priority validated_of priority]. rewrite Hp.
      apply priority_column, Hrange.
    + unfold priority_in_range. cbn [imported_lead bl_priority]. rewrite Hp.
      cbn [In]. lia.
  - unfold same_exported_fields.
    cbn [imported_lead bl_first_name bl_last_name bl_email bl_phone bl_budget_min
         bl_budget_max bl_preferred_areas bl_property_type bl_bedrooms bl_bathrooms
         bl_status bl_source bl_priority bl_notes
         leadData in_phone in_preferred_areas in_property_type in_notes
         validated_of first_name last_name email phone preferred_areas
         property_type notes].
    rewrite !given_or_null by apply Hgb.
    rewrite Hl. cbn [default id]. rewrite given_areas by assumption.
    repeat split.
  - reflexivity.
Qed.

(** ** The lines of the export *)

Lemma includes_char_quoted c s :
  Ascii.eqb DQUOTE c = false ->
  includes_char c (quoted s) = includes_char c s.
Proof.
  intros Hc. unfold quoted. destruct (includes_char COMMA s); [|reflexivity].
  rewrite append_cons. cbn [includes_char]. rewrite Hc, includes_char_append.
  cbn [includes_char]. rewrite Hc, !orb_false_r. reflexivity.
Qed.

Lemma line_of_cells_comma t cells last :
  includes_char COMMA (line_of_cells (t :: cells) last) = true.
Proof.
  cbn [line_of_cells fold_right]. rewrite includes_char_append.
  cbn [includes_char]. change (Ascii.eqb COMMA COMMA) with true.
  apply orb_true_r.
Qed.

Lemma line_of_cells_no_LF cells last :
  Forall cell_clean cells -> includes_char LF last = false ->
  includes_char LF (line_of_cells cells last) = false.
Proof.
  intros Hall Hlast. induction Hall as [|t cells (_ & Ht & _) _ IH]; [exact Hlast|].
  cbn [line_of_cells fold_right]. fold (line_of_cells cells last).
  rewrite includes_char_append, includes_char_quoted by reflexivity.
  rewrite Ht. cbn [includes_char orb]. rewrite IH. reflexivity.
Qed.

Lemma export_line_shape is_email lead :
  gives_back is_email lead ->
  includes_char LF (export_line lead) = false
  /\ truthy (trim (export_line lead)) = true.
Proof.
  intros Hgb. rewrite export_line_cells.
  2:{ intros l Hl. destruct (gb_preferred_areas _ _ Hgb) as (l' & Hl' & Hall & _).
      rewrite Hl in Hl'. injection Hl' as <-.
      eapply Forall_impl; [exact Hall|]. intros a Ha. apply Ha. }
  split.
  - apply line_of_cells_no_LF; [apply (cell_texts_clean is_email), Hgb|].
    unfold created_at_cell.
    change (lead_get lead "created_at")
      with (nullable (fun v => js_string (id v)) (bl_created_at lead)).
    rewrite cell_optional_string, includes_char_quoted by reflexivity.
    pose proof (gb_created_at _ _ Hgb) as Hc.
    destruct (bl_created_at lead); [exact Hc|reflexivity].
  - apply (trim_truthy COMMA); [apply line_of_cells_comma|reflexivity].
Qed.

Lemma filter_all {A} (p : A -> bool) l :
  Forall (fun x => p x = true) l -> List.filter p l = l.
Proof.
  induction 1 as [|x l Hx _ IH]; [reflexivity|].
  cbn [List.filter]. rewrite Hx, IH. reflexivity.
Qed.

Lemma non_blank_lines_csvContent is_email leads :
  Forall (gives_back is_email) leads ->
  non_blank_lines (csvContent leads)
  = join "," export_headers :: map export_line leads.
Proof.
  intros Hall. unfold non_blank_lines, csvContent.
  rewrite split_join.
  - apply filter_all. constructor; [reflexivity|].
    apply Forall_map. eapply Forall_impl; [exact Hall|].
    intros lead Hgb. apply (export_line_shape is_email lead Hgb).
  - discriminate.
  - constructor; [reflexivity|].
    apply Forall_map. eapply Forall_impl; [exact Hall|].
    intros lead Hgb. apply (export_line_shape is_email lead Hgb).
Qed.

Lemma may_insert_with_new_lead db user row :
  may_insert db user -> may_insert (with_new_lead db row) user.
Proof. intros H. exact H. Qed.

(** The loop over the lines of an export: every line is stored. *)
Lemma import_loop_export_lines is_email user leads :
  Forall (gives_back is_email) leads ->
  forall db i successCount errors,
    may_insert db user ->
    exists new_leads db',
      import_loop is_email user export_headers (map export_line leads) i db
        successCount errors
      = (db', (successCount + length leads)%nat, errors)
      /\ buyer_leads db' = (buyer_leads db ++ new_leads)%list
      /\ Forall2 same_exported_fields leads new_leads
      /\ Forall (fun bl => bl_created_by bl = Some user) new_leads.
Proof.
  induction 1 as [|lead leads Hgb _ IH]; intros db i successCount errors Hrole.
  - exists [], db. cbn. rewrite Nat.add_0_r, app_nil_r. repeat split; constructor.
  - cbn [map import_loop].
    destruct (export_line_shape is_email lead Hgb) as [_ ->]. cbn [negb].
    unfold import_row, import_values.
    rewrite csvImportSchema_parse_export_line by exact Hgb. cbn [bind].
    destruct (insert_export_line is_email db user lead Hgb Hrole)
      as (new & -> & Hsame & Hby).
    destruct (IH (with_new_lead db new) (S i) (S successCount) errors
                 (may_insert_with_new_lead db user new Hrole))
      as (news & db' & -> & Hleads & Hall & Hbys).
    exists (new :: news), db'. repeat split.
    + f_equal. f_equal. cbn [length]. lia.
    + rewrite Hleads. cbn [with_new_lead buyer_leads]. rewrite <- app_assoc. reflexivity.
    + constructor; assumption.
    + constructor; assumption.
Qed.

(** C3 (amended). For every store whose export is not empty, every lead
    of which comes back from a CSV cell ([gives_back]: its texts have no
    double quote, no line feed and no white space at either end, the
    required ones and the optional ones that are set are not empty, its
    e-mail address passes the check, its preferred areas are a list of
    names without comma or semicolon other than the list of one empty
    name, its status, source and priority are set, and its numbers fit
    their columns), and for an importer who may insert, the export succeeds
    and the import of the text it wrote succeeds for all N rows: it adds N
    leads which have, in the order of the export, the values of the
    originals in the fourteen columns [first_name] to [notes], and the
    importer as creator. *)
Theorem export_then_import_gives_back is_email db user :
  select_leads db user <> [] ->
  may_insert db user ->
  Forall (gives_back is_email) (select_leads db user) ->
  exists content db' new_leads,
    handleExport db user = export_downloaded content
    /\ handleFileImport is_email db user content
       = (import_completed
            {| success := length (select_leads db user);
               errors := [];
               total := length (select_leads db user) |}, db')
    /\ buyer_leads db' = (buyer_leads db ++ new_leads)%list
    /\ Forall2 same_exported_fields (select_leads db user) new_leads
    /\ Forall (fun bl => bl_created_by bl = Some user) new_leads.
Proof.
  intros Hne Hrole Hall.
  destruct (import_loop_export_lines is_email user (select_leads db user) Hall
              db 0%nat 0%nat [] Hrole)
    as (new_leads & db' & Hloop & Hleads & Hsame & Hby).
  exists (csvContent (select_leads db user)), db', new_leads.
  split; [|split; [|repeat split; assumption]].
  - rewrite handleExport_of_store.
    destruct (select_leads db user) as [|l ls]; [congruence|reflexivity].
  - unfold handleFileImport.
    rewrite (non_blank_lines_csvContent is_email) by exact Hall.
    destruct (select_leads db user) as [|l ls] eqn:E; [congruence|].
    cbn [length map Nat.ltb Nat.leb].
    unfold headers_of. cbn [nth skipn].
    replace (map normalize_header (parseCsvLine (join "," export_headers)))
      with export_headers by (vm_compute; reflexivity).
    replace (missingFields export_headers) with (@nil string)
      by (vm_compute; reflexivity).
    cbn [length Nat.ltb Nat.leb].
    change (export_line l :: map export_line ls) with (map export_line (l :: ls)).
    rewrite Hloop, length_map. reflexivity.
Qed.

Lemma example_lead_gives_back : gives_back has_at_sign example_lead.
Proof.
  constructor; cbn; try exact I;
    try (repeat split; (reflexivity || discriminate || lia)).
  - exists []. repeat split; [constructor|discriminate].
  - eexists. reflexivity.
  - eexists. reflexivity.
  - exists 3. split; [reflexivity|lia].
Qed.

Lemma rich_lead_gives_back : gives_back has_at_sign rich_lead.
Proof.
  constructor; cbn; try exact I;
    try (repeat split; (reflexivity || discriminate || lia)).
  - eexists. split; [reflexivity|]. split; [|discriminate].
    repeat constructor.
  - eexists. reflexivity.
  - eexists. reflexivity.
  - exists 4. split; [reflexivity|lia].
Qed.

(** Agent 2 and the store of two leads: the hypotheses of C3 hold. *)
Lemma export_then_import_gives_back_witness :
  select_leads two_leads_store 2%N <> []
  /\ may_insert two_leads_store 2%N
  /\ Forall (gives_back has_at_sign) (select_leads two_leads_store 2%N)
  /\ exists content db' new_leads,
       handleExport two_leads_store 2%N = export_downloaded content
       /\ handleFileImport has_at_sign two_leads_store 2%N content
          = (import_completed {| success := 2; errors := []; total := 2 |}, db')
       /\ buyer_leads db' = (buyer_leads two_leads_store ++ new_leads)%list
       /\ Forall2 same_exported_fields (select_leads two_leads_store 2%N) new_leads.
Proof.
  assert (H1 : select_leads two_leads_store 2%N <> []) by (vm_compute; discriminate).
  assert (H2 : may_insert two_leads_store 2%N) by (right; reflexivity).
  assert (H3 : Forall (gives_back has_at_sign) (select_leads two_leads_store 2%N)).
  { change (select_leads two_leads_store 2%N) with [rich_lead; example_lead].
    constructor; [exact rich_lead_gives_back|].
    constructor; [exact example_lead_gives_back|constructor]. }
  split; [exact H1|]. split; [exact H2|]. split; [exact H3|].
  destruct (export_then_import_gives_back has_at_sign two_leads_store 2%N H1 H2 H3)
    as (content & db' & new_leads & Hexp & Himp & Hleads & Hsame & _).
  exists content, db', new_leads. repeat split; assumption.
Defined.

(** C3, as stated, fails. A store holds one lead, whose note has two
    lines: the export writes it on two lines; the import counts two rows,
    stores the first with the first line of the note only and rejects the
    second. A store holds one lead with a space before its first name, no
    source and a double quote in its note: the lead that comes back has
    lost the space, has the source 'other', and has a note without the
    quote that runs on into the next cell. The export
    of a store with no lead writes no text. And viewer 4 exports the two
    leads it sees, but its import stores none of them. *)
Lemma note_of_two_lines_is_not_given_back :
  (select_leads noted_store 2%N = [noted_lead]
   /\ exists content db' issues,
        handleExport noted_store 2%N = export_downloaded content
        /\ handleFileImport has_at_sign noted_store 2%N content
           = (import_completed
                {| success := 1;
                   errors := [ {| row := 3; error := ZodError issues |} ];
                   total := 2 |}, db')
        /\ map bl_notes (buyer_leads db')
           = [Some two_line_note; Some "Called twice."])
  /\ (select_leads odd_store 2%N = [odd_lead]
      /\ exists content db',
           handleExport odd_store 2%N = export_downloaded content
           /\ handleFileImport has_at_sign odd_store 2%N content
              = (import_completed {| success := 1; errors := []; total := 1 |}, db')
           /\ map bl_first_name (buyer_leads db') = [" Al"; "Al"]
           /\ map bl_source (buyer_leads db') = [None; Some other]
           /\ map bl_notes (buyer_leads db')
              = [Some odd_note; Some "6 sill,2025-09-15T11:15:53+00:00"])
  /\ (select_leads empty_store 2%N = []
      /\ handleExport empty_store 2%N = export_no_data)
  /\ (exists content e1 e2,
        handleExport two_leads_store 4%N = export_downloaded content
        /\ handleFileImport has_at_sign two_leads_store 4%N content
           = (import_completed
                {| success := 0;
                   errors := [ {| row := 2; error := e1 |};
                               {| row := 3; error := e2 |} ];
                   total := 2 |}, two_leads_store)).
Proof.
  repeat split.
  - eexists _, _, _. split; [reflexivity|]. split; vm_compute; reflexivity.
  - eexists _, _. split; [reflexivity|]. repeat split; vm_compute; reflexivity.
  - eexists _, _, _. split; [reflexivity|]. vm_compute. reflexivity.
Qed.

(** * Further properties *)

(** ** Statements on the store *)

Lemma db_insert_lead_inv db uid r db' :
  db_insert_lead db uid r = Ok db' ->
  exists names row,
    requested_row (default_lead db) (fun _ => None) r = Ok (names, row)
    /\ lead_insert_allowed db uid row = true
    /\ check_constraints names row = Ok tt
    /\ db' = with_new_lead db row.
Proof.
  unfold db_insert_lead. intros H.
  destruct (requested_row _ _ r) as [[names row]|e] eqn:Hreq; cbn [bind] in H; [|discriminate].
  destruct (lead_insert_allowed db uid row) eqn:Hrls; cbn [guard bind] in H; [|discriminate].
  destruct (check_constraints names row) as [[]|e] eqn:Hc; cbn [bind] in H; [|discriminate].
  injection H as <-. exists names, row. auto.
Qed.

Lemma requested_row_fixed old text r names row :
  requested_row old text r = Ok (names, row) ->
  bl_id row = bl_id old
  /\ bl_created_at row = bl_created_at old
  /\ bl_updated_at row = bl_updated_at old
  /\ column (in_created_by r) (bl_created_by old) Ok = Ok (bl_created_by row)
  /\ column (in_assigned_to r) (bl_assigned_to old) Ok = Ok (bl_assigned_to row).
Proof.
  intros H. unfold requested_row in H. bind_inv H.
  injection H as <- <-. cbn. repeat split; assumption.
Qed.

Lemma db_insert_lead_role db uid r db' :
  db_insert_lead db uid r = Ok db' ->
  get_user_role db uid = Some admin \/ get_user_role db uid = Some agent.
Proof.
  intros H. apply db_insert_lead_inv in H as (names & row & _ & Hrls & _).
  rewrite lead_insert_allowed_role in Hrls.
  destruct (get_user_role db uid) as [[]|]; try discriminate; auto.
Qed.

(** X1. An accepted insert adds one lead at the end of the table and touches
    nothing else: the caller is an admin or an agent, the new lead passes
    the insert policy and the constraints of the table, and a column the
    statement leaves out gets its default ([new], [website], 3). *)
Theorem insert_adds_one_lead db uid r db' :
  db_insert_lead db uid r = Ok db' ->
  exists row,
    buyer_leads db' = (buyer_leads db ++ [row])%list
    /\ profiles db' = profiles db
    /\ lead_activities db' = lead_activities db
    /\ (get_user_role db uid = Some admin \/ get_user_role db uid = Some agent)
    /\ lead_insert_allowed db uid row = true
    /\ priority_in_range row
    /\ (in_status r = Default -> bl_status row = Some new)
    /\ (in_source r = Default -> bl_source row = Some website)
    /\ (in_priority r = Default -> bl_priority row = Some 3).
Proof.
  intros H. pose proof (db_insert_lead_role _ _ _ _ H) as Hrole.
  apply db_insert_lead_inv in H as (names & row & Hreq & Hrls & Hchk & ->).
  exists row.
  destruct (requested_row_constrained _ _ _ _ _ Hreq) as (Hst & Hso & Hpr).
  pose proof (check_constraints_priority _ _ Hchk) as Hrange.
  repeat split; try assumption.
  - intros E. rewrite E in Hst. cbn in Hst. congruence.
  - intros E. rewrite E in Hso. cbn in Hso. congruence.
  - intros E. rewrite E in Hpr. cbn in Hpr. congruence.
Qed.

Lemma insert_adds_one_lead_witness :
  exists db' row,
    db_insert_lead empty_store (Some 2%N) (leadData john_doe 2%N) = Ok db'
    /\ buyer_leads db' = [row]
    /\ bl_status row = Some new /\ bl_priority row = Some 3.
Proof.
  eexists.
  destruct (insert_adds_one_lead empty_store (Some 2%N) (leadData john_doe 2%N) _ eq_refl)
    as (row & Hl & _).
  exists row. split; [reflexivity|]. split; [exact Hl|].
  injection Hl as <-. split; reflexivity.
Defined.

Lemma filter_true {A} (p : A -> bool) (l : list A) :
  (forall x, p x = true) -> List.filter p l = l.
Proof.
  intros H. induction l as [|x l IH]; [reflexivity|].
  cbn [List.filter]. rewrite H, IH. reflexivity.
Qed.

Lemma db_delete_lead_not_admin db uid id :
  get_user_role db uid <> Some admin -> db_delete_lead db uid id = db.
Proof.
  intros Hrole. unfold db_delete_lead.
  assert (Hgone : forall bl, N.eqb (bl_id bl) id && lead_read_allowed db uid bl
                             && lead_delete_allowed db uid bl = false).
  { intros bl. rewrite lead_delete_allowed_role.
    destruct (get_user_role db uid) as [[]|]; try apply andb_false_r. congruence. }
  rewrite !filter_true.
  - destruct db; reflexivity.
  - intros la. rewrite (existsb_pointwise _ (fun _ => false)).
    + induction (buyer_leads db); [reflexivity|assumption].
    + intros bl. rewrite Hgone. reflexivity.
  - intros bl. rewrite Hgone. reflexivity.
Qed.


Lemma no_role_no_read db uid bl :
  get_user_role db uid = None -> lead_read_allowed db uid bl = false.
Proof. intros H. rewrite lead_read_allowed_role, H. reflexivity. Qed.

Lemma filter_false {A} (p : A -> bool) (l : list A) :
  (forall x, p x = false) -> List.filter p l = [].
Proof.
  intros H. induction l as [|x l IH]; [reflexivity|].
  cbn [List.filter]. rewrite H. exact IH.
Qed.

Lemma activity_insert_allowed_read db uid la :
  activity_insert_allowed db uid la = activity_read_allowed db uid la.
Proof.
  unfold activity_insert_allowed, activity_read_allowed, check_allows, using_allows.
  cbn. rewrite !orb_false_r. reflexivity.
Qed.



Lemma gone_for_admin db uid id bl :
  get_user_role db uid = Some admin ->
  N.eqb (bl_id bl) id && lead_read_allowed db uid bl && lead_delete_allowed db uid bl
  = N.eqb (bl_id bl) id.
Proof.
  intros Hrole. rewrite lead_read_allowed_role, lead_delete_allowed_role, Hrole.
  cbn. rewrite !andb_true_r. reflexivity.
Qed.

(** X3. Deleting is for admins. The statement of any other caller leaves
    the whole store as it is. The delete of an admin removes the leads
    with the given id and no other, keeps the order of the rest, and
    removes the activities of the removed leads and no other. *)
Theorem delete_is_for_admins db uid id :
  (get_user_role db uid <> Some admin -> db_delete_lead db uid id = db)
  /\ (get_user_role db uid = Some admin ->
      buyer_leads (db_delete_lead db uid id)
      = List.filter (fun bl => negb (N.eqb (bl_id bl) id)) (buyer_leads db)
      /\ lead_activities (db_delete_lead db uid id)
         = List.filter (fun la =>
               negb (N.eqb (la_lead_id la) id
                     && existsb (fun bl => N.eqb (bl_id bl) id) (buyer_leads db)))
             (lead_activities db)
      /\ profiles (db_delete_lead db uid id) = profiles db).
Proof.
  split; [apply db_delete_lead_not_admin|].
  intros Hrole. unfold db_delete_lead. cbn [buyer_leads lead_activities profiles].
  repeat split.
  - apply filter_ext. intros bl. rewrite gone_for_admin by exact Hrole. reflexivity.
  - apply filter_ext. intros la. f_equal.
    induction (buyer_leads db) as [|bl l IH]; [cbn; apply eq_sym, andb_false_r|].
    cbn [existsb]. rewrite IH, gone_for_admin by exact Hrole.
    destruct (N.eqb_spec (bl_id bl) id) as [->|Hne]; cbn [andb orb].
    + rewrite N.eqb_sym. destruct (N.eqb (la_lead_id la) id); reflexivity.
    + reflexivity.
Qed.

Lemma delete_is_for_admins_witness :
  db_delete_lead example_store (Some 2%N) 10%N = example_store
  /\ buyer_leads (db_delete_lead example_store (Some 1%N) 10%N) = []
  /\ lead_activities (db_delete_lead example_store (Some 1%N) 10%N) = [].
Proof.
  split.
  - apply (delete_is_for_admins example_store (Some 2%N) 10%N). discriminate.
  - destruct (delete_is_for_admins example_store (Some 1%N) 10%N) as [_ H].
    destruct (H eq_refl) as (Hl & Ha & _).
    split; [rewrite Hl|rewrite Ha]; reflexivity.
Defined.

(** X4. A delete keeps the activities attached: when every activity belonged
    to a stored lead before, every remaining activity belongs to a
    remaining lead. *)
Theorem delete_keeps_activities_attached db uid id :
  activities_refer_to_leads db ->
  activities_refer_to_leads (db_delete_lead db uid id).
Proof.
  unfold activities_refer_to_leads, db_delete_lead. cbn [buyer_leads lead_activities].
  set (gone := fun bl => N.eqb (bl_id bl) id && lead_read_allowed db uid bl
                         && lead_delete_allowed db uid bl).
  intros Hall. apply List.Forall_forall. intros la Hin.
  apply filter_In in Hin as [Hin Hkept].
  rewrite List.Forall_forall in Hall. specialize (Hall la Hin).
  apply existsb_exists in Hall as (bl & Hbl & Hid).
  apply existsb_exists. exists bl. split; [|exact Hid].
  apply filter_In. split; [exact Hbl|].
  fold (gone bl). destruct (gone bl) eqn:Hg; [|reflexivity].
  apply negb_true_iff in Hkept.
  assert (existsb (fun bl => gone bl && N.eqb (bl_id bl) (la_lead_id la)) (buyer_leads db)
          = true) as Hex.
  { apply existsb_exists. exists bl. rewrite Hg, Hid. auto. }
  destruct (eq_true_false_abs _ Hex Hkept).
Qed.

Lemma delete_keeps_activities_attached_witness :
  activities_refer_to_leads example_store
  /\ activities_refer_to_leads (db_delete_lead example_store (Some 2%N) 10%N).
Proof.
  assert (H : activities_refer_to_leads example_store)
    by (repeat constructor).
  split; [exact H|].
  apply delete_keeps_activities_attached. exact H.
Defined.

Lemma map_result_Forall2 {E A B} (f : A -> result E B) (l : list A) (l' : list B) :
  map_result f l = Ok l' -> Forall2 (fun a b => f a = Ok b) l l'.
Proof.
  revert l'. induction l as [|a l IH]; intros l' H.
  - injection H as <-. constructor.
  - cbn [map_result] in H.
    destruct (f a) as [b|e] eqn:Hf; cbn [bind] in H; [|discriminate].
    destruct (map_result f l) as [bs|e] eqn:Hl; cbn [bind] in H; [|discriminate].
    injection H as <-. constructor; [exact Hf|]. apply IH. reflexivity.
Qed.

Lemma update_row_inv db uid id r bl bl' :
  update_row db uid id r bl = Ok bl' ->
  bl_id bl' = bl_id bl
  /\ bl_created_at bl' = bl_created_at bl
  /\ (reaches db uid id bl = false -> bl' = bl)
  /\ (reaches db uid id bl = true ->
      bl_updated_at bl' = Some (db_now db)
      /\ check_allows buyer_leads_policies UPDATE db uid bl' = true).
Proof.
  unfold update_row. destruct (reaches db uid id bl).
  - intros H.
    destruct (requested_row bl Some r) as [[names row]|e] eqn:Hreq;
      cbn [bind] in H; [|discriminate].
    destruct (check_allows buyer_leads_policies UPDATE db uid
                (update_updated_at_column db row)) eqn:Hrls;
      cbn [guard bind] in H; [|discriminate].
    destruct (check_constraints names (update_updated_at_column db row)) as [[]|e];
      cbn [bind] in H; [|discriminate].
    injection H as <-.
    destruct (requested_row_fixed _ _ _ _ _ Hreq) as (Hid & Hc & _).
    cbn. repeat split; try assumption. discriminate.
  - intros [= <-]. repeat split; try reflexivity; discriminate.
Qed.

(** X5. An accepted update keeps the table in place, row for row: there
    are as many rows as before; a row the statement
    does not reach (another id, or one the caller may not read or update)
    is as before; a row it reaches has the time of the statement in
    [updated_at], whatever the statement asked for, and still passes the
    update policy. The other tables are as before. *)
Theorem update_keeps_rows_in_place db uid id r db' :
  db_update_lead db uid id r = Ok db' ->
  Forall2 (fun bl bl' =>
      (reaches db uid id bl = false -> bl' = bl)
      /\ (reaches db uid id bl = true ->
          bl_updated_at bl' = Some (db_now db)
          /\ check_allows buyer_leads_policies UPDATE db uid bl' = true))
    (buyer_leads db) (buyer_leads db')
  /\ profiles db' = profiles db
  /\ lead_activities db' = lead_activities db.
Proof.
  unfold db_update_lead. intros H.
  destruct (map_result (update_row db uid id r) (buyer_leads db)) as [rows|e] eqn:Hrows;
    cbn [bind] in H; [|discriminate].
  injection H as <-. cbn. repeat split.
  apply map_result_Forall2 in Hrows.
  induction Hrows as [|bl bl' l l' Hrow _ IH]; constructor; [|exact IH].
  destruct (update_row_inv _ _ _ _ _ _ Hrow) as (_ & _ & Hout & Hin).
  split; assumption.
Qed.

Lemma update_keeps_rows_in_place_witness :
  exists db',
    db_update_lead example_store (Some 4%N) 10%N set_notes_called = Ok db'
    /\ profiles db' = profiles example_store
    /\ lead_activities db' = lead_activities example_store.
Proof.
  eexists. split; [reflexivity|].
  apply (update_keeps_rows_in_place example_store (Some 4%N) 10%N set_notes_called _
           eq_refl).
Defined.

(** ** The policies of the activities *)

(** X6. The insert policy of [lead_activities] is the read policy: it looks
    at the lead of the activity and at nothing else of the new row, so
    the [user_id] the activity names need not be the caller's. No policy
    is for UPDATE or DELETE: a stored activity cannot be changed or
    removed through the policies. *)
Theorem activity_policies db uid la :
  activity_insert_allowed db uid la = activity_read_allowed db uid la
  /\ (forall id user_id activity_type description created_at,
        activity_insert_allowed db uid
          {| la_id := id; la_lead_id := la_lead_id la; la_user_id := user_id;
             la_activity_type := activity_type; la_description := description;
             la_created_at := created_at |}
        = activity_insert_allowed db uid la)
  /\ using_allows lead_activities_policies UPDATE db uid la = false
  /\ check_allows lead_activities_policies UPDATE db uid la = false
  /\ using_allows lead_activities_policies DELETE db uid la = false.
Proof.
  split; [apply activity_insert_allowed_read|].
  split; [|repeat split].
  intros. rewrite !activity_insert_allowed_read, !activity_read_allowed_exists.
  reflexivity.
Qed.

(** ** Registration and profiles *)

Lemma find_app_None {A} (p : A -> bool) (l l' : list A) :
  List.find p l = None -> List.find p (l ++ l') = List.find p l'.
Proof.
  induction l as [|x l IH]; [reflexivity|].
  cbn [List.find app]. destruct (p x); [discriminate|exact IH].
Qed.

Lemma find_app_Some {A} (p : A -> bool) (l l' : list A) x :
  List.find p l = Some x -> List.find p (l ++ l') = Some x.
Proof.
  induction l as [|y l IH]; [discriminate|].
  cbn [List.find app]. destruct (p y); [auto|exact IH].
Qed.

Lemma find_existsb {A} (p : A -> bool) (l : list A) :
  existsb p l = false -> List.find p l = None.
Proof.
  induction l as [|x l IH]; [reflexivity|].
  cbn [existsb List.find]. destruct (p x); [discriminate|exact IH].
Qed.

(** X7. The registration trigger fails exactly for a user who has a profile.
    When it succeeds, the new user is an agent, who reads every lead and
    may insert leads but not delete them; the name is the one given or
    [User]; the roles of the other users and the two other tables are as
    before. *)
Theorem new_user_is_agent db NEW :
  (handle_new_user db NEW = None <->
   exists p, In p (profiles db) /\ pr_user_id p = au_id NEW)
  /\ forall db', handle_new_user db NEW = Some db' ->
       get_user_role db' (Some (au_id NEW)) = Some agent
       /\ (forall bl, lead_read_allowed db' (Some (au_id NEW)) bl = true
                      /\ lead_insert_allowed db' (Some (au_id NEW)) bl = true
                      /\ lead_delete_allowed db' (Some (au_id NEW)) bl = false)
       /\ (forall u, u <> au_id NEW ->
             get_user_role db' (Some u) = get_user_role db (Some u))
       /\ (exists p, profiles db' = (profiles db ++ [p])%list
                     /\ pr_full_name p = Some (default "User" (au_full_name NEW)))
       /\ buyer_leads db' = buyer_leads db
       /\ lead_activities db' = lead_activities db.
Proof.
  unfold handle_new_user.
  destruct (existsb (fun p => N.eqb (pr_user_id p) (au_id NEW)) (profiles db)) eqn:Hex.
  - split; [|discriminate]. split; [intros _|reflexivity].
    apply existsb_exists in Hex as (p & Hin & Hp). apply N.eqb_eq in Hp. eauto.
  - split.
    + split; [discriminate|]. intros (p & Hin & Hp).
      assert (existsb (fun p => N.eqb (pr_user_id p) (au_id NEW)) (profiles db) = true).
      { apply existsb_exists. exists p. split; [exact Hin|]. apply N.eqb_eq, Hp. }
      congruence.
    + intros db' [= <-].
      assert (Hrole : get_user_role
                {| profiles := profiles db ++
                     [ {| pr_user_id := au_id NEW;
                          pr_full_name := Some (default "User" (au_full_name NEW));
                          pr_role := Some agent |} ];
                   buyer_leads := buyer_leads db;
                   lead_activities := lead_activities db;
                   db_now := db_now db;
                   db_next_id := db_next_id db |} (Some (au_id NEW)) = Some agent).
      { unfold get_user_role. cbn [profiles].
        rewrite find_app_None by (apply find_existsb, Hex).
        cbn [List.find pr_user_id]. rewrite N.eqb_refl. reflexivity. }
      split; [exact Hrole|]. split; [|split; [|split; [|split; reflexivity]]].
      * intros bl.
        rewrite lead_read_allowed_role, lead_insert_allowed_role,
          lead_delete_allowed_role, Hrole. auto.
      * intros u Hu. unfold get_user_role. cbn [profiles].
        destruct (List.find (fun p => N.eqb (pr_user_id p) u) (profiles db)) as [p|] eqn:Hf.
        -- rewrite (find_app_Some _ _ _ _ Hf). reflexivity.
        -- rewrite (find_app_None _ _ _ Hf). cbn [List.find pr_user_id].
           destruct (N.eqb_spec (au_id NEW) u); [congruence|reflexivity].
      * eexists. split; reflexivity.
Qed.

Lemma new_user_is_agent_witness :
  exists db',
    handle_new_user empty_store nameless_user = Some db'
    /\ get_user_role db' (Some 7%N) = Some agent
    /\ map pr_full_name (profiles db')
       = [Some "Ada"; Some "Bob"; Some "Cyd"; Some "Dee"; Some "User"].
Proof.
  eexists. split; [reflexivity|]. split; [|reflexivity].
  destruct (new_user_is_agent empty_store nameless_user) as (_ & H).
  apply (H _ eq_refl).
Defined.

(** X8. Every profile can be read by every caller. A profile can be updated
    by its own user only, and the policy checks nothing but the owner on
    the new row: it lets a user give that profile any role. No policy is
    for INSERT or DELETE. *)
Theorem profile_policies db uid p :
  using_allows profiles_policies SELECT db uid p = true
  /\ (using_allows profiles_policies UPDATE db uid p = true <-> uid = Some (pr_user_id p))
  /\ (forall name role,
        check_allows profiles_policies UPDATE db uid
          {| pr_user_id := pr_user_id p; pr_full_name := name; pr_role := role |} = true
        <-> uid = Some (pr_user_id p))
  /\ check_allows profiles_policies INSERT db uid p = false
  /\ using_allows profiles_policies DELETE db uid p = false.
Proof.
  assert (Hown : forall q, Sql.holds (Sql.cmp N.eqb uid (Some (pr_user_id q))) = true
                           <-> uid = Some (pr_user_id q)).
  { intros q. destruct uid as [u|]; cbn; [|split; discriminate].
    destruct (N.eqb_spec u (pr_user_id q)) as [->|Hne]; cbn; split; try tauto;
      try discriminate. intros [= ->]. contradiction. }
  split; [reflexivity|]. split; [|split; [|split; reflexivity]].
  - unfold using_allows. cbn. rewrite orb_false_r. apply Hown.
  - intros name role. unfold check_allows. cbn. rewrite orb_false_r.
    apply (Hown {| pr_user_id := pr_user_id p; pr_full_name := name; pr_role := role |}).
Qed.

(** ** The line parser *)

Lemma includes_char_trimStart c s :
  includes_char c (trimStart s) = true -> includes_char c s = true.
Proof.
  induction s as [|a s IH]; [discriminate|].
  cbn [trimStart]. destruct (is_white_space a); [|auto].
  intros H. cbn [includes_char]. rewrite (IH H). apply orb_true_r.
Qed.

Lemma includes_char_trimEnd c s :
  includes_char c (trimEnd s) = true -> includes_char c s = true.
Proof.
  induction s as [|a s IH]; [discriminate|].
  cbn [trimEnd includes_char]. destruct (trimEnd s) as [|b t] eqn:Ht.
  - destruct (is_white_space a); [discriminate|].
    cbn [includes_char]. rewrite orb_false_r. intros ->. reflexivity.
  - cbn [includes_char]. destruct (Ascii.eqb a c); [reflexivity|].
    cbn [orb]. intros H. apply IH. exact H.
Qed.

Lemma includes_char_trim c s :
  includes_char c s = false -> includes_char c (trim s) = false.
Proof.
  intros H. destruct (includes_char c (trim s)) eqn:E; [|reflexivity].
  unfold trim in E. apply includes_char_trimEnd, includes_char_trimStart in E.
  congruence.
Qed.

Lemma starts_clean_trimStart s : starts_clean (trimStart s) = true.
Proof.
  induction s as [|a s IH]; [reflexivity|].
  cbn [trimStart]. destruct (is_white_space a) eqn:Ha; [exact IH|].
  cbn [starts_clean]. rewrite Ha. reflexivity.
Qed.

Lemma ends_clean_trimEnd s : ends_clean (trimEnd s) = true.
Proof.
  induction s as [|a s IH]; [reflexivity|].
  cbn [trimEnd]. destruct (trimEnd s) as [|b t] eqn:Ht.
  - destruct (is_white_space a) eqn:Ha; [reflexivity|].
    cbn [ends_clean]. rewrite Ha. reflexivity.
  - exact IH.
Qed.

Lemma starts_clean_trimEnd s :
  starts_clean s = true -> starts_clean (trimEnd s) = true.
Proof.
  destruct s as [|c s]; [reflexivity|]. cbn [starts_clean trimEnd]. intros Hc.
  destruct (trimEnd s); [|exact Hc].
  destruct (is_white_space c) eqn:E; [discriminate|].
  cbn [starts_clean]. rewrite E. reflexivity.
Qed.

(** Trimming twice is trimming once. *)
Lemma trim_trim s : trim (trim s) = trim s.
Proof.
  apply trim_fixed. unfold trim. split.
  - apply starts_clean_trimEnd, starts_clean_trimStart.
  - apply ends_clean_trimEnd.
Qed.

Lemma includes_char_snoc c s a :
  includes_char c (s +:+ String a "") = includes_char c s || Ascii.eqb a c.
Proof. rewrite includes_char_append. cbn [includes_char]. rewrite orb_false_r. reflexivity. Qed.

Lemma parseCsvLine_from_cells line result current q :
  Forall parsed_cell result -> includes_char DQUOTE current = false ->
  parseCsvLine_from line result current q <> []
  /\ Forall parsed_cell (parseCsvLine_from line result current q).
Proof.
  revert result current q. induction line as [|c line IH]; intros result current q Hres Hcur.
  - cbn [parseCsvLine_from]. split; [destruct result; discriminate|].
    apply Forall_app. split; [exact Hres|]. constructor; [|constructor].
    split; [apply trim_trim|apply includes_char_trim, Hcur].
  - cbn [parseCsvLine_from]. destruct (Ascii.eqb_spec c DQUOTE) as [->|Hc].
    + apply IH; assumption.
    + destruct (Ascii.eqb c COMMA && negb q).
      * apply IH; [|reflexivity].
        apply Forall_app. split; [exact Hres|]. constructor; [|constructor].
        split; [apply trim_trim|apply includes_char_trim, Hcur].
      * apply IH; [exact Hres|].
        rewrite includes_char_snoc, Hcur.
        destruct (Ascii.eqb_spec c DQUOTE); [contradiction|reflexivity].
Qed.

(** X9. Whatever the line, [parseCsvLine] returns at least one cell, and
    every cell it returns is trimmed and holds no double quote. *)
Theorem parseCsvLine_cells_are_trimmed line :
  parseCsvLine line <> []
  /\ Forall (fun cell => trim cell = cell /\ includes_char DQUOTE cell = false)
            (parseCsvLine line).
Proof. apply parseCsvLine_from_cells; [constructor|reflexivity]. Qed.

Lemma split_nonempty sep s : split sep s <> [].
Proof.
  destruct s as [|c s]; [discriminate|]. cbn [split].
  destruct (Ascii.eqb c sep); [discriminate|]. destruct (split sep s); discriminate.
Qed.

Lemma parseCsvLine_from_split line result current :
  includes_char DQUOTE line = false ->
  parseCsvLine_from line result current false
  = (result ++ map trim match split COMMA line with
                        | x :: xs => (current +:+ x) :: xs
                        | [] => [current]
                        end)%list.
Proof.
  revert result current. induction line as [|c line IH]; intros result current Hq.
  - cbn [parseCsvLine_from split map]. rewrite append_nil_r. reflexivity.
  - cbn [includes_char] in Hq. apply orb_false_elim in Hq as [Hc Hq].
    cbn [parseCsvLine_from split]. rewrite Hc. cbn [negb]. rewrite andb_true_r.
    destruct (Ascii.eqb c COMMA).
    + rewrite (IH _ _ Hq). cbn [map]. rewrite append_nil_r, <- app_assoc.
      destruct (split COMMA line) as [|x xs] eqn:E; [destruct (split_nonempty _ _ E)|].
      reflexivity.
    + rewrite (IH _ _ Hq). destruct (split COMMA line) as [|x xs] eqn:E.
      * destruct (split_nonempty _ _ E).
      * rewrite append_assoc. reflexivity.
Qed.

(** X10. On a line without double quote, [parseCsvLine] is the split on
    commas followed by the trimming of every piece. *)
Theorem parseCsvLine_without_quotes line :
  includes_char DQUOTE line = false ->
  parseCsvLine line = map trim (split COMMA line).
Proof.
  intros Hq. unfold parseCsvLine. rewrite parseCsvLine_from_split by exact Hq.
  destruct (split COMMA line) as [|x xs] eqn:E; [|reflexivity].
  destruct (split_nonempty _ _ E).
Qed.

Lemma parseCsvLine_quoted s :
  includes_char DQUOTE s = false -> parseCsvLine (quoted s) = [trim s].
Proof.
  intros Hq. unfold parseCsvLine, quoted. destruct (includes_char COMMA s) eqn:Hc.
  - rewrite append_cons, parseCsvLine_from_quote.
    rewrite parseCsvLine_from_text by auto. reflexivity.
  - rewrite <- (append_nil_r s) at 1. rewrite parseCsvLine_from_text by auto. reflexivity.
Qed.

Lemma join_comma_quoted c cells :
  join "," (map quoted (c :: cells))
  = line_of_cells (List.removelast (c :: cells)) (quoted (List.last (c :: cells) "")).
Proof.
  revert c. induction cells as [|d cells IH]; intros c; [reflexivity|].
  change (join "," (map quoted (c :: d :: cells)))
    with (quoted c +:+ String COMMA (join "," (map quoted (d :: cells)))).
  rewrite IH. reflexivity.
Qed.

(** X11. Cells without double quote, written as the export writes them
    (in quotes when they hold a comma, joined by commas), are read back
    by [parseCsvLine] as the same cells, trimmed. *)
Theorem parseCsvLine_reads_quoted_cells cells :
  cells <> [] ->
  Forall (fun s => includes_char DQUOTE s = false) cells ->
  parseCsvLine (join "," (map quoted cells)) = map trim cells.
Proof.
  destruct cells as [|c cells]; [congruence|]. intros _ Hall.
  rewrite join_comma_quoted. unfold parseCsvLine at 1.
  assert (Hsplit : (c :: cells) = (List.removelast (c :: cells) ++ [List.last (c :: cells) ""])%list)
    by (apply app_removelast_last; discriminate).
  rewrite Hsplit in Hall. apply Forall_app in Hall as [Hinit Hlast].
  rewrite parseCsvLine_line_of_cells by exact Hinit.
  inversion Hlast as [|? ? Hl _]; subst.
  rewrite parseCsvLine_quoted by exact Hl. cbn [app].
  change [trim (List.last (c :: cells) "")] with (map trim [List.last (c :: cells) ""]).
  rewrite <- map_app, <- Hsplit. reflexivity.
Qed.

Lemma parseCsvLine_without_quotes_witness :
  includes_char DQUOTE "Doe , john@x.com,, 3" = false
  /\ parseCsvLine "Doe , john@x.com,, 3" = ["Doe"; "john@x.com"; ""; "3"].
Proof.
  split; [reflexivity|].
  rewrite parseCsvLine_without_quotes; reflexivity.
Defined.

Lemma parseCsvLine_reads_quoted_cells_witness :
  parseCsvLine (join "," (map quoted ["Lee, Jr."; " Condo"; ""]))
  = ["Lee, Jr."; "Condo"; ""].
Proof.
  rewrite parseCsvLine_reads_quoted_cells; [reflexivity|discriminate|].
  repeat constructor.
Defined.

(** ** Header names *)

Lemma lower_normal c : is_upper_case (lower c) = false.
Proof. destruct c as [[] [] [] [] [] [] [] []]; reflexivity. Qed.

Lemma lower_white_space c : is_white_space (lower c) = is_white_space c.
Proof. destruct c as [[] [] [] [] [] [] [] []]; reflexivity. Qed.

Lemma lower_fixed c : seven_bit c = true -> is_upper_case c = false -> lower c = c.
Proof.
  destruct c as [[] [] [] [] [] [] [] []]; intros H7 H;
    first [discriminate H7 | discriminate H | reflexivity].
Qed.

Lemma lower_lower c : lower (lower c) = lower c.
Proof. destruct c as [[] [] [] [] [] [] [] []]; reflexivity. Qed.

Lemma all_chars_toLowerCase s :
  all_chars (fun c => negb (is_upper_case c)) (toLowerCase s) = true.
Proof.
  induction s as [|c s IH]; [reflexivity|].
  cbn [toLowerCase all_chars]. rewrite lower_normal, IH. reflexivity.
Qed.

Lemma replace_spaces_normal in_run s :
  all_chars (fun c => negb (is_upper_case c)) s = true ->
  all_chars normal_char (replace_spaces in_run s) = true.
Proof.
  revert in_run. induction s as [|c s IH]; intros in_run H; [reflexivity|].
  cbn [all_chars] in H. apply andb_prop in H as [Hc Hs].
  cbn [replace_spaces]. destruct (is_white_space c) eqn:Hw.
  - destruct in_run; [apply IH, Hs|].
    cbn [all_chars]. rewrite (IH _ Hs). reflexivity.
  - cbn [all_chars]. unfold normal_char at 1. rewrite Hw, Hc, (IH _ Hs). reflexivity.
Qed.

Lemma toLowerCase_fixed s :
  all_chars seven_bit s = true -> all_chars normal_char s = true -> toLowerCase s = s.
Proof.
  induction s as [|c s IH]; [reflexivity|].
  cbn [all_chars toLowerCase]. intros H7 H.
  apply andb_prop in H7 as [Hc7 Hs7]. apply andb_prop in H as [Hc Hs].
  unfold normal_char in Hc. apply andb_prop in Hc as [_ Hu].
  apply negb_true_iff in Hu. rewrite (lower_fixed _ Hc7 Hu), (IH Hs7 Hs). reflexivity.
Qed.

Lemma toLowerCase_toLowerCase s : toLowerCase (toLowerCase s) = toLowerCase s.
Proof.
  induction s as [|c s IH]; [reflexivity|].
  cbn [toLowerCase]. rewrite lower_lower, IH. reflexivity.
Qed.

(** Lowering and the replacement of white space do not meet: a character
    is white space when its lower case is, and the underscore is its own
    lower case. *)
Lemma toLowerCase_replace_spaces in_run s :
  toLowerCase (replace_spaces in_run s) = replace_spaces in_run (toLowerCase s).
Proof.
  revert in_run. induction s as [|c s IH]; intros in_run; [reflexivity|].
  cbn [replace_spaces toLowerCase]. rewrite lower_white_space.
  destruct (is_white_space c).
  - destruct in_run; [apply IH|].
    cbn [toLowerCase]. rewrite IH. reflexivity.
  - cbn [toLowerCase]. rewrite IH. reflexivity.
Qed.

Lemma replace_spaces_fixed in_run s :
  all_chars (fun c => negb (is_white_space c)) s = true -> replace_spaces in_run s = s.
Proof.
  revert in_run. induction s as [|c s IH]; intros in_run H; [reflexivity|].
  cbn [all_chars] in H. apply andb_prop in H as [Hw Hs].
  apply negb_true_iff in Hw. cbn [replace_spaces]. rewrite Hw, (IH _ Hs). reflexivity.
Qed.

Lemma all_chars_impl (p q : ascii -> bool) s :
  (forall c, p c = true -> q c = true) -> all_chars p s = true -> all_chars q s = true.
Proof.
  intros Hpq. induction s as [|c s IH]; [reflexivity|].
  cbn [all_chars]. intros H. apply andb_prop in H as [Hc Hs].
  rewrite (Hpq c Hc), (IH Hs). reflexivity.
Qed.

Lemma normal_no_white_space s :
  all_chars normal_char s = true ->
  all_chars (fun c => negb (is_white_space c)) s = true.
Proof.
  apply all_chars_impl. intros c H. unfold normal_char in H.
  apply andb_prop in H as [H _]. exact H.
Qed.

(** X12. A normalised header name holds no white space (tab to carriage
    return, space) and no capital letter A-Z; a name of ASCII characters
    of that shape is its own normal form; and normalising twice is
    normalising once. *)
Theorem normalize_header_normal_form h :
  all_chars normal_char (normalize_header h) = true
  /\ (all_chars seven_bit h = true -> all_chars normal_char h = true ->
      normalize_header h = h)
  /\ normalize_header (normalize_header h) = normalize_header h.
Proof.
  assert (Hn : all_chars normal_char (normalize_header h) = true)
    by apply replace_spaces_normal, all_chars_toLowerCase.
  split; [exact Hn|]. split.
  - intros H7 Hs. unfold normalize_header.
    rewrite (toLowerCase_fixed h H7 Hs).
    apply replace_spaces_fixed, normal_no_white_space, Hs.
  - unfold normalize_header at 1 2.
    rewrite toLowerCase_replace_spaces, toLowerCase_toLowerCase.
    fold (normalize_header h).
    apply replace_spaces_fixed, normal_no_white_space, Hn.
Qed.

Lemma normalize_header_normal_form_witness :
  normalize_header "First  Name" = "first_name"
  /\ normalize_header "first_name" = "first_name".
Proof.
  split; [reflexivity|].
  destruct (normalize_header_normal_form "first_name") as (_ & H & _).
  apply H; reflexivity.
Defined.

(** ** The row object *)

Lemma forEach_header_beyond headers index values extra rowData :
  (index + length headers <= length values)%nat ->
  forEach_header headers index (values ++ extra) rowData
  = forEach_header headers index values rowData.
Proof.
  revert index rowData. induction headers as [|h hs IH]; intros index rowData Hlen;
    [reflexivity|].
  cbn [length] in Hlen. cbn [forEach_header].
  rewrite lookup_app_l by lia. apply IH. lia.
Qed.

Lemma forEach_header_app h1 h2 index values rowData :
  forEach_header (h1 ++ h2) index values rowData
  = forEach_header h2 (index + length h1) values (forEach_header h1 index values rowData).
Proof.
  revert index rowData. induction h1 as [|h h1 IH]; intros index rowData.
  - cbn [app length forEach_header]. rewrite Nat.add_0_r. reflexivity.
  - cbn [app length forEach_header]. rewrite IH. f_equal. lia.
Qed.

Lemma forEach_header_proto headers index values rowData :
  forEach_header headers index values rowData !! "__proto__" = rowData !! "__proto__".
Proof.
  revert index rowData. induction headers as [|h hs IH]; intros index rowData;
    [reflexivity|].
  cbn [forEach_header]. rewrite IH.
  destruct (values !! index) as [v|]; [|reflexivity].
  destruct (truthy v); [apply assign_lookup_proto|reflexivity].
Qed.

(** X13. The row object is made of the cells that stand under a header.
    Cells beyond the last header are not looked at: a row with as many
    cells as headers, or more, gives the row object of its first cells.
    When a header name other than [__proto__] stands over two columns, the
    later cell wins, unless it is empty: then the earlier one stays.  A
    column headed [__proto__] leaves no entry in the row object, whatever
    its cells hold. *)
Theorem row_object_follows_the_headers :
  (forall headers values extra,
     (length headers <= length values)%nat ->
     rowData_of headers (values ++ extra) = rowData_of headers values)
  /\ (forall h1 h2 v1 v2 key v,
        length h1 = length v1 -> ~ In key h2 -> key <> "__proto__" ->
        rowData_of (h1 ++ key :: h2) (v1 ++ v :: v2) !! key
        = if truthy v then Some v else rowData_of h1 v1 !! key)
  /\ (forall headers values, rowData_of headers values !! "__proto__" = None).
Proof.
  split; [|split].
  - intros headers values extra H. apply forEach_header_beyond. exact H.
  - intros h1 h2 v1 v2 key v Hlen Hnot Hproto. unfold rowData_of.
    rewrite forEach_header_app. cbn [forEach_header].
    rewrite forEach_header_lookup_other by exact Hnot.
    cbn [Nat.add]. rewrite lookup_app_r by lia.
    rewrite Hlen, Nat.sub_diag. cbn [lookup list_lookup].
    rewrite (forEach_header_beyond h1 0 v1 (v :: v2)) by (cbn; lia).
    destruct (truthy v); [apply assign_lookup_eq, Hproto|reflexivity].
  - intros headers values. unfold rowData_of.
    rewrite forEach_header_proto. apply lookup_empty.
Qed.

Lemma row_object_follows_the_headers_witness :
  rowData_of ["first_name"; "email"] (["Al"; "al@x.com"] ++ ["n/a"; "7"])
  = rowData_of ["first_name"; "email"] ["Al"; "al@x.com"]
  /\ rowData_of (["email"; "phone"] ++ "email" :: ["notes"])
                (["a@x.com"; "1"] ++ "b@x.com" :: ["hi"]) !! "email"
     = Some "b@x.com"
  /\ rowData_of ["first_name"; "__proto__"] ["Al"; "x"] !! "__proto__" = None.
Proof.
  destruct row_object_follows_the_headers as (Hbeyond & Hlater & Hproto).
  split; [|split].
  - apply Hbeyond. cbn. lia.
  - rewrite Hlater; [reflexivity|reflexivity| |discriminate].
    cbn. intros [H|[]]. discriminate H.
  - apply Hproto.
Defined.

(** ** Runs of the import *)

Lemma requested_row_contact old text r names row :
  requested_row old text r = Ok (names, row) ->
  column (in_last_contacted r) (bl_last_contacted old) Ok = Ok (bl_last_contacted row)
  /\ column (in_next_follow_up r) (bl_next_follow_up old) Ok
     = Ok (bl_next_follow_up row).
Proof.
  intros H. unfold requested_row in H. bind_inv H.
  injection H as <- <-. cbn. split; reflexivity.
Qed.

Lemma rows_ascend_mono lo lo' hi hi' rows :
  (lo <= lo')%nat -> (hi' <= hi)%nat ->
  rows_ascend lo' hi' rows -> rows_ascend lo hi rows.
Proof.
  revert lo lo'. induction rows as [|r rows IH]; intros lo lo' Hlo Hhi; [trivial|].
  cbn [rows_ascend]. intros [Hr Hrest]. split; [lia|].
  apply (IH (S r) (S r)); [lia|exact Hhi|exact Hrest].
Qed.

Lemma may_insert_same_profiles db db' user :
  profiles db' = profiles db -> may_insert db' user -> may_insert db user.
Proof. unfold may_insert, get_user_role. intros ->. trivial. Qed.

Section ImportRuns.

Variable is_email : string -> bool.

Lemma import_values_inv db user headers values db' :
  import_values is_email db user headers values = Ok db' ->
  exists v row,
    csvImportSchema_parse is_email (rowData_of headers values) = Ok v
    /\ db_insert_lead db (Some user) (leadData v user) = Ok db'
    /\ db' = with_new_lead db row
    /\ imported_by db user row
    /\ may_insert db user.
Proof.
  unfold import_values. intros H.
  destruct (csvImportSchema_parse is_email _) as [v|e]; cbn [bind] in H; [|discriminate].
  destruct (db_insert_lead db (Some user) (leadData v user)) as [db1|e] eqn:Hins;
    [|discriminate].
  injection H as <-.
  pose proof (db_insert_lead_role _ _ _ _ Hins) as Hrole.
  pose proof Hins as Hins'.
  apply db_insert_lead_inv in Hins as (names & row & Hreq & _ & _ & ->).
  exists v, row. split; [reflexivity|]. split; [exact Hins'|]. split; [reflexivity|].
  split; [|exact Hrole].
  destruct (requested_row_fixed _ _ _ _ _ Hreq) as (_ & Hc & Hu & Hby & Hto).
  destruct (requested_row_contact _ _ _ _ _ Hreq) as (Hlc & Hnf).
  cbn in Hc, Hu, Hby, Hto, Hlc, Hnf.
  unfold imported_by. repeat split; congruence.
Qed.

Lemma import_loop_inv user headers lines :
  forall i db n errs db' n' errs',
  import_loop is_email user headers lines i db n errs = (db', n', errs') ->
  profiles db' = profiles db
  /\ lead_activities db' = lead_activities db
  /\ db_now db' = db_now db
  /\ exists added errs2,
       buyer_leads db' = (buyer_leads db ++ added)%list
       /\ db_next_id db' = (db_next_id db + N.of_nat (length added))%N
       /\ Forall (imported_by db user) added
       /\ n' = (n + length added)%nat
       /\ errs' = (errs ++ errs2)%list
       /\ rows_ascend (i + 2) (i + length lines + 1) (map row errs2)
       /\ (added <> [] -> may_insert db user)
       /\ (Forall (fun line => truthy (trim line) = true) lines ->
           (length added + length errs2 = length lines)%nat).
Proof.
  induction lines as [|line rest IH]; intros i db n errs db' n' errs' H.
  - injection H as <- <- <-. repeat split.
    exists [], []. rewrite !app_nil_r, N.add_0_r, Nat.add_0_r.
    repeat split; [constructor|congruence].
  - cbn [import_loop] in H. destruct (truthy (trim line)) eqn:Hline; cbn [negb] in H.
    + destruct (import_row is_email db user headers line) as [db1|e] eqn:Hrow.
      * apply import_values_inv in Hrow as (v & new & _ & _ & -> & Hnew & Hrole).
        apply IH in H as (Hp & Ha & Hnow & added & errs2 & Hl & Hid & Hall & Hn & He
                          & Hrows & _ & Hcount).
        cbn [with_new_lead profiles lead_activities db_now buyer_leads db_next_id]
          in Hp, Ha, Hnow, Hl, Hid.
        repeat split; try assumption.
        exists (new :: added), errs2. cbn [length].
        repeat split; try assumption.
        -- rewrite Hl, <- app_assoc. reflexivity.
        -- rewrite Hid. lia.
        -- constructor; [exact Hnew|]. exact Hall.
        -- lia.
        -- apply (rows_ascend_mono _ (S i + 2) _ (S i + length rest + 1)); [lia|lia|exact Hrows].
        -- intros _. exact Hrole.
        -- intros Hlines. inversion Hlines; subst. rewrite <- Hcount by assumption. lia.
      * apply IH in H as (Hp & Ha & Hnow & added & errs2 & Hl & Hid & Hall & Hn & He
                          & Hrows & Hrole & Hcount).
        repeat split; try assumption.
        exists added, ({| row := i + 2; error := e |} :: errs2). cbn [length map row].
        repeat split; try assumption.
        -- rewrite He, <- app_assoc. reflexivity.
        -- lia.
        -- lia.
        -- apply (rows_ascend_mono _ (S i + 2) _ (S i + length rest + 1)); [lia|lia|exact Hrows].
        -- intros Hlines. inversion Hlines; subst. rewrite <- Hcount by assumption. lia.
    + apply IH in H as (Hp & Ha & Hnow & added & errs2 & Hl & Hid & Hall & Hn & He
                        & Hrows & Hrole & Hcount).
      repeat split; try assumption.
      exists added, errs2. cbn [length].
      repeat split; try assumption.
      * apply (rows_ascend_mono _ (S i + 2) _ (S i + length rest + 1)); [lia|lia|exact Hrows].
      * intros Hlines. inversion Hlines; subst. congruence.
Qed.

Lemma handleFileImport_inv db user text outcome db' :
  handleFileImport is_email db user text = (outcome, db') ->
  (exists message, outcome = import_failed message /\ db' = db)
  \/ (exists n errs,
        outcome = import_completed
                    {| success := n; errors := errs;
                       total := length (skipn 1 (non_blank_lines text)) |}
        /\ import_loop is_email user (headers_of (non_blank_lines text))
             (skipn 1 (non_blank_lines text)) 0 db 0%nat [] = (db', n, errs)).
Proof.
  unfold handleFileImport.
  destruct (length (non_blank_lines text) <? 2)%nat; [intros [= <- <-]; eauto|].
  destruct (0 <? length (missingFields (headers_of (non_blank_lines text))))%nat;
    [intros [= <- <-]; eauto|].
  destruct (import_loop _ _ _ _ _ _ _ _) as [[db1 n] errs] eqn:Hloop.
  intros [= <- <-]. right. eauto.
Qed.

Lemma data_lines_not_blank text :
  Forall (fun line => truthy (trim line) = true) (skipn 1 (non_blank_lines text)).
Proof.
  apply List.Forall_forall. intros line Hin.
  apply (non_blank_lines_truthy text). eapply skipn_In, Hin.
Qed.

(** X14. An import only adds leads: the leads stored before stay in front, in
    their order, and the profiles and the activities are as before. The
    added leads are as many as the report counts successes (none when
    the import fails as a whole); each has the importer in [created_by],
    the time of the import in [created_at] and [updated_at], and NULL in
    [assigned_to], [last_contacted] and [next_follow_up]. *)
Theorem import_only_adds_leads db user text outcome db' :
  handleFileImport is_email db user text = (outcome, db') ->
  profiles db' = profiles db
  /\ lead_activities db' = lead_activities db
  /\ exists added,
       buyer_leads db' = (buyer_leads db ++ added)%list
       /\ Forall (imported_by db user) added
       /\ match outcome with
          | import_failed _ => added = []
          | import_completed r => length added = success r
          end.
Proof.
  intros H. apply handleFileImport_inv in H as [(m & -> & ->)|(n & errs & -> & Hloop)].
  - repeat split. exists []. rewrite app_nil_r. repeat split. constructor.
  - apply import_loop_inv in Hloop
      as (Hp & Ha & _ & added & errs2 & Hl & _ & Hall & Hn & _).
    repeat split; try assumption. exists added. repeat split; try assumption.
    cbn [success]. lia.
Qed.

(** X15. An importer who is neither admin nor agent gets nothing stored: the
    store is as before, and a file that passes the two checks of its
    shape is reported with no success and one error per data row. *)
Theorem import_without_insert_right_stores_nothing db user text outcome db' :
  ~ may_insert db user ->
  handleFileImport is_email db user text = (outcome, db') ->
  db' = db
  /\ match outcome with
     | import_failed _ => True
     | import_completed r => success r = 0%nat /\ length (errors r) = total r
     end.
Proof.
  intros Hrole H.
  apply handleFileImport_inv in H as [(m & -> & ->)|(n & errs & -> & Hloop)];
    [split; trivial|].
  apply import_loop_inv in Hloop
    as (Hp & Ha & Hnow & added & errs2 & Hl & Hid & _ & Hn & He & _ & Hins & Hcount).
  assert (added = []) as ->.
  { destruct added; [reflexivity|]. destruct Hrole. apply Hins. discriminate. }
  rewrite app_nil_r in Hl. rewrite N.add_0_r in Hid.
  specialize (Hcount (data_lines_not_blank text)).
  cbn [length app success errors total] in *. subst n errs.
  repeat split; [|lia].
  destruct db, db'. cbn in *. congruence.
Qed.

(** X16. The errors of a report are in the order of the rows: their row
    numbers go up strictly, from 2 at least to the number of data rows
    plus 1 at most. *)
Theorem error_rows_ascend db user text r db' :
  handleFileImport is_email db user text = (import_completed r, db') ->
  rows_ascend 2 (total r + 1) (map row (errors r)).
Proof.
  intros H. apply handleFileImport_inv in H as [(m & [=] & _)|(n & errs & [= ->] & Hloop)].
  apply import_loop_inv in Hloop
    as (_ & _ & _ & added & errs2 & _ & _ & _ & _ & He & Hrows & _).
  cbn [app] in He. subst errs. exact Hrows.
Qed.

(** X17. A row fails validation exactly when it has no cell (or an empty one
    only) under [first_name] or under [last_name], or when its cell under
    [email] is missing, empty or not an address. *)
Theorem row_fails_validation_iff db user headers values :
  (exists issues,
     import_values is_email db user headers values = Err (ZodError issues))
  <-> (rowData_of headers values !! "first_name" = None
       \/ rowData_of headers values !! "last_name" = None
       \/ match rowData_of headers values !! "email" with
          | Some address => is_email address = false
          | None => True
          end).
Proof.
  unfold import_values, csvImportSchema_parse.
  pose proof (rowData_of_truthy headers values "first_name") as Hf.
  pose proof (rowData_of_truthy headers values "last_name") as Hl.
  destruct (rowData_of headers values !! "first_name") as [f|];
    [cbn [z_string_min_1]; rewrite (truthy_length f (Hf f eq_refl))|].
  2: { cbn. split; [auto|eauto]. }
  destruct (rowData_of headers values !! "last_name") as [l|];
    [cbn [z_string_min_1]; rewrite (truthy_length l (Hl l eq_refl))|].
  2: { cbn. split; [auto|eauto]. }
  destruct (rowData_of headers values !! "email") as [a|].
  2: { cbn. split; [auto|eauto]. }
  cbn [z_string_min_1 z_string_email app]. destruct (is_email a).
  - cbn [bind]. split.
    + intros (issues & H). destruct (db_insert_lead _ _ _); discriminate.
    + intros [H|[H|H]]; discriminate.
  - cbn [bind]. split; [auto|eauto].
Qed.

(** X18. The import hands the cells under [status] and [source] to the store
    as they are: when one of them is not, letter for letter, a literal of
    its enumeration, the row fails with an error of the store and nothing
    is stored for it. *)
Theorem status_and_source_cells_are_not_repaired db user headers values v :
  csvImportSchema_parse is_email (rowData_of headers values) = Ok v ->
  (exists s, status v = Some s /\ ~ In s status_literals)
  \/ (exists s, source v = Some s /\ ~ In s source_literals) ->
  exists e, import_values is_email db user headers values = Err (PostgrestError e).
Proof.
  intros Hv Hbad. unfold import_values. rewrite Hv. cbn [bind].
  destruct (csvImportSchema_parse_fields is_email _ _ Hv)
    as (_ & _ & _ & _ & _ & _ & _ & _ & _ & _ & _ & Hst & Hso & _).
  destruct (insert_outside_sets_rejected db (Some user) (leadData v user)) as [e He].
  - destruct Hbad as [(s & Hs & Hnot)|(s & Hs & Hnot)].
    + right. left. exists s. split; [|exact Hnot].
      cbn [leadData in_status]. rewrite Hs. cbn [if_truthy].
      rewrite Hs in Hst. rewrite (rowData_of_truthy _ _ _ _ (eq_sym Hst)). reflexivity.
    + right. right. exists s. split; [|exact Hnot].
      cbn [leadData in_source]. rewrite Hs. cbn [if_truthy].
      rewrite Hs in Hso. rewrite (rowData_of_truthy _ _ _ _ (eq_sym Hso)). reflexivity.
  - rewrite He. eauto.
Qed.

Lemma import_row_sample_john db user :
  is_email "john.doe@example.com" = true -> may_insert db user ->
  import_row is_email db user csvImportSchema_keys
    "John,Doe,john.doe@example.com,+1-555-0123,300000,500000,Downtown;Midtown,Single Family Home,3,2.5,new,website,3,Looking for move-in ready home"
  = Ok (with_new_lead db (sample_john (db_next_id db) (db_now db) user)).
Proof.
  intros He Hrole. unfold import_row, import_values.
  set (vs := parseCsvLine _). vm_compute in vs. subst vs.
  unfold csvImportSchema_parse.
  repeat match goal with
         | |- context [rowData_of ?h ?v !! ?k] =>
             let t := eval vm_compute in (rowData_of h v !! k) in
             change (rowData_of h v !! k) with t
         end.
  cbn [z_string_min_1 z_string_email String.length Nat.ltb Nat.leb app].
  rewrite He. cbn [app bind default id].
  erewrite insert_leadData; [|exact Hrole|reflexivity..|].
  - reflexivity.
  - cbn. tauto.
Qed.

Lemma import_row_sample_jane db user :
  is_email "jane.smith@example.com" = true -> may_insert db user ->
  import_row is_email db user csvImportSchema_keys
    "Jane,Smith,jane.smith@example.com,+1-555-0124,200000,350000,Suburbs,Condo,2,2,contacted,referral,4,First-time buyer"
  = Ok (with_new_lead db (sample_jane (db_next_id db) (db_now db) user)).
Proof.
  intros He Hrole. unfold import_row, import_values.
  set (vs := parseCsvLine _). vm_compute in vs. subst vs.
  unfold csvImportSchema_parse.
  repeat match goal with
         | |- context [rowData_of ?h ?v !! ?k] =>
             let t := eval vm_compute in (rowData_of h v !! k) in
             change (rowData_of h v !! k) with t
         end.
  cbn [z_string_min_1 z_string_email String.length Nat.ltb Nat.leb app].
  rewrite He. cbn [app bind default id].
  erewrite insert_leadData; [|exact Hrole|reflexivity..|].
  - reflexivity.
  - cbn. tauto.
Qed.

(** X19. The sample file that the page offers for download is a file that the
    import of the same page takes in whole: for an importer who may
    insert, and an address check that accepts the two addresses of the
    sample, both rows are stored, as the leads [sample_john] and
    [sample_jane], and the report has 2 successes and no error. *)
Theorem sample_file_is_imported db user :
  is_email "john.doe@example.com" = true ->
  is_email "jane.smith@example.com" = true ->
  may_insert db user ->
  exists db',
    handleFileImport is_email db user sampleContent
    = (import_completed {| success := 2; errors := []; total := 2 |}, db')
    /\ buyer_leads db'
       = (buyer_leads db ++
          [sample_john (db_next_id db) (db_now db) user;
           sample_jane (N.succ (db_next_id db)) (db_now db) user])%list.
Proof.
  intros Hjohn Hjane Hrole. unfold handleFileImport.
  set (lines := non_blank_lines sampleContent). vm_compute in lines. subst lines.
  set (hs := headers_of _). vm_compute in hs. subst hs.
  set (mf := missingFields _). vm_compute in mf. subst mf.
  cbn [length Nat.ltb Nat.leb skipn import_loop].
  repeat match goal with
         | |- context [truthy (trim ?l)] =>
             let b := eval vm_compute in (truthy (trim l)) in
             change (truthy (trim l)) with b
         end.
  cbn [negb]. fold csvImportSchema_keys.
  rewrite (import_row_sample_john db user Hjohn Hrole).
  rewrite (import_row_sample_jane _ user Hjane
             (may_insert_with_new_lead db user _ Hrole)).
  eexists. split; [reflexivity|].
  cbn [with_new_lead buyer_leads db_next_id db_now]. rewrite <- app_assoc. reflexivity.
Qed.

End ImportRuns.

Lemma import_only_adds_leads_witness :
  exists outcome db',
    handleFileImport has_at_sign example_store 2%N two_rows_csv = (outcome, db')
    /\ profiles db' = profiles example_store
    /\ lead_activities db' = lead_activities example_store.
Proof.
  destruct (handleFileImport has_at_sign example_store 2%N two_rows_csv)
    as [outcome db'] eqn:H.
  exists outcome, db'. split; [reflexivity|].
  destruct (import_only_adds_leads _ _ _ _ _ _ H) as (Hp & Ha & _).
  split; assumption.
Defined.

Lemma import_without_insert_right_stores_nothing_witness :
  ~ may_insert example_store 4%N
  /\ exists outcome,
       handleFileImport has_at_sign example_store 4%N two_rows_csv
       = (outcome, example_store).
Proof.
  assert (Hrole : ~ may_insert example_store 4%N).
  { intros [H|H]; vm_compute in H; discriminate H. }
  split; [exact Hrole|].
  destruct (handleFileImport has_at_sign example_store 4%N two_rows_csv)
    as [outcome db'] eqn:H.
  exists outcome. f_equal.
  apply (import_without_insert_right_stores_nothing _ _ _ _ _ _ Hrole H).
Defined.

Lemma error_rows_ascend_witness :
  exists r db',
    handleFileImport has_at_sign example_store 4%N two_rows_csv
    = (import_completed r, db')
    /\ map row (errors r) = [2%nat; 3%nat]
    /\ rows_ascend 2 (total r + 1) (map row (errors r)).
Proof.
  eexists _, _. split; [vm_compute; reflexivity|]. split; [reflexivity|].
  eapply (error_rows_ascend has_at_sign example_store 4%N two_rows_csv).
  vm_compute. reflexivity.
Defined.

Lemma status_and_source_cells_are_not_repaired_witness :
  exists e,
    import_values has_at_sign empty_store 2%N
      ["first_name"; "last_name"; "email"; "status"] ["Al"; "Ba"; "al@x.com"; "New"]
    = Err (PostgrestError e).
Proof.
  eapply status_and_source_cells_are_not_repaired; [vm_compute; reflexivity|].
  left. eexists. split; [reflexivity|].
  cbn. intros H. decompose [or] H; discriminate || assumption.
Defined.

Lemma sample_file_is_imported_witness :
  exists db',
    handleFileImport has_at_sign empty_store 2%N sampleContent
    = (import_completed {| success := 2; errors := []; total := 2 |}, db')
    /\ map bl_email (buyer_leads db')
       = ["john.doe@example.com"; "jane.smith@example.com"].
Proof.
  destruct (sample_file_is_imported has_at_sign empty_store 2%N eq_refl eq_refl)
    as (db' & H & Hl).
  - right. reflexivity.
  - exists db'. split; [exact H|]. rewrite Hl. reflexivity.
Defined.

(** ** The order of the export *)

Lemma created_not_before_total a b :
  created_not_before a b = false -> created_not_before b a = true.
Proof.
  unfold created_not_before.
  destruct (bl_created_at a) as [x|], (bl_created_at b) as [y|]; try reflexivity;
    try discriminate.
  intros H. destruct (String.leb_total x y) as [Hxy|Hyx]; [exact Hxy|congruence].
Qed.

Lemma created_not_before_trans a b c :
  created_not_before a b = true -> created_not_before b c = true ->
  created_not_before a c = true.
Proof.
  unfold created_not_before.
  destruct (bl_created_at a) as [x|], (bl_created_at b) as [y|],
    (bl_created_at c) as [z|]; try reflexivity; try discriminate.
  intros Hyx Hzy. apply Is_true_true.
  apply Is_true_true in Hyx, Hzy.
  exact (transitivity (R := String.le) Hzy Hyx).
Qed.

Lemma insert_by_created_at_Permutation x l :
  Permutation (insert_by_created_at x l) (x :: l).
Proof.
  induction l as [|y l IH]; [reflexivity|].
  cbn [insert_by_created_at]. destruct (created_not_before x y); [reflexivity|].
  rewrite IH. apply perm_swap.
Qed.

Lemma order_by_created_at_desc_Permutation l :
  Permutation (order_by_created_at_desc l) l.
Proof.
  induction l as [|x l IH]; [reflexivity|].
  cbn [order_by_created_at_desc fold_right]. fold (order_by_created_at_desc l).
  rewrite insert_by_created_at_Permutation, IH. reflexivity.
Qed.

Lemma insert_by_created_at_sorted x l :
  StronglySorted (fun a b => created_not_before a b = true) l ->
  StronglySorted (fun a b => created_not_before a b = true) (insert_by_created_at x l).
Proof.
  induction 1 as [|y l Hl IH Hy]; [repeat constructor|].
  cbn [insert_by_created_at]. destruct (created_not_before x y) eqn:Hxy.
  - constructor; [constructor; assumption|].
    constructor; [exact Hxy|].
    eapply List.Forall_impl; [|exact Hy]. intros z Hz.
    exact (created_not_before_trans _ _ _ Hxy Hz).
  - constructor; [exact IH|].
    rewrite insert_by_created_at_Permutation.
    constructor; [apply created_not_before_total, Hxy|exact Hy].
Qed.

Lemma order_by_created_at_desc_sorted l :
  StronglySorted (fun a b => created_not_before a b = true) (order_by_created_at_desc l).
Proof.
  induction l as [|x l IH]; [constructor|].
  cbn [order_by_created_at_desc fold_right]. apply insert_by_created_at_sorted, IH.
Qed.

Lemma visible_leads_with_role db uid :
  is_Some (get_user_role db uid) -> visible_leads db uid = buyer_leads db.
Proof.
  intros Hrole. apply filter_true. intros bl.
  fold (lead_read_allowed db uid bl). rewrite lead_read_allowed_role.
  apply bool_decide_eq_true, Hrole.
Qed.

(** X20. An export that produces a file has every lead of the store in it,
    once, whatever the role of the caller (the read policy names all
    three roles); the lines follow the header in the order of
    [created_at], the latest lead first and a lead without [created_at]
    before all others. *)
Theorem export_has_every_lead_newest_first db user content :
  handleExport db user = export_downloaded content ->
  exists leads,
    content = csvContent leads
    /\ Permutation leads (buyer_leads db)
    /\ StronglySorted (fun a b => created_not_before a b = true) leads.
Proof.
  rewrite handleExport_of_store.
  destruct (length (select_leads db user) =? 0)%nat eqn:Hlen; [discriminate|].
  intros [= <-]. exists (select_leads db user). split; [reflexivity|].
  split; [|apply order_by_created_at_desc_sorted].
  unfold select_leads. rewrite order_by_created_at_desc_Permutation.
  destruct (get_user_role db (Some user)) as [role|] eqn:Hrole.
  - rewrite visible_leads_with_role by (rewrite Hrole; eauto). reflexivity.
  - exfalso. apply Nat.eqb_neq in Hlen. apply Hlen.
    unfold select_leads, visible_leads.
    rewrite (filter_false (using_allows buyer_leads_policies SELECT db (Some user))).
    + reflexivity.
    + intros bl. apply (no_role_no_read _ _ _ Hrole).
Qed.

Lemma export_has_every_lead_newest_first_witness :
  exists content leads,
    handleExport two_leads_store 4%N = export_downloaded content
    /\ content = csvContent leads
    /\ Permutation leads [example_lead; rich_lead].
Proof.
  destruct (handleExport two_leads_store 4%N) as [m| |content] eqn:H;
    try (vm_compute in H; discriminate H).
  destruct (export_has_every_lead_newest_first _ _ _ H) as (leads & Hc & Hp & _).
  exists content, leads. repeat split; assumption.
Defined.

(** ** The areas of the lead form *)

Lemma includes_In l x : includes l x = true <-> In x l.
Proof.
  unfold includes. rewrite existsb_exists. split.
  - intros (y & Hin & Heq). apply String.eqb_eq in Heq. subst y. exact Hin.
  - intros Hin. exists x. split; [exact Hin|apply String.eqb_refl].
Qed.

Lemma NoDup_filter {A} (p : A -> bool) (l : list A) :
  List.NoDup l -> List.NoDup (List.filter p l).
Proof.
  induction 1 as [|x l Hx Hl IH]; [constructor|].
  cbn [List.filter]. destruct (p x); [|exact IH].
  constructor; [|exact IH]. intros Hin. apply filter_In in Hin as [Hin _]. contradiction.
Qed.

Lemma NoDup_snoc {A} (l : list A) (x : A) :
  List.NoDup l -> ~ In x l -> List.NoDup (l ++ [x]).
Proof.
  induction 1 as [|y l Hy Hl IH]; intros Hx; [repeat constructor; intros []|].
  cbn [app]. constructor.
  - intros Hin. apply in_app_or in Hin as [Hin|[<-|[]]]; [contradiction|].
    apply Hx. left. reflexivity.
  - apply IH. intros Hin. apply Hx. right. exact Hin.
Qed.

Lemma area_step_invariant st st' :
  area_step st st' ->
  List.NoDup (areas st) /\ Forall (fun a => trim a = a /\ a <> "") (areas st) ->
  List.NoDup (areas st') /\ Forall (fun a => trim a = a /\ a <> "") (areas st').
Proof.
  intros Hstep [Hnd Hall]. destruct Hstep as [st value|st|st area].
  - split; assumption.
  - unfold addArea.
    destruct (truthy (trim (newArea st))) eqn:Ht; cbn [andb]; [|split; assumption].
    destruct (includes (areas st) (trim (newArea st))) eqn:Hi; cbn [negb];
      [split; assumption|].
    cbn [areas]. split.
    + apply NoDup_snoc; [exact Hnd|].
      intros Hin. apply includes_In in Hin. congruence.
    + apply Forall_app. split; [exact Hall|]. constructor; [|constructor].
      split; [apply trim_trim|]. intros E. rewrite E in Ht. discriminate Ht.
  - cbn [removeArea areas]. split; [apply NoDup_filter, Hnd|].
    apply List.Forall_forall. intros a Hin. apply filter_In in Hin as [Hin _].
    rewrite List.Forall_forall in Hall. apply Hall, Hin.
Qed.

(** X21. Whatever the user types, adds and removes, the list of areas of the
    form never holds an area twice, and every area in it is trimmed and
    not empty. *)
Theorem areas_are_distinct_and_trimmed st :
  area_reachable st ->
  List.NoDup (areas st) /\ Forall (fun a => trim a = a /\ a <> "") (areas st).
Proof.
  induction 1 as [|st st' _ IH Hstep].
  - split; constructor.
  - exact (area_step_invariant _ _ Hstep IH).
Qed.

Lemma areas_are_distinct_and_trimmed_witness :
  areas (addArea (setNewArea (addArea (setNewArea initial_areas " Downtown ")) "Downtown"))
  = ["Downtown"]
  /\ List.NoDup
       (areas (addArea (setNewArea (addArea (setNewArea initial_areas " Downtown "))
                          "Downtown"))).
Proof.
  split; [reflexivity|].
  apply areas_are_distinct_and_trimmed.
  exact (area_next _ _
           (area_next _ _
              (area_next _ _
                 (area_next _ _ area_initial (area_typed _ " Downtown "))
                 (area_added _))
              (area_typed _ "Downtown"))
           (area_added _)).
Defined.

Lemma filter_other_snoc l x :
  ~ In x l ->
  List.filter (fun a => negb (String.eqb a x)) (l ++ [x]) = l.
Proof.
  intros Hx. rewrite List.filter_app. cbn [List.filter].
  rewrite String.eqb_refl. cbn [negb]. rewrite app_nil_r.
  apply filter_all, List.Forall_forall. intros a Hin.
  destruct (String.eqb_spec a x) as [->|_]; [contradiction|reflexivity].
Qed.

(** X22. Adding is done once: a second [addArea] right after the first
    changes nothing, and removing the area that was just added gives the
    list of before (when the input was blank or named a listed area,
    nothing was added and the area stays listed or unlisted as it was). *)
Theorem removeArea_undoes_addArea st :
  addArea (addArea st) = addArea st
  /\ (areas (addArea st) <> areas st ->
      areas (removeArea (addArea st) (trim (newArea st))) = areas st)
  /\ forall area, ~ In area (areas (removeArea st area)).
Proof.
  unfold addArea.
  destruct (truthy (trim (newArea st))) eqn:Ht; cbn [andb].
  - destruct (includes (areas st) (trim (newArea st))) eqn:Hi; cbn [negb].
    + rewrite Ht, Hi. cbn [andb negb]. repeat split; [congruence|].
      intros area Hin. cbn [removeArea areas] in Hin.
      apply filter_In in Hin as [_ Hin]. rewrite String.eqb_refl in Hin. discriminate.
    + cbn [newArea trim trimStart trimEnd truthy andb]. repeat split.
      * intros _. cbn [removeArea areas]. apply filter_other_snoc.
        intros Hin. apply includes_In in Hin. congruence.
      * intros area Hin. cbn [removeArea areas] in Hin.
        apply filter_In in Hin as [_ Hin]. rewrite String.eqb_refl in Hin. discriminate.
  - rewrite Ht. cbn [andb]. repeat split; [congruence|].
    intros area Hin. cbn [removeArea areas] in Hin.
    apply filter_In in Hin as [_ Hin]. rewrite String.eqb_refl in Hin. discriminate.
Qed.

(** ** The pages of the list of leads *)





Lemma firstn_seq k start len : firstn k (seq start len) = seq start (Nat.min k len).
Proof.
  revert start len. induction k as [|k IH]; intros start [|len]; try reflexivity.
  cbn [firstn seq Nat.min]. rewrite IH. reflexivity.
Qed.

Lemma slice_numbers (start end_ : Z) (n : nat) :
  0 <= start -> 0 <= end_ ->
  slice start end_ (map (fun i => Z.of_nat i + 1) (seq 0 n))
  = map (fun i => Z.of_nat i + 1)
        (seq (Z.to_nat (Z.min start (Z.of_nat n)))
             (Z.to_nat (Z.min end_ (Z.of_nat n) - Z.min start (Z.of_nat n)))).
Proof.
  intros Hs He. unfold slice, slice_index. rewrite length_map, length_seq.
  destruct (Z.ltb_spec start 0) as [H|_]; [lia|].
  destruct (Z.ltb_spec end_ 0) as [H|_]; [lia|].
  rewrite skipn_map, firstn_map, skipn_seq, firstn_seq. f_equal. f_equal; lia.
Qed.

(** X24. While the page shown is one of the pages 1 to [totalPages], the
    controls keep it so: Previous and Next lead to a page in that range,
    the numbered buttons are at most five, among them the page shown,
    and each is a page of the range no more than two away from it. *)
Theorem page_controls_stay_within currentPage totalPages :
  1 <= currentPage <= totalPages ->
  1 <= previous_page currentPage <= totalPages
  /\ 1 <= next_page currentPage totalPages <= totalPages
  /\ In currentPage (page_buttons currentPage totalPages)
  /\ (length (page_buttons currentPage totalPages) <= 5)%nat
  /\ Forall (fun p => 1 <= p <= totalPages /\ currentPage - 2 <= p <= currentPage + 2)
            (page_buttons currentPage totalPages).
Proof.
  intros Hp. unfold previous_page, next_page, page_buttons.
  rewrite slice_numbers by lia.
  split; [lia|]. split; [lia|]. split; [|split].
  - apply in_map_iff. exists (Z.to_nat (currentPage - 1)). split; [lia|].
    apply in_seq. lia.
  - rewrite length_map, length_seq. lia.
  - apply List.Forall_forall. intros p Hin.
    apply in_map_iff in Hin as (i & <- & Hi). apply in_seq in Hi. lia.
Qed.

Lemma page_controls_stay_within_witness :
  page_buttons 4 9 = [2; 3; 4; 5; 6]
  /\ 1 <= next_page 9 9 <= 9.
Proof.
  split; [reflexivity|].
  apply (page_controls_stay_within 9 9). lia.
Defined.

(** ** The analytics page and the dashboard *)

Lemma count_of_count_up k acc key :
  count_of (count_up k acc) key
  = count_of acc key + (if String.eqb k key then 1 else 0).
Proof.
  unfold count_of. induction acc as [|e acc IH].
  - cbn [count_up List.find fst snd]. destruct (String.eqb k key); reflexivity.
  - cbn [count_up]. destruct (String.eqb_spec (fst e) k) as [Hk|Hk].
    + cbn [List.find fst snd]. rewrite Hk. destruct (String.eqb k key); [reflexivity|lia].
    + cbn [List.find]. destruct (String.eqb_spec (fst e) key) as [Hkey|Hkey].
      * destruct (String.eqb_spec k key); [congruence|lia].
      * exact IH.
Qed.

Lemma sum_counts_count_up k acc : sum_counts (count_up k acc) = sum_counts acc + 1.
Proof.
  unfold sum_counts. induction acc as [|e acc IH]; [reflexivity|].
  cbn [count_up]. destruct (String.eqb (fst e) k); cbn [fold_right snd]; lia.
Qed.

Lemma count_up_keys k acc :
  map fst (count_up k acc) = map fst acc
  \/ (~ In k (map fst acc) /\ map fst (count_up k acc) = (map fst acc ++ [k])%list).
Proof.
  induction acc as [|e acc IH]; [right; split; [intros []|reflexivity]|].
  cbn [count_up]. destruct (String.eqb_spec (fst e) k) as [Hk|Hk]; [left; reflexivity|].
  cbn [map]. destruct IH as [IH|[Hnot IH]]; [left; congruence|].
  right. split; [|cbn [app]; congruence].
  intros [H|H]; [exact (Hk H)|exact (Hnot H)].
Qed.

Lemma breakdown_from header leads acc key :
  let acc' :=
    fold_left (fun acc lead => count_up (property_key (lead_get lead header)) acc)
      leads acc in
  count_of acc' key = count_of acc key + Z.of_nat (length (leads_with header key leads))
  /\ sum_counts acc' = sum_counts acc + Z.of_nat (length leads)
  /\ (List.NoDup (map fst acc) -> List.NoDup (map fst acc')).
Proof.
  revert acc. induction leads as [|lead leads IH]; intros acc.
  - cbv zeta. unfold leads_with. cbn [fold_left List.filter length].
    change (Z.of_nat 0) with 0. rewrite !Z.add_0_r. repeat split. trivial.
  - cbn [fold_left]. destruct (IH (count_up (property_key (lead_get lead header)) acc))
      as (Hc & Hs & Hn).
    cbv zeta. rewrite Hc, Hs, count_of_count_up, sum_counts_count_up.
    unfold leads_with. cbn [List.filter length].
    repeat split.
    + destruct (String.eqb _ key); cbn [length]; lia.
    + lia.
    + intros Hnd. apply Hn.
      destruct (count_up_keys (property_key (lead_get lead header)) acc) as [->|[Hnot ->]];
        [exact Hnd|].
      apply NoDup_snoc; assumption.
Qed.

Lemma breakdown_counts header leads :
  (forall key,
     count_of (breakdown header leads) key
     = Z.of_nat (length (leads_with header key leads)))
  /\ sum_counts (breakdown header leads) = Z.of_nat (length leads)
  /\ List.NoDup (map fst (breakdown header leads)).
Proof.
  unfold breakdown. repeat split.
  - intros key. destruct (breakdown_from header leads [] key) as (H & _). exact H.
  - destruct (breakdown_from header leads [] "") as (_ & H & _). exact H.
  - destruct (breakdown_from header leads [] "") as (_ & _ & H). apply H. constructor.
Qed.

Lemma length_filter_le {A} (p : A -> bool) (l : list A) :
  (length (List.filter p l) <= length l)%nat.
Proof.
  induction l as [|x l IH]; [cbn; lia|].
  cbn [List.filter]. destruct (p x); cbn [length]; lia.
Qed.

Lemma length_filter_disjoint {A} (p q : A -> bool) (l : list A) :
  (forall x, p x = true -> q x = false) ->
  (length (List.filter p l) + length (List.filter q l) <= length l)%nat.
Proof.
  intros Hpq. induction l as [|x l IH]; [cbn; lia|].
  cbn [List.filter]. destruct (p x) eqn:Hp.
  - rewrite (Hpq x Hp). cbn [length]. lia.
  - destruct (q x); cbn [length]; lia.
Qed.

Lemma percent_bounds count total :
  0 <= count <= total -> (0 <= percent count total <= 100)%Q.
Proof.
  intros Hc. unfold percent. destruct (Z.ltb_spec 0 total) as [Ht|Ht].
  - assert (H0 : (0 < inject_Z total)%Q) by (rewrite Zlt_Qlt in Ht; exact Ht).
    assert (Hq : (0 <= inject_Z count / inject_Z total <= 1)%Q).
    { split.
      - apply Qle_shift_div_l; [exact H0|]. rewrite Qmult_0_l.
        change 0%Q with (inject_Z 0). rewrite <- Zle_Qle. lia.
      - apply Qle_shift_div_r; [exact H0|]. rewrite Qmult_1_l.
        rewrite <- Zle_Qle. lia. }
    destruct Hq as [Hq0 Hq1]. split.
    + apply Qmult_le_0_compat; [exact Hq0|discriminate].
    + apply Qle_trans with (1 * 100)%Q; [|discriminate].
      apply Qmult_le_compat_r; [exact Hq1|discriminate].
  - split; discriminate.
Qed.

Section PageProperties.

Variable getTime : option timestamptz -> Z.
Variable sevenDaysAgo : Z.

(** X25. Every breakdown of the analytics page counts each lead the caller
    sees once: the count under a key is the number of these leads with
    that key in the column (the key [null] for a NULL), no key is listed
    twice, and the counts of a breakdown add up to [totalLeads]. The
    leads of the last seven days are no more than all, and the
    conversion rate lies between 0 and 100. *)
Theorem breakdowns_count_every_lead db user :
  let a := fetchAnalytics getTime sevenDaysAgo db user in
  let leads := visible_leads db (Some user) in
  totalLeads a = Z.of_nat (length leads)
  /\ (forall key,
        count_of (statusBreakdown a) key
        = Z.of_nat (length (leads_with "status" key leads))
        /\ count_of (sourceBreakdown a) key
           = Z.of_nat (length (leads_with "source" key leads))
        /\ count_of (priorityBreakdown a) key
           = Z.of_nat (length (leads_with "priority" key leads)))
  /\ sum_counts (statusBreakdown a) = totalLeads a
  /\ sum_counts (sourceBreakdown a) = totalLeads a
  /\ sum_counts (priorityBreakdown a) = totalLeads a
  /\ List.NoDup (map fst (statusBreakdown a))
  /\ List.NoDup (map fst (sourceBreakdown a))
  /\ List.NoDup (map fst (priorityBreakdown a))
  /\ 0 <= recentActivity a <= totalLeads a
  /\ (0 <= conversionRate a <= 100)%Q.
Proof.
  intros a leads. subst a. unfold fetchAnalytics. fold leads.
  cbn [totalLeads statusBreakdown sourceBreakdown priorityBreakdown recentActivity
       conversionRate].
  destruct (breakdown_counts "status" leads) as (Hst & Hst_sum & Hst_nd).
  destruct (breakdown_counts "source" leads) as (Hso & Hso_sum & Hso_nd).
  destruct (breakdown_counts "priority" leads) as (Hpr & Hpr_sum & Hpr_nd).
  split; [reflexivity|]. split; [intros key; auto|].
  do 6 (split; [assumption|]). split.
  - pose proof (length_filter_le
                  (fun lead => sevenDaysAgo <=? getTime (bl_created_at lead)) leads).
    lia.
  - apply percent_bounds. rewrite !Hst. unfold leads_with.
    pose proof (length_filter_disjoint
                  (fun lead => String.eqb (property_key (lead_get lead "status")) "qualified")
                  (fun lead => String.eqb (property_key (lead_get lead "status")) "closed")
                  leads) as Hd.
    assert (Hpq : forall x : buyer_lead,
               String.eqb (property_key (lead_get x "status")) "qualified" = true ->
               String.eqb (property_key (lead_get x "status")) "closed" = false).
    { intros x Hx. apply String.eqb_eq in Hx. rewrite Hx. reflexivity. }
    specialize (Hd Hpq). lia.
Qed.

End PageProperties.

Lemma sort_insert_Permutation {A} (compare : A -> A -> Z) x l :
  Permutation (sort_insert compare x l) (x :: l).
Proof.
  induction l as [|y l IH]; [reflexivity|].
  cbn [sort_insert]. destruct (compare x y <=? 0); [reflexivity|].
  rewrite IH. apply perm_swap.
Qed.

Lemma Array_sort_Permutation {A} (compare : A -> A -> Z) l :
  Permutation (Array_sort compare l) l.
Proof.
  induction l as [|x l IH]; [reflexivity|].
  cbn [Array_sort fold_right]. fold (Array_sort compare l).
  rewrite sort_insert_Permutation, IH. reflexivity.
Qed.

(** A sort whose comparison is the difference of a key, the later
    element's minus the earlier one's, puts the larger keys first. *)
Lemma Array_sort_by_key {A} (key : A -> Z) l :
  StronglySorted (fun x y => key y <= key x) (Array_sort (fun a b => key b - key a) l).
Proof.
  induction l as [|x l IH]; [constructor|].
  cbn [Array_sort fold_right]. fold (Array_sort (fun a b => key b - key a) l).
  induction IH as [|y s Hs IHs Hy]; [repeat constructor|].
  cbn [sort_insert]. destruct (Z.leb_spec (key y - key x) 0) as [Hxy|Hxy].
  - constructor; [constructor; assumption|].
    constructor; [lia|].
    eapply List.Forall_impl; [|exact Hy]. cbn. intros z Hz. lia.
  - constructor; [exact IHs|].
    rewrite sort_insert_Permutation. constructor; [lia|exact Hy].
Qed.

Lemma slice_0 {A} (n : Z) (l : list A) :
  0 <= n -> slice 0 n l = firstn (Z.to_nat n) l.
Proof.
  intros Hn. unfold slice, slice_index.
  destruct (Z.ltb_spec n 0) as [H|_]; [lia|].
  change (0 <? 0) with false. cbv iota.
  rewrite (Z.min_l 0) by lia. change (Z.to_nat 0) with 0%nat. rewrite skipn_O.
  rewrite Z.sub_0_r.
  destruct (Z.le_ge_cases n (Z.of_nat (length l))) as [H|H].
  - rewrite Z.min_l by exact H. reflexivity.
  - rewrite Z.min_r by exact H. rewrite Nat2Z.id.
    rewrite (firstn_all2 (n := length l)) by lia.
    rewrite (firstn_all2 (n := Z.to_nat n)) by lia. reflexivity.
Qed.

Lemma firstn_In {A} (n : nat) (l : list A) (x : A) : In x (firstn n l) -> In x l.
Proof.
  revert l. induction n as [|n IH]; intros [|y l]; cbn [firstn In]; try tauto.
  intros [H|H]; auto.
Qed.

Lemma StronglySorted_firstn {A} (R : A -> A -> Prop) n l :
  StronglySorted R l ->
  StronglySorted R (firstn n l)
  /\ Forall (fun y => Forall (fun x => R x y) (firstn n l)) (skipn n l).
Proof.
  intros Hs. revert n. induction Hs as [|x l Hl IH Hx]; intros n.
  - rewrite firstn_nil. destruct n; split; constructor.
  - destruct n as [|n]; cbn [firstn skipn].
    + split; [constructor|]. apply List.Forall_forall. intros; constructor.
    + destruct (IH n) as [Hf Hr]. split.
      * constructor; [exact Hf|].
        rewrite List.Forall_forall in Hx. apply List.Forall_forall.
        intros y Hy. apply Hx. eapply firstn_In, Hy.
      * rewrite List.Forall_forall in Hx, Hr. apply List.Forall_forall.
        intros y Hy. constructor; [|apply Hr, Hy].
        apply Hx. eapply skipn_In, Hy.
Qed.

Lemma length_filter_disjoint3 {A} (p q r : A -> bool) (l : list A) :
  (forall x, (p x = true -> q x = false /\ r x = false)
             /\ (q x = true -> r x = false)) ->
  (length (List.filter p l) + length (List.filter q l) + length (List.filter r l)
   <= length l)%nat.
Proof.
  intros H. induction l as [|x l IH]; [cbn; lia|].
  cbn [List.filter]. destruct (H x) as [Hp Hq]. destruct (p x).
  - destruct (Hp eq_refl) as [-> ->]. cbn [length]. lia.
  - destruct (q x).
    + rewrite (Hq eq_refl). cbn [length]. lia.
    + destruct (r x); cbn [length]; lia.
Qed.

Section PageRankings.

Variable getTime : option timestamptz -> Z.
Variable sevenDaysAgo : Z.

(** X26. The top sources of the analytics page are the five (or fewer, when
    there are fewer) sources with the largest counts, the largest first:
    each is an entry of the source breakdown with its count, and every
    source of the breakdown that is left out has a count no larger than
    any of the listed. *)
Theorem top_sources_have_the_largest_counts db user :
  let a := fetchAnalytics getTime sevenDaysAgo db user in
  length (topPerformingSources a) = Nat.min 5 (length (sourceBreakdown a))
  /\ StronglySorted (fun x y => ss_count y <= ss_count x) (topPerformingSources a)
  /\ Forall (fun x => In (ss_source x, ss_count x) (sourceBreakdown a))
            (topPerformingSources a)
  /\ forall e, In e (sourceBreakdown a) ->
       In (fst e) (map ss_source (topPerformingSources a))
       \/ Forall (fun x => snd e <= ss_count x) (topPerformingSources a).
Proof.
  intros a. subst a. unfold fetchAnalytics.
  cbn [topPerformingSources sourceBreakdown].
  set (entries := breakdown "source" (visible_leads db (Some user))).
  set (total := Z.of_nat (length (visible_leads db (Some user)))).
  set (share := fun e : string * Z =>
                  {| ss_source := fst e; ss_count := snd e;
                     ss_percentage := percent (snd e) total |}).
  set (sorted := Array_sort (fun a b => ss_count b - ss_count a) (map share entries)).
  rewrite slice_0 by lia. change (Z.to_nat 5) with 5%nat.
  assert (Hperm : Permutation sorted (map share entries))
    by apply Array_sort_Permutation.
  destruct (StronglySorted_firstn _ 5 sorted (Array_sort_by_key ss_count (map share entries)))
    as [Hsorted Hrest].
  split; [|split; [exact Hsorted|split]].
  - rewrite length_firstn, (Permutation_length Hperm), length_map. reflexivity.
  - apply List.Forall_forall. intros x Hx.
    apply firstn_In in Hx. apply (Permutation_in _ Hperm) in Hx.
    apply in_map_iff in Hx as (e & <- & He). destruct e. exact He.
  - intros e He.
    assert (Hin : In (share e) sorted).
    { apply (Permutation_in _ (Permutation_sym Hperm)), in_map, He. }
    rewrite <- (firstn_skipn 5 sorted) in Hin. apply in_app_or in Hin as [Hin|Hin].
    + left. apply in_map_iff. exists (share e). split; [reflexivity|exact Hin].
    + right. rewrite List.Forall_forall in Hrest. exact (Hrest _ Hin).
Qed.

Lemma status_is_key literal bl :
  literal <> "null" ->
  status_is literal (dashboard_columns bl)
  = String.eqb (property_key (lead_get bl "status")) literal.
Proof.
  intros Hl. unfold status_is, dashboard_columns. cbn [dl_status].
  change (lead_get bl "status")
    with (nullable (fun v => js_string (lead_status_label v)) (bl_status bl)).
  destruct (bl_status bl) as [s|]; cbn [nullable property_key js_to_string]; [reflexivity|].
  symmetry. apply String.eqb_neq. congruence.
Qed.

Lemma length_filter_map {A B} (f : A -> B) (p : B -> bool) (q : A -> bool) l :
  (forall x, p (f x) = q x) ->
  length (List.filter p (map f l)) = length (List.filter q l).
Proof.
  intros H. induction l as [|x l IH]; [reflexivity|].
  cbn [map List.filter]. rewrite H. destruct (q x); cbn [length]; lia.
Qed.

(** X27. The dashboard and the analytics page agree: both count the leads
    the caller sees; the numbers of new, qualified and closed leads of
    the dashboard are the counts under these keys in the status
    breakdown, they add up to no more than the total, and the conversion
    rate is the share of the dashboard's qualified and closed leads. *)
Theorem dashboard_agrees_with_analytics db user :
  let a := fetchAnalytics getTime sevenDaysAgo db user in
  let d := fetchDashboardStats getTime db user in
  total_leads d = totalLeads a
  /\ new_leads d = count_of (statusBreakdown a) "new"
  /\ qualified_leads d = count_of (statusBreakdown a) "qualified"
  /\ closed_leads d = count_of (statusBreakdown a) "closed"
  /\ 0 <= new_leads d + qualified_leads d + closed_leads d <= total_leads d
  /\ conversionRate a = percent (qualified_leads d + closed_leads d) (total_leads d).
Proof.
  intros a d. subst a d. unfold fetchAnalytics, fetchDashboardStats.
  cbn [total_leads new_leads qualified_leads closed_leads totalLeads statusBreakdown
       conversionRate].
  set (leads := visible_leads db (Some user)).
  destruct (breakdown_counts "status" leads) as (Hst & _ & _).
  assert (Hlit : forall literal, literal <> "null" ->
            Z.of_nat (length (List.filter (status_is literal) (map dashboard_columns leads)))
            = count_of (breakdown "status" leads) literal).
  { intros literal Hl. rewrite Hst. unfold leads_with. f_equal.
    apply length_filter_map. intros bl. apply status_is_key, Hl. }
  rewrite length_map, !Hlit by discriminate.
  repeat split.
  - rewrite !Hst. lia.
  - rewrite !Hst. unfold leads_with.
    pose proof (length_filter_disjoint3
                  (fun lead => String.eqb (property_key (lead_get lead "status")) "new")
                  (fun lead => String.eqb (property_key (lead_get lead "status")) "qualified")
                  (fun lead => String.eqb (property_key (lead_get lead "status")) "closed")
                  leads) as Hd.
    cbv beta in Hd. apply Nat2Z.inj_le in Hd; [|clear Hd].
    + rewrite !Nat2Z.inj_add in Hd. exact Hd.
    + intros x. split; [intros Hx|intros Hx];
        apply String.eqb_eq in Hx; rewrite Hx; auto.
Qed.

(** X28. The recent leads of the dashboard are the five latest of the leads
    the caller sees (all of them when they are fewer), the latest first:
    every lead that is left out is no later than any of the listed. *)
Theorem recent_leads_are_the_latest db user :
  let d := fetchDashboardStats getTime db user in
  let leads := map dashboard_columns (visible_leads db (Some user)) in
  length (recent_leads d) = Nat.min 5 (length leads)
  /\ StronglySorted (fun x y => getTime (dl_created_at y) <= getTime (dl_created_at x))
                    (recent_leads d)
  /\ exists rest,
       Permutation (recent_leads d ++ rest) leads
       /\ Forall (fun y =>
              Forall (fun x => getTime (dl_created_at y) <= getTime (dl_created_at x))
                     (recent_leads d))
            rest.
Proof.
  intros d leads. subst d. unfold fetchDashboardStats. fold leads. cbn [recent_leads].
  set (sorted := Array_sort (fun a b => getTime (dl_created_at b) - getTime (dl_created_at a))
                   leads).
  rewrite slice_0 by lia. change (Z.to_nat 5) with 5%nat.
  assert (Hperm : Permutation sorted leads) by apply Array_sort_Permutation.
  destruct (StronglySorted_firstn _ 5 sorted
              (Array_sort_by_key (fun x => getTime (dl_created_at x)) leads))
    as [Hsorted Hrest].
  split; [|split; [exact Hsorted|]].
  - rewrite length_firstn, (Permutation_length Hperm). reflexivity.
  - exists (skipn 5 sorted). rewrite firstn_skipn. split; [exact Hperm|exact Hrest].
Qed.

End PageRankings.

(** ** The submission of the lead form *)

Lemma requested_row_given old text r names row :
  requested_row old text r = Ok (names, row) ->
  (exists email,
     column (in_email r) (text (bl_email old)) Ok = Ok email
     /\ bl_email row = default "" email)
  /\ column (in_preferred_areas r) (bl_preferred_areas old) Ok
     = Ok (bl_preferred_areas row)
  /\ column (in_budget_min r) (bl_budget_min old) (to_numeric 12 2 "numeric")
     = Ok (bl_budget_min row)
  /\ column (in_bedrooms r) (bl_bedrooms old) to_integer = Ok (bl_bedrooms row).
Proof.
  intros H. unfold requested_row in H. bind_inv H.
  injection H as <- <-. cbn. repeat split; try assumption.
  eexists. split; reflexivity.
Qed.

Lemma In_select_leads db user bl :
  In bl (select_leads db user) <->
  In bl (buyer_leads db) /\ lead_read_allowed db (Some user) bl = true.
Proof.
  unfold select_leads. split.
  - intros H. apply (Permutation_in _ (order_by_created_at_desc_Permutation _)) in H.
    apply filter_In in H. exact H.
  - intros H.
    apply (Permutation_in _ (Permutation_sym (order_by_created_at_desc_Permutation _))).
    apply filter_In. exact H.
Qed.

Lemma newLead_found db user email id :
  newLead db user email = Some id ->
  exists target,
    In target (buyer_leads db) /\ bl_id target = id
    /\ lead_read_allowed db (Some user) target = true
    /\ bl_email target = email /\ bl_created_by target = Some user.
Proof.
  unfold newLead.
  destruct (List.filter _ (select_leads db user)) as [|bl rest] eqn:Hf; [discriminate|].
  intros [= <-]. exists bl.
  assert (Hin : In bl (List.filter
                         (fun bl => String.eqb (bl_email bl) email
                                    && Sql.holds (Sql.cmp N.eqb (bl_created_by bl) (Some user)))
                         (select_leads db user)))
    by (rewrite Hf; left; reflexivity).
  apply filter_In in Hin as [Hin Hmatch]. apply In_select_leads in Hin as [Hin Hread].
  apply andb_prop in Hmatch as [He Hc]. apply String.eqb_eq in He.
  apply cmp_caller_holds in Hc as (u & [= <-] & Hc).
  repeat split; assumption.
Qed.

Lemma newLead_of_own_lead db user bl :
  In bl (buyer_leads db) -> lead_read_allowed db (Some user) bl = true ->
  bl_created_by bl = Some user ->
  exists id, newLead db user (bl_email bl) = Some id.
Proof.
  intros Hin Hread Hby. unfold newLead.
  destruct (List.filter _ (select_leads db user)) as [|x rest] eqn:Hf; [|eauto].
  exfalso.
  assert (H : In bl (List.filter
                       (fun x => String.eqb (bl_email x) (bl_email bl)
                                 && Sql.holds (Sql.cmp N.eqb (bl_created_by x) (Some user)))
                       (select_leads db user))).
  { apply filter_In. split; [apply In_select_leads; auto|].
    rewrite String.eqb_refl. apply cmp_caller_holds. exists user. auto. }
  rewrite Hf in H. exact H.
Qed.

Lemma activity_for_own_lead db user target la :
  In target (buyer_leads db) -> lead_read_allowed db (Some user) target = true ->
  bl_created_by target = Some user -> la_lead_id la = bl_id target ->
  activity_insert_allowed db (Some user) la = true.
Proof.
  intros Hin Hread Hby Hid.
  rewrite activity_insert_allowed_read, activity_read_allowed_exists.
  apply existsb_exists. exists target. split; [exact Hin|].
  rewrite Hread, Hid, N.eqb_refl. cbn [andb].
  apply admin_or_owner_holds. right. left. exists user. auto.
Qed.

(** X29. A submission of the form either fails at the insert of the lead,
    and then leaves the store as it was, or succeeds: then one lead is
    added, with the submitted address, the areas of the form and the
    user as creator, and one activity [lead_created] by the user is
    added, attached to a stored lead of that address and creator; it is
    the new lead when the user had created no lead with that address
    before. A zero in the minimum budget or in the bedrooms is stored
    as NULL. *)
Theorem submit_stores_lead_and_activity db user areas data :
  match onSubmit db user areas data with
  | (submit_failed e, db') =>
      db' = db
      /\ db_insert_lead db (Some user) (form_leadData data areas user) = Err e
  | (submit_succeeded, db') =>
      exists lead la,
        buyer_leads db' = (buyer_leads db ++ [lead])%list
        /\ lead_activities db' = (lead_activities db ++ [la])%list
        /\ profiles db' = profiles db
        /\ bl_created_by lead = Some user
        /\ bl_email lead = fd_email data
        /\ bl_preferred_areas lead = Some areas
        /\ la_activity_type la = "lead_created"
        /\ la_user_id la = Some user
        /\ (exists target,
              In target (buyer_leads db') /\ la_lead_id la = bl_id target
              /\ bl_email target = fd_email data /\ bl_created_by target = Some user)
        /\ ((forall bl, In bl (buyer_leads db) -> bl_email bl = fd_email data ->
                        bl_created_by bl <> Some user) ->
            la_lead_id la = bl_id lead)
        /\ (forall d, fd_budget_min data = Some (Finite d) -> dec_m d = 0 ->
                      bl_budget_min lead = None)
        /\ (forall d, fd_bedrooms data = Some (Finite d) -> dec_m d = 0 ->
                      bl_bedrooms lead = None)
  end.
Proof.
  unfold onSubmit.
  destruct (db_insert_lead db (Some user) (form_leadData data areas user))
    as [db1|e] eqn:Hins; [|split; reflexivity].
  pose proof (db_insert_lead_role _ _ _ _ Hins) as Hrole.
  apply db_insert_lead_inv in Hins as (names & lead & Hreq & _ & _ & ->).
  destruct (requested_row_fixed _ _ _ _ _ Hreq) as (_ & _ & _ & Hby & _).
  destruct (requested_row_given _ _ _ _ _ Hreq)
    as ((email & Hcol & Hemail) & Hareas & Hmin & Hbeds).
  cbn in Hby, Hareas, Hcol. injection Hby as Hby. injection Hareas as Hareas.
  injection Hcol as <-. cbn in Hemail.
  assert (Hread : forall bl, lead_read_allowed (with_new_lead db lead) (Some user) bl = true).
  { intros bl. rewrite lead_read_allowed_role.
    change (get_user_role (with_new_lead db lead) (Some user))
      with (get_user_role db (Some user)).
    destruct Hrole as [-> | ->]; reflexivity. }
  assert (Hnew : In lead (buyer_leads (with_new_lead db lead)))
    by (cbn; apply in_or_app; right; left; reflexivity).
  destruct (newLead_of_own_lead _ user lead Hnew (Hread lead) (eq_sym Hby)) as [id Hid].
  rewrite Hemail in Hid. rewrite Hid.
  destruct (newLead_found _ _ _ _ Hid) as (target & Hin & Htid & _ & Hte & Htby).
  unfold db_insert_activity.
  erewrite activity_for_own_lead; [|exact Hin|apply Hread|exact Htby|symmetry; exact Htid].
  cbn [guard bind]. eexists lead, _.
  cbn [buyer_leads lead_activities profiles with_new_lead la_activity_type la_user_id
       la_lead_id].
  repeat split; try (symmetry; assumption); try assumption.
  - exists target. repeat split; try assumption. symmetry. exact Htid.
  - intros Hfresh. cbn [buyer_leads with_new_lead] in Hin.
    apply in_app_or in Hin as [Hin|[<-|[]]]; [|symmetry; exact Htid].
    exfalso. exact (Hfresh _ Hin Hte Htby).
  - intros d Hd Hz. cbn [form_leadData in_budget_min] in Hmin.
    rewrite Hd in Hmin. cbn [number_or_null] in Hmin. rewrite Hz in Hmin.
    cbn in Hmin. congruence.
  - intros d Hd Hz. cbn [form_leadData in_bedrooms] in Hbeds.
    rewrite Hd in Hbeds. cbn [number_or_null] in Hbeds. rewrite Hz in Hbeds.
    cbn in Hbeds. congruence.
Qed.

Lemma submit_stores_lead_and_activity_witness :
  exists db',
    onSubmit empty_store 2%N ["Downtown"] example_form = (submit_succeeded, db')
    /\ map bl_budget_min (buyer_leads db') = [None]
    /\ profiles db' = profiles empty_store.
Proof.
  pose proof (submit_stores_lead_and_activity empty_store 2%N ["Downtown"] example_form)
    as H.
  destruct (onSubmit empty_store 2%N ["Downtown"] example_form) as [outcome db'] eqn:Hrun.
  vm_compute in Hrun. injection Hrun as <- <-.
  destruct H as (lead & la & _ & _ & Hp & _).
  eexists. split; [reflexivity|]. split; [reflexivity|exact Hp].
Defined.

(** ** The schema of the form and the store *)

Lemma lead_status_in_label s : lead_status_in (lead_status_label s) = Some s.
Proof. destruct s; reflexivity. Qed.

Lemma lead_source_in_label s : lead_source_in (lead_source_label s) = Some s.
Proof. destruct s; reflexivity. Qed.

(** A whole decimal and what the store reads it as. *)
Lemma round_scaled_whole d :
  Number_isInteger (Finite d) = true ->
  (0 <= dec_e d /\ round_scaled 0 d = dec_m d * 10 ^ dec_e d)
  \/ (dec_e d < 0 /\ dec_m d = round_scaled 0 d * 10 ^ (- dec_e d)).
Proof.
  unfold Number_isInteger, round_scaled. rewrite Z.add_0_r.
  destruct (Z.leb_spec 0 (dec_e d)) as [He|He]; [left; split; [exact He|reflexivity]|].
  cbn [orb]. intros Hmod. apply Z.eqb_eq in Hmod. right. split; [exact He|].
  set (p := 10 ^ (- dec_e d)) in *.
  assert (Hp : 10 <= p).
  { subst p. change 10 with (10 ^ 1) at 1. apply Z.pow_le_mono_r; lia. }
  pose proof (Z.div_mod (dec_m d) p ltac:(lia)) as Hdm. rewrite Hmod, Z.add_0_r in Hdm.
  set (q := dec_m d / p) in *.
  assert (Hhalf : 0 <= p / 2 < p) by (split; [apply Z.div_pos; lia|apply Z.div_lt; lia]).
  assert (Habs : (Z.abs (dec_m d) + p / 2) / p = Z.abs q).
  { symmetry. apply Z.div_unique with (r := p / 2); [lia|]. rewrite Hdm. nia. }
  rewrite Habs. rewrite Hdm at 1. rewrite Hdm at 1.
  rewrite Z.sgn_mul, (Z.sgn_pos p) by lia. rewrite Z.mul_1_l.
  rewrite <- Z.abs_sgn. lia.
Qed.

Lemma z_min_whole k d :
  Number_isInteger (Finite d) = true -> z_min k (Finite d) = true ->
  k <= round_scaled 0 d.
Proof.
  intros Hint Hmin. unfold z_min, number_lt, whole, decimal_compare in Hmin.
  cbn [dec_m dec_e] in Hmin.
  destruct (round_scaled_whole d Hint) as [[He Hv]|[He Hv]].
  - rewrite Z.min_r, !Z.sub_0_r in Hmin by lia. cbn [Z.pow] in Hmin.
    rewrite Z.mul_1_r in Hmin. rewrite Hv.
    destruct (Z.compare_spec (dec_m d * 10 ^ dec_e d) k); try discriminate; lia.
  - rewrite Z.min_l, Z.sub_diag, Z.sub_0_l in Hmin by lia. cbn [Z.pow] in Hmin.
    rewrite Z.mul_1_r in Hmin.
    assert (Hp : 0 < 10 ^ (- dec_e d)) by (apply Z.pow_pos_nonneg; lia).
    destruct (Z.compare_spec (dec_m d) (k * 10 ^ (- dec_e d))); try discriminate; nia.
Qed.

Lemma z_max_whole k d :
  Number_isInteger (Finite d) = true -> z_max k (Finite d) = true ->
  round_scaled 0 d <= k.
Proof.
  intros Hint Hmax. unfold z_max, number_lt, whole, decimal_compare in Hmax.
  cbn [dec_m dec_e] in Hmax.
  destruct (round_scaled_whole d Hint) as [[He Hv]|[He Hv]].
  - rewrite Z.min_l, !Z.sub_0_r in Hmax by lia. cbn [Z.pow] in Hmax.
    rewrite Z.mul_1_r in Hmax. rewrite Hv.
    destruct (Z.compare_spec k (dec_m d * 10 ^ dec_e d)); try discriminate; lia.
  - rewrite Z.min_r, Z.sub_diag, Z.sub_0_l in Hmax by lia. cbn [Z.pow] in Hmax.
    rewrite Z.mul_1_r in Hmax.
    assert (Hp : 0 < 10 ^ (- dec_e d)) by (apply Z.pow_pos_nonneg; lia).
    destruct (Z.compare_spec (k * 10 ^ (- dec_e d)) (dec_m d)); try discriminate; nia.
Qed.

Lemma to_integer_whole_number d lo :
  Number_isInteger (Finite d) = true -> z_min lo (Finite d) = true ->
  - 2 ^ 31 <= lo -> round_scaled 0 d < 2 ^ 31 ->
  to_integer d = Ok (round_scaled 0 d).
Proof.
  intros Hint Hmin Hlo Hhi. pose proof (z_min_whole _ _ Hint Hmin) as Hge.
  unfold to_integer. unfold Number_isInteger in Hint.
  destruct (0 <=? dec_e d); cbn [negb andb orb] in *.
  - destruct (Z.leb_spec (- 2 ^ 31) (round_scaled 0 d)); [|lia].
    destruct (Z.ltb_spec (round_scaled 0 d) (2 ^ 31)); [reflexivity|lia].
  - rewrite Hint. cbn [negb].
    destruct (Z.leb_spec (- 2 ^ 31) (round_scaled 0 d)); [|lia].
    destruct (Z.ltb_spec (round_scaled 0 d) (2 ^ 31)); [reflexivity|lia].
Qed.

Lemma numeric_column p s what x dflt :
  fits_numeric p s x ->
  exists v, column (number_or_null x) dflt (to_numeric p s what) = Ok v.
Proof.
  destruct x as [[| |d]|]; cbn [number_or_null fits_numeric]; try (eexists; reflexivity).
  intros Hfit. destruct (dec_m d =? 0); [eexists; reflexivity|].
  cbn [column]. unfold to_numeric.
  destruct (Z.ltb_spec (Z.abs (round_scaled s d)) (10 ^ p)); [|lia].
  cbn [bind]. eexists. reflexivity.
Qed.

Lemma integer_column x dflt :
  z_optional (fun x => z_number x && Number_isInteger x && z_min 0 x) x = true ->
  fits_integer x ->
  exists v, column (number_or_null x) dflt to_integer = Ok v.
Proof.
  destruct x as [[| |d]|]; cbn [number_or_null fits_integer z_optional];
    try (eexists; reflexivity).
  intros Hz Hfit. destruct (dec_m d =? 0); [eexists; reflexivity|].
  apply andb_prop in Hz as [Hz Hmin]. apply andb_prop in Hz as [_ Hint].
  cbn [column]. rewrite (to_integer_whole_number d 0 Hint Hmin) by (cbn; lia).
  cbn [bind]. eexists. reflexivity.
Qed.

Section SchemaProperties.

Variable is_email : string -> bool.

Lemma leadSchema_parse_inv values data :
  leadSchema_parse is_email values = Some data ->
  fd_budget_min data = fv_budget_min values
  /\ fd_budget_max data = fv_budget_max values
  /\ fd_bedrooms data = fv_bedrooms values
  /\ fd_bathrooms data = fv_bathrooms values
  /\ z_optional (fun x => z_number x && Number_isInteger x && z_min 0 x)
       (fv_bedrooms values) = true
  /\ (exists d, fd_priority data = Finite d
                /\ Number_isInteger (Finite d) = true
                /\ z_min 1 (Finite d) = true /\ z_max 5 (Finite d) = true)
  /\ budgets_in_order (fd_budget_min data) (fd_budget_max data) = true
  /\ is_email (fd_email data) = true
  /\ fd_first_name data <> "" /\ fd_last_name data <> "".
Proof.
  unfold leadSchema_parse.
  destruct (fv_first_name values) as [first|]; [|discriminate].
  destruct (fv_last_name values) as [last|]; [|discriminate].
  destruct (fv_email values) as [address|]; [|discriminate].
  destruct (lead_status_in _) as [st|]; [|discriminate].
  destruct (lead_source_in _) as [so|]; [|discriminate].
  match goal with |- (if ?c then _ else _) = _ -> _ => destruct c eqn:Hc end;
    [|discriminate].
  intros [= <-]. cbn.
  repeat match goal with
         | H : _ && _ = true |- _ => apply andb_prop in H as [? ?]
         end.
  repeat split; try assumption.
  - destruct (default (whole 3) (fv_priority values)) as [| |d]; try discriminate.
    exists d. repeat split; assumption.
  - intros ->. discriminate.
  - intros ->. discriminate.
Qed.

(** X30. What the schema of the form accepts, the store accepts: a
    submission of accepted values by an admin or an agent succeeds, as
    long as the amounts and the number of bedrooms fit their columns, the
    texts hold no character of code 0 and no date of follow-up is set.
    The lead it stores has the status and the source of the form (the
    defaults [new] and [website] when the form gave none) and a
    priority that is a whole number from 1 to 5. *)
Theorem accepted_form_is_stored db user areas values data :
  leadSchema_parse is_email values = Some data ->
  may_insert db user ->
  storable_form data areas ->
  fits_numeric 12 2 (fd_budget_min data) ->
  fits_numeric 12 2 (fd_budget_max data) ->
  fits_integer (fd_bedrooms data) ->
  fits_numeric 3 1 (fd_bathrooms data) ->
  exists db' lead,
    onSubmit db user areas data = (submit_succeeded, db')
    /\ buyer_leads db' = (buyer_leads db ++ [lead])%list
    /\ bl_status lead = Some (fd_status data)
    /\ bl_source lead = Some (fd_source data)
    /\ (exists p, bl_priority lead = Some p /\ 1 <= p <= 5)
    /\ (fv_status values = None -> bl_status lead = Some new)
    /\ (fv_source values = None -> bl_source lead = Some website)
    /\ (fv_priority values = None -> bl_priority lead = Some 3).
Proof.
  intros Hparse Hrole _ Hmin Hmax Hbeds Hbaths.
  destruct (leadSchema_parse_inv _ _ Hparse)
    as (_ & _ & Ebeds & _ & Hzbeds & (d & Hprio & Hint & Hp1 & Hp5) & _).
  destruct (numeric_column 12 2 "numeric" _ None Hmin) as [bmin Hbmin].
  destruct (numeric_column 12 2 "numeric" _ None Hmax) as [bmax Hbmax].
  destruct (numeric_column 3 1 "numeric" _ None Hbaths) as [baths Hbaths'].
  rewrite <- Ebeds in Hzbeds.
  destruct (integer_column _ None Hzbeds Hbeds) as [beds Hbeds'].
  pose proof (z_min_whole _ _ Hint Hp1) as Hge.
  pose proof (z_max_whole _ _ Hint Hp5) as Hle.
  assert (Hpr : column (json_number (fd_priority data)) (Some 3) to_integer
                = Ok (Some (round_scaled 0 d))).
  { rewrite Hprio. cbn [json_number column].
    rewrite (to_integer_whole_number d 1 Hint Hp1) by (cbn; lia). reflexivity. }
  eassert (Hins : db_insert_lead db (Some user) (form_leadData data areas user)
                  = Ok (with_new_lead db _)).
  { unfold db_insert_lead, requested_row.
    cbn [default_lead bl_id bl_created_by bl_assigned_to bl_first_name bl_last_name
         bl_email bl_phone bl_budget_min bl_budget_max bl_preferred_areas
         bl_property_type bl_bedrooms bl_bathrooms bl_status bl_source bl_priority
         bl_notes bl_last_contacted bl_next_follow_up bl_created_at bl_updated_at
         form_leadData in_created_by in_assigned_to in_first_name in_last_name in_email
         in_phone in_budget_min in_budget_max in_preferred_areas in_property_type
         in_bedrooms in_bathrooms in_status in_source in_priority in_notes
         in_last_contacted in_next_follow_up].
    rewrite Hbmin, Hbmax, Hbeds', Hbaths', Hpr, !column_given.
    cbn [column bind]. unfold to_lead_status, to_lead_source.
    rewrite lead_status_in_label, lead_source_in_label. cbn [bind].
    rewrite may_insert_allowed by assumption. cbn [guard bind].
    unfold check_constraints. cbn [guard bind bool_decide decide_rel].
    match goal with
    | |- context [Sql.check_passes (priority_check ?row)] =>
        assert (Hp : Sql.check_passes (priority_check row) = true)
    end.
    { apply priority_check_passes. unfold priority_in_range. cbn [bl_priority].
      assert (round_scaled 0 d = 1 \/ round_scaled 0 d = 2 \/ round_scaled 0 d = 3
              \/ round_scaled 0 d = 4 \/ round_scaled 0 d = 5) as Hv by lia.
      cbn [In]. intuition congruence. }
    rewrite Hp. reflexivity. }
  unfold onSubmit. rewrite Hins.
  assert (Hdefaults :
            (fv_status values = None -> fd_status data = new)
            /\ (fv_source values = None -> fd_source data = website)
            /\ (fv_priority values = None -> round_scaled 0 d = 3)).
  { clear - Hparse Hprio. unfold leadSchema_parse in Hparse.
    destruct (fv_first_name values); [|discriminate].
    destruct (fv_last_name values); [|discriminate].
    destruct (fv_email values); [|discriminate].
    destruct (lead_status_in _) as [st|] eqn:Hst; [|discriminate].
    destruct (lead_source_in _) as [so|] eqn:Hso; [|discriminate].
    match type of Hparse with (if ?c then _ else _) = _ => destruct c end;
      [|discriminate].
    injection Hparse as <-. cbn [fd_status fd_source fd_priority] in *.
    repeat split.
    - intros E. rewrite E in Hst. cbn in Hst. congruence.
    - intros E. rewrite E in Hso. cbn in Hso. congruence.
    - intros E. rewrite E in Hprio. cbn in Hprio. injection Hprio as <-. reflexivity. }
  destruct Hdefaults as (Dst & Dso & Dpr).
  match goal with
  | |- context [with_new_lead db ?row] => set (lead := row) in *
  end.
  assert (Hlead : bl_status lead = Some (fd_status data)
                  /\ bl_source lead = Some (fd_source data)
                  /\ bl_priority lead = Some (round_scaled 0 d))
    by (repeat split).
  destruct Hlead as (Lst & Lso & Lpr). clearbody lead.
  destruct (newLead (with_new_lead db lead) user (fd_email data)) as [id|].
  - unfold db_insert_activity.
    destruct (guard _ _) as [[]|e]; cbn [bind];
      (eexists _, lead; split; [reflexivity|]);
      cbn [buyer_leads with_new_lead];
      (repeat split; try assumption;
       [exists (round_scaled 0 d); split; [exact Lpr|lia]
       |intros E; rewrite Lst, (Dst E); reflexivity
       |intros E; rewrite Lso, (Dso E); reflexivity
       |intros E; rewrite Lpr, (Dpr E); reflexivity]).
  - eexists _, lead. split; [reflexivity|].
    cbn [buyer_leads with_new_lead].
    repeat split; try assumption;
      [exists (round_scaled 0 d); split; [exact Lpr|lia]
      |intros E; rewrite Lst, (Dst E); reflexivity
      |intros E; rewrite Lso, (Dso E); reflexivity
      |intros E; rewrite Lpr, (Dpr E); reflexivity].
Qed.

End SchemaProperties.

Lemma accepted_form_is_stored_witness :
  exists db' lead,
    leadSchema_parse has_at_sign example_values = Some example_form
    /\ onSubmit empty_store 2%N ["Downtown"] example_form = (submit_succeeded, db')
    /\ bl_source lead = Some website
    /\ bl_priority lead = Some 3.
Proof.
  assert (Hrole : may_insert empty_store 2%N) by (right; reflexivity).
  assert (Hmin : fits_numeric 12 2 (fd_budget_min example_form)) by reflexivity.
  assert (Hmax : fits_numeric 12 2 (fd_budget_max example_form)) by reflexivity.
  assert (Hbeds : fits_integer (fd_bedrooms example_form)) by reflexivity.
  assert (Hbaths : fits_numeric 3 1 (fd_bathrooms example_form)) by exact I.
  assert (Htexts : storable_form example_form ["Downtown"])
    by (repeat split; repeat constructor).
  destruct (accepted_form_is_stored has_at_sign empty_store 2%N ["Downtown"]
              example_values example_form eq_refl Hrole Htexts Hmin Hmax Hbeds Hbaths)
    as (db' & lead & Hrun & _ & _ & _ & _ & _ & Hso & Hpr).
  exists db', lead. split; [reflexivity|]. split; [exact Hrun|].
  split; [apply Hso|apply Hpr]; reflexivity.
Defined.
